(** * Resolver, SFC cache and HMR diff of the dev server

    A shallow embedding of
    - [src/node/resolver.ts] (the path and package resolver),
    - [src/node/server/serverPluginVue.ts] (SFC cache, [handleVueReload]),
    - [src/node/server/serverPluginCss.ts] (the stylesheet change handler),
    and the properties of the specification that concern them.

    JS objects used as records are Rocq records, [Map]s keyed by strings are
    [gmap string _], arrays are lists, [undefined]/[null] results are
    [option].  Module-level mutable tables live in one [Store] that is
    threaded through a small state-and-trace monad; the file system is a
    [World] passed explicitly, so that two calls can observe two different
    file systems. *)

From Stdlib Require Import ZArith List String Ascii Bool Lia.
From stdpp Require Import base option list strings gmap pretty.

Open Scope string_scope.
Open Scope list_scope.
Set Warnings "-register-all".

(** ** JavaScript strings and truthiness *)

Module Js.

(** [if (s)] on a value of type [string | undefined]. *)
Definition truthy (o : option string) : bool :=
  match o with
  | Some s => negb (String.eqb s "")
  | None => false
  end.

(** [String.prototype.endsWith]. *)
Definition endsWith (s suffix : string) : bool :=
  let n := String.length s in
  let k := String.length suffix in
  (k <=? n)%nat && String.eqb (substring (n - k) k s) suffix.

(** [String.prototype.startsWith]. *)
Definition startsWith (s pre : string) : bool :=
  String.eqb (substring 0 (String.length pre) s) pre.

(** The line feed and the double quote, for texts that contain them. *)
Definition nl : string := String (Ascii.ascii_of_nat 10) EmptyString.
Definition dquote : string := String (Ascii.ascii_of_nat 34) EmptyString.

(** [s.slice(n)] for [0 <= n]. *)
Definition slice_from (n : nat) (s : string) : string :=
  substring n (String.length s - n) s.

End Js.

(** ** Reading a property of a plain object *)

Module JsObject.

(** The properties that every plain object inherits from [Object.prototype]
    (as the language defines it, with nothing added to it). *)
Definition prototype_names : list string :=
  ["constructor"; "__defineGetter__"; "__defineSetter__"; "hasOwnProperty";
   "__lookupGetter__"; "__lookupSetter__"; "isPrototypeOf"; "propertyIsEnumerable";
   "toString"; "valueOf"; "__proto__"; "toLocaleString"].

(** What [o[key]] is for a plain object [o] whose own properties hold
    strings: such a string, or the value inherited under [name], which is a
    function, or the prototype itself for [__proto__]; never a string. *)
Inductive Value : Type :=
  | Str (text : string)
  | Inherited (name : string).

(** [o[key]], with the own properties of [o] as a map; [None] is [undefined]. *)
Definition get (o : gmap string string) (key : string) : option Value :=
  match o !! key with
  | Some text => Some (Str text)
  | None => if bool_decide (key ∈ prototype_names) then Some (Inherited key) else None
  end.

(** [if (v)]: a function or an object is true as a condition. *)
Definition truthy (v : option Value) : bool :=
  match v with
  | Some (Str text) => negb (String.eqb text "")
  | Some (Inherited _) => true
  | None => false
  end.

End JsObject.

(** ** SFC descriptors ([@vue/compiler-sfc] types, as far as the server reads them) *)

Module Sfc.

(** Attribute values: [Record<string, string | true>]. *)
Inductive AttrVal : Type :=
  | AStr (s : string)
  | ATrue.

#[global] Instance AttrVal_eq_dec : EqDecision AttrVal.
Proof. solve_decision. Defined.

(** A JS object literal in insertion order; a well-formed object has no
    repeated key. *)
Definition Attrs : Type := list (string * AttrVal).

(** [Object.keys(o)]. *)
Definition Object_keys (o : Attrs) : list string := map fst o.

(** [o[key]]; [None] is [undefined]. *)
Fixpoint prop (o : Attrs) (key : string) : option AttrVal :=
  match o with
  | [] => None
  | (k, v) :: o' => if String.eqb k key then Some v else prop o' key
  end.

Record SFCBlock : Type := mkBlock {
  content : string;
  attrs : Attrs;
  src : option string;
  lang : option string
}.

(** [SFCStyleBlock extends SFCBlock { scoped?: boolean; module?: string | boolean }];
    the parser stores the attribute value, [string | true], in [module]. *)
Record SFCStyleBlock : Type := mkStyle {
  block :> SFCBlock;
  scoped : option bool;
  module : option AttrVal
}.

Record SFCDescriptor : Type := mkDescriptor {
  filename : string;
  template : option SFCBlock;
  script : option SFCBlock;
  styles : list SFCStyleBlock
}.

(** [isEqualBlock], serverPluginVue.ts:259-270. *)
Definition isEqualBlock (a b : option SFCBlock) : bool :=
  match a, b with
  | None, None => true
  | None, Some _ | Some _, None => false
  | Some a, Some b =>
      if negb (String.length (content a) =? String.length (content b))%nat then false
      else if negb (String.eqb (content a) (content b)) then false
      else
        let keysA := Object_keys (attrs a) in
        let keysB := Object_keys (attrs b) in
        if negb (length keysA =? length keysB)%nat then false
        else forallb (fun key => bool_decide (prop (attrs a) key = prop (attrs b) key)) keysA
  end.

(** Well-formedness of a block as a JS value: its attribute object has
    pairwise distinct keys. *)
Definition block_wf (a : option SFCBlock) : Prop :=
  match a with
  | Some x => NoDup (Object_keys (attrs x))
  | None => True
  end.

(** The equality rule in the words of the specification. *)
Definition spec_equal (a b : option SFCBlock) : Prop :=
  (a = None ∧ b = None) ∨
  (∃ x y, a = Some x ∧ b = Some y ∧
     content x = content y ∧
     (∀ k, k ∈ Object_keys (attrs x) ↔ k ∈ Object_keys (attrs y)) ∧
     (∀ k, k ∈ Object_keys (attrs x) → k ∈ Object_keys (attrs y) →
           prop (attrs x) k = prop (attrs y) k)).

End Sfc.

(** ** The [lru-cache] package, as [vueCache] uses it

    Entries are kept most recently used first; keys are pairwise distinct.
    [set] evicts from the least recently used end once [max] is exceeded. *)

Module Lru.

Definition t (V : Type) : Type := list (string * V).

(** [cache.peek(k)] / [cache.has(k)]: no recency update. *)
Fixpoint peek {V} (c : t V) (k : string) : option V :=
  match c with
  | [] => None
  | (k', v) :: c' => if String.eqb k' k then Some v else peek c' k
  end.

(** [cache.del(k)]. *)
Fixpoint del {V} (k : string) (c : t V) : t V :=
  match c with
  | [] => []
  | (k', v) :: c' => if String.eqb k' k then del k c' else (k', v) :: del k c'
  end.

Definition trim {V} (max : N) (c : t V) : t V :=
  if (N.of_nat (length c) <=? max)%N then c else take (N.to_nat max) c.

(** [cache.set(k, v)]. *)
Definition set {V} (max : N) (k : string) (v : V) (c : t V) : t V :=
  trim max ((k, v) :: del k c).

(** [cache.get(k)]: the value, and the cache with [k] moved to the front. *)
Definition get {V} (c : t V) (k : string) : option V * t V :=
  match peek c k with
  | Some v => (Some v, (k, v) :: del k c)
  | None => (None, c)
  end.

End Lru.

(** ** Parsed JSON (package manifests) *)

Module Json.

Inductive t : Type :=
  | JNull
  | JBool (b : bool)
  | JNum (z : Z)
  | JStr (s : string)
  | JArr (items : list t)
  | JObj (fields : list (string * t)).

Fixpoint lookup_field (fields : list (string * t)) (key : string) : option t :=
  match fields with
  | [] => None
  | (k, v) :: fields' => if String.eqb k key then Some v else lookup_field fields' key
  end.

(** [v[key]] for a non-nullish [v]; [None] is [undefined].  The resolver
    reads the keys [exports], ["."], [import], [module] and [main] only, and
    none of them is a property of a string, number, boolean or array. *)
Definition get (v : t) (key : string) : option t :=
  match v with
  | JObj fields => lookup_field fields key
  | _ => None
  end.

(** JS truthiness of a value that may be [undefined]. *)
Definition truthy (o : option t) : bool :=
  match o with
  | None => false
  | Some JNull => false
  | Some (JBool b) => b
  | Some (JNum z) => negb (z =? 0)%Z
  | Some (JStr s) => negb (String.eqb s "")
  | Some (JArr _) => true
  | Some (JObj _) => true
  end.

(** [a || b]. *)
Definition or_else (a b : option t) : option t :=
  if truthy a then a else b.

End Json.

(** ** What the server takes from Node, from npm packages and from modules
       of the repository that are imported but not part of the files above *)

(** A compiler diagnostic ([CompilerError]) with its source location. *)
Record CompilerError : Type := {
  message : string;
  loc_line : nat;
  loc_column : nat;
  loc_start_offset : nat;
  loc_end_offset : nat
}.

Class NodeApi : Type := {
  (** [path.join(...segments)] *)
  path_join : list string → string;
  (** [path.posix.join(a, b)] *)
  path_posix_join : string → string → string;
  path_dirname : string → string;
  path_extname : string → string;
  path_basename : string → string;
  (** [path.relative(from, to)] *)
  path_relative : string → string → string;
  (** the [slash] package *)
  slash : string → string;
  (** the [hash-sum] package *)
  hash_sum : string → string;
  (** [cleanUrl] of [utils] *)
  cleanUrl : string → string;
  (** [queryRE.test] of [utils] *)
  queryRE_test : string → bool;
  (** [moduleRE] of [serverPluginModuleResolve]: [Some id] when
      [moduleRE.test(publicPath)], with [id = publicPath.replace(moduleRE, '')] *)
  moduleRE_strip : string → option string;
  (** [cssPreprocessLangRE.test] of [utils/cssUtils] *)
  cssPreprocessLangRE_test : string → bool;
  (** the text [`${qs.parse(styleImport.split('?', 2)[1]).index}`] *)
  qs_index : string → string;
  (** [parse] of the SFC compiler, [resolveCompiler(root).parse(content, {filename})] *)
  sfc_parse : string → string → string → Sfc.SFCDescriptor * list CompilerError;
  (** [generateCodeFrame] of the SFC compiler *)
  generateCodeFrame : string → nat → nat → string
}.

(** [path.join] never returns the empty string (it returns ["."] instead). *)
Definition path_join_nonempty `{NodeApi} : Prop :=
  ∀ segments, path_join segments ≠ "".

(** The file system and the package layout at one moment. *)
Record World : Type := {
  (** [fs.existsSync] *)
  existsSync : string → bool;
  (** [fs.statSync(file).isFile()], [false] when [statSync] throws *)
  stat_isFile : string → bool;
  (** [resolveFrom(root, id)] of [utils]; [None] when it throws *)
  resolveFrom : string → string → option string;
  (** [JSON.parse(fs.readFileSync(pkgPath, 'utf-8'))]; [None] when either throws *)
  readManifest : string → option Json.t;
  (** [resolveOptimizedCacheDir(root)] of [depOptimizer] *)
  resolveOptimizedCacheDir : string → option string;
  (** [cachedRead(null, file)] of [utils]; [None] when it throws *)
  cachedRead : string → option string
}.

(** ** Process-wide tables *)

(** [NodeModuleInfo], resolver.ts:234-238. *)
Record NodeModuleInfo : Type := {
  entry : option string;
  entryFilePath : option string;
  pkg : Json.t
}.

(** [SFCStyleCompileResults], as far as the cache is concerned. *)
Record SFCStyleCompileResults : Type := {
  code : string;
  modules : option (list (string * string))
}.

(** [CacheEntry], serverPluginVue.ts:36-41. *)
Record CacheEntry : Type := {
  descriptor : option Sfc.SFCDescriptor;
  template : option string;
  script : option string;
  styles : list (option SFCStyleCompileResults)
}.

(** [ProcessedEntry], serverPluginCss.ts:16-19. *)
Record ProcessedEntry : Type := {
  css : string;
  css_modules : option (list (string * string))
}.

Record Store : Type := mkStore {
  idToFileMap : gmap string string;
  fileToRequestMap : gmap string string;
  viteOptimizedMap : gmap string string;
  nodeModulesInfoMap : gmap string NodeModuleInfo;
  nodeModulesFileMap : gmap string string;
  vueCache : Lru.t CacheEntry;
  srcImportMap : gmap string string;
  processedCSS : gmap string ProcessedEntry
}.

Definition with_idToFileMap (f : gmap string string → gmap string string) (s : Store) : Store :=
  mkStore (f (idToFileMap s)) (fileToRequestMap s) (viteOptimizedMap s)
    (nodeModulesInfoMap s) (nodeModulesFileMap s) (vueCache s) (srcImportMap s)
    (processedCSS s).

Definition with_viteOptimizedMap (f : gmap string string → gmap string string) (s : Store) : Store :=
  mkStore (idToFileMap s) (fileToRequestMap s) (f (viteOptimizedMap s))
    (nodeModulesInfoMap s) (nodeModulesFileMap s) (vueCache s) (srcImportMap s)
    (processedCSS s).

Definition with_nodeModulesInfoMap
    (f : gmap string NodeModuleInfo → gmap string NodeModuleInfo) (s : Store) : Store :=
  mkStore (idToFileMap s) (fileToRequestMap s) (viteOptimizedMap s)
    (f (nodeModulesInfoMap s)) (nodeModulesFileMap s) (vueCache s) (srcImportMap s)
    (processedCSS s).

Definition with_nodeModulesFileMap (f : gmap string string → gmap string string) (s : Store) : Store :=
  mkStore (idToFileMap s) (fileToRequestMap s) (viteOptimizedMap s)
    (nodeModulesInfoMap s) (f (nodeModulesFileMap s)) (vueCache s) (srcImportMap s)
    (processedCSS s).

Definition with_vueCache (f : Lru.t CacheEntry → Lru.t CacheEntry) (s : Store) : Store :=
  mkStore (idToFileMap s) (fileToRequestMap s) (viteOptimizedMap s)
    (nodeModulesInfoMap s) (nodeModulesFileMap s) (f (vueCache s)) (srcImportMap s)
    (processedCSS s).

Definition with_processedCSS
    (f : gmap string ProcessedEntry → gmap string ProcessedEntry) (s : Store) : Store :=
  mkStore (idToFileMap s) (fileToRequestMap s) (viteOptimizedMap s)
    (nodeModulesInfoMap s) (nodeModulesFileMap s) (vueCache s) (srcImportMap s)
    (f (processedCSS s)).

(** ** Notifications and diagnostics *)

(** What [watcher.send] is given. *)
Inductive HMRPayload : Type :=
  | VueReload (path : string) (timestamp : Z)
  | VueRerender (path : string) (timestamp : Z)
  | StyleUpdate (path : string) (timestamp : Z)
  | StyleRemove (path : string) (id : string) (timestamp : Z).

(** Observable effects other than the store.  [chalk] only colours a text and
    is left out; a text that embeds a wall-clock duration is abridged. *)
Inductive Output : Type :=
  | Send (payload : HMRPayload)
  | HandleJSReload (filePath : string) (timestamp : Z)
  | ConsoleLog (text : string)
  | ConsoleError (text : string)
  | Debug (namespace text : string).

(** ** Store, trace and exceptions *)

Inductive Result (A : Type) : Type :=
  | Ok (a : A)
  | Throw (error : string).
Arguments Ok {A} a.
Arguments Throw {A} error.

Definition M (A : Type) : Type := Store → Result A * Store * list Output.

Definition ret {A} (a : A) : M A := fun s => (Ok a, s, []).

Definition bind {A B} (m : M A) (k : A → M B) : M B :=
  fun s =>
    match m s with
    | (Ok a, s', out) =>
        match k a s' with
        | (r, s'', out') => (r, s'', out ++ out')
        end
    | (Throw e, s', out) => (Throw e, s', out)
    end.

Definition throw {A} (e : string) : M A := fun s => (Throw e, s, []).
Definition gets {A} (f : Store → A) : M A := fun s => (Ok (f s), s, []).
Definition modify (f : Store → Store) : M unit := fun s => (Ok tt, f s, []).
Definition emit (o : Output) : M unit := fun s => (Ok tt, s, [o]).

Notation "'let*' x ':=' m 'in' k" := (bind m (fun x => k))
  (at level 10, x name, m at level 100, k at level 200).
Notation "m ';;' k" := (bind m (fun _ => k))
  (at level 100, k at level 200, right associativity).

(** [xs.forEach((x, i) => ...)], indices counted from [start]; [locals] are
    the variables of the enclosing function that the callback assigns. *)
Fixpoint forEach_from {A L} (start : nat) (xs : list A) (body : nat → A → L → M L)
    (locals : L) : M L :=
  match xs with
  | [] => ret locals
  | x :: xs' =>
      let* locals := body start x locals in
      forEach_from (S start) xs' body locals
  end.

Definition forEach {A L} (xs : list A) (body : nat → A → L → M L) (locals : L) : M L :=
  forEach_from 0 xs body locals.

(** The notifications among the outputs. *)
Definition sent (out : list Output) : list HMRPayload :=
  omap (fun o => match o with Send p => Some p | _ => None end) out.

Definition result_of {A} (r : Result A * Store * list Output) : Result A := r.1.1.
Definition store_of {A} (r : Result A * Store * list Output) : Store := r.1.2.
Definition outputs_of {A} (r : Result A * Store * list Output) : list Output := r.2.

(** [m] started in [s] returns [a], leaves the store [s'] and the trace [out]. *)
Definition runs {A} (m : M A) (s : Store) (a : A) (s' : Store) (out : list Output) : Prop :=
  m s = (Ok a, s', out).

(** ** resolver.ts *)

(** [interface Resolver]: the optional methods of a custom resolver. *)
Module UserResolver.

Record t : Type := {
  requestToFile : option (string → string → option string);
  fileToRequest : option (string → string → option string);
  alias : option (string → option string)
}.

End UserResolver.

(** [interface InternalResolver]. *)
Module InternalResolver.

Record t : Type := {
  requestToFile : World → string → M string;
  fileToRequest : string → M string;
  (** declared [string | undefined]; what it returns is what the alias
      object holds or inherits under the identifier, or a resolver's answer *)
  alias : string → option JsObject.Value;
  resolveExt : World → string → M (option string)
}.

End InternalResolver.

Module Resolver.

Definition supportedExts : list string :=
  [".mjs"; ".js"; ".ts"; ".jsx"; ".tsx"; ".json"].

(** [s] has no line terminator: what [.*$] can run over. *)
Fixpoint no_line_break (s : string) : bool :=
  match s with
  | EmptyString => true
  | String c s' =>
      negb (Ascii.eqb c "010"%char) && negb (Ascii.eqb c "013"%char) && no_line_break s'
  end.

(** [id.match(/\?.*$/)]: the match, from a question mark to the end. *)
Fixpoint match_query (id : string) : option string :=
  match id with
  | EmptyString => None
  | String c s' =>
      if Ascii.eqb c "?"%char && no_line_break s' then Some id else match_query s'
  end.

(** The run of characters before the first slash, and what follows that slash. *)
Fixpoint split_slash (s : string) : option (string * string) :=
  match s with
  | EmptyString => None
  | String c s' =>
      if Ascii.eqb c "/"%char then Some ("", s')
      else match split_slash s' with
           | Some (run, rest) => Some (String c run, rest)
           | None => None
           end
  end.

(** [jsSrcRE.test(ext)], [/\.(?:(?:j|t)sx?|vue)$|\.mjs$/]. *)
Definition jsSrcRE_test (ext : string) : bool :=
  existsb (Js.endsWith ext) [".js"; ".jsx"; ".ts"; ".tsx"; ".vue"; ".mjs"].

(** [id.match(deepImportRE)], as [deepMatch[1] || deepMatch[2]].  The
    pattern has two alternatives, both anchored at the start: a character
    other than an at-sign and then the characters up to the first slash; or
    an at-sign, a non-empty scope, a slash and a non-empty name, followed by
    a slash. *)
Definition deepImportRE_match (id : string) : option string :=
  match id with
  | EmptyString => None
  | String c s' =>
      if negb (Ascii.eqb c "@"%char) then
        match split_slash s' with
        | Some (run, _) => Some (String c run)
        | None => None
        end
      else
        match split_slash s' with
        | Some (scope, rest) =>
            match split_slash rest with
            | Some (name, _) =>
                if negb (String.eqb scope "") && negb (String.eqb name "")
                then Some ("@" +:+ scope +:+ "/" +:+ name)
                else None
            | None => None
            end
        | None => None
        end
  end.

(** Template-literal interpolation of a manifest value. *)
Fixpoint interpolate (v : Json.t) : string :=
  match v with
  | Json.JNull => "null"
  | Json.JBool b => if b then "true" else "false"
  | Json.JNum z => pretty z
  | Json.JStr s => s
  | Json.JObj _ => "[object Object]"
  | Json.JArr items =>
      (fix join (l : list Json.t) : string :=
         match l with
         | [] => ""
         | x :: l' =>
             (match x with Json.JNull => "" | _ => interpolate x end)
             +:+ (match l' with [] => "" | _ => "," +:+ join l' end)
         end) items
  end.

(** Lines 264-278 of [resolveNodeModule]: the entry point chosen from the
    manifest, [Some Json.JNull] when there is none. *)
Definition select_entryPoint (pkg : Json.t) : option Json.t :=
  let entryPoint :=
    if Json.truthy (Json.get pkg "exports") then
      match Json.get pkg "exports" with
      | Some (Json.JStr s) => Some (Json.JStr s)
      | Some exports =>
          if Json.truthy (Json.get exports ".") then
            match Json.get exports "." with
            | Some (Json.JStr s) => Some (Json.JStr s)
            | Some dot => Json.get dot "import"
            | None => None
            end
          else None
      | None => None
      end
    else None in
  if negb (Json.truthy entryPoint) then
    Json.or_else (Json.or_else (Json.get pkg "module") (Json.get pkg "main"))
                 (Some Json.JNull)
  else entryPoint.

Section WithNode.
Context `{NodeApi}.

Definition debug (text : string) : M unit := emit (Debug "vite:resolve" text).

Definition isFile (w : World) (file : string) : bool := stat_isFile w file.

(** The [for] loop of [resolveExt] over the extensions still to try. *)
Fixpoint inferExt (w : World) (cleanId : string) (exts : list string) : string :=
  match exts with
  | [] => ""
  | ext :: exts' =>
      if isFile w (cleanId +:+ ext) then ext
      else if isFile w (path_join [cleanId; "/index" +:+ ext]) then "/index" +:+ ext
      else inferExt w cleanId exts'
  end.

Definition resolveExt (w : World) (id : string) : M (option string) :=
  let cleanId := cleanUrl id in
  if negb (isFile w cleanId) then
    let inferredExt := inferExt w cleanId supportedExts in
    let query := default "" (match_query id) in
    let resolved := cleanId +:+ inferredExt +:+ query in
    if negb (String.eqb resolved id) then
      debug ("(extension) " +:+ id +:+ " -> " +:+ resolved) ;;
      ret (Some inferredExt)
    else ret None
  else ret None.

Definition resolveOptimizedModule (w : World) (root id : string) : M (option string) :=
  let* cached := gets (fun s => viteOptimizedMap s !! id) in
  if Js.truthy cached then ret cached
  else
    let cacheDir := resolveOptimizedCacheDir w root in
    if negb (Js.truthy cacheDir) then ret None
    else
      let file := path_join [default "" cacheDir; id] in
      if existsSync w file then
        modify (with_viteOptimizedMap (insert id file)) ;;
        ret (Some file)
      else ret None.

Definition resolveNodeModuleFile (w : World) (root id : string) : M (option string) :=
  let* cached := gets (fun s => nodeModulesFileMap s !! id) in
  if Js.truthy cached then ret cached
  else
    match resolveFrom w root id with
    | Some resolved =>
        modify (with_nodeModulesFileMap (insert id resolved)) ;;
        ret (Some resolved)
    | None => ret None
    end.

(** The [if (moduleRE.test(publicPath))] block of [defaultRequestToFile]:
    [Some file] when the block returns, [None] when control falls out of it. *)
Definition defaultRequestToFile_module (w : World) (id root : string) : M (option string) :=
  let* cachedNodeModule := gets (fun s => idToFileMap s !! id) in
  if Js.truthy cachedNodeModule then ret cachedNodeModule
  else
    let* optimizedModule := resolveOptimizedModule w root id in
    if Js.truthy optimizedModule then ret optimizedModule
    else
      let* nodeModule := resolveNodeModuleFile w root id in
      if Js.truthy nodeModule then
        modify (with_idToFileMap (insert id (default "" nodeModule))) ;;
        ret nodeModule
      else ret None.

Definition defaultRequestToFile (w : World) (publicPath root : string) : M string :=
  let* inModule :=
    match moduleRE_strip publicPath with
    | Some id => defaultRequestToFile_module w id root
    | None => ret None
    end in
  match inModule with
  | Some file => ret file
  | None =>
      let publicDirPath := path_join [root; "public"; Js.slice_from 1 publicPath] in
      if existsSync w publicDirPath then ret publicDirPath
      else ret (path_join [root; Js.slice_from 1 publicPath])
  end.

Definition defaultFileToRequest (filePath root : string) : M string :=
  let* moduleRequest := gets (fun s => fileToRequestMap s !! filePath) in
  if Js.truthy moduleRequest then ret (default "" moduleRequest)
  else ret ("/" +:+ slash (path_relative root filePath)).

(** [for (const r of resolvers) { const x = r.m && r.m(arg, root); if (x) ... }]:
    the first truthy answer. *)
Fixpoint first_custom (method : UserResolver.t → option (string → string → option string))
    (resolvers : list UserResolver.t) (arg root : string) : option string :=
  match resolvers with
  | [] => None
  | r :: resolvers' =>
      let answer := match method r with Some f => f arg root | None => None end in
      if Js.truthy answer then answer else first_custom method resolvers' arg root
  end.

(** The loop of [alias] over the custom resolvers. *)
Fixpoint first_alias (resolvers : list UserResolver.t) (id : string) : option string :=
  match resolvers with
  | [] => None
  | r :: resolvers' =>
      let aliased := match UserResolver.alias r with Some f => f id | None => None end in
      if Js.truthy aliased then aliased else first_alias resolvers' id
  end.

Section CreateResolver.
Variable root : string.
Variable resolvers : list UserResolver.t.
Variable alias : gmap string string.

Definition resolveRequest (w : World) (publicPath : string) : M (string * option string) :=
  let resolved := first_custom UserResolver.requestToFile resolvers publicPath root in
  let* resolved :=
    if negb (Js.truthy resolved) then defaultRequestToFile w publicPath root
    else ret (default "" resolved) in
  let* ext := resolveExt w resolved in
  ret (if Js.truthy ext then resolved +:+ default "" ext else resolved, ext).

Definition requestToFile (w : World) (publicPath : string) : M string :=
  let* r := resolveRequest w publicPath in ret (fst r).

Definition fileToRequest (filePath : string) : M string :=
  let request := first_custom UserResolver.fileToRequest resolvers filePath root in
  if Js.truthy request then ret (default "" request)
  else defaultFileToRequest filePath root.

Definition createResolver : InternalResolver.t :=
  {| InternalResolver.requestToFile := requestToFile;
     InternalResolver.resolveExt :=
       fun w publicPath => let* r := resolveRequest w publicPath in ret (snd r);
     InternalResolver.fileToRequest := fileToRequest;
     InternalResolver.alias :=
       fun id =>
         let aliased := JsObject.get alias id in
         if JsObject.truthy aliased then aliased
         else JsObject.Str <$> first_alias resolvers id |}.

End CreateResolver.

Definition resolveNodeModule (w : World) (root id : string) : M (option NodeModuleInfo) :=
  let* cached := gets (fun s => nodeModulesInfoMap s !! id) in
  match cached with
  | Some info => ret (Some info)
  | None =>
      let pkgPath := resolveFrom w root (id +:+ "/package.json") in
      if Js.truthy pkgPath then
        let pkgPath := default "" pkgPath in
        match readManifest w pkgPath with
        | None => ret None
        | Some Json.JNull => throw "TypeError: Cannot read property 'exports' of null"
        | Some pkg =>
            let entryPoint := select_entryPoint pkg in
            debug ("(node_module entry) " +:+ id +:+ " -> "
                   +:+ interpolate (default Json.JNull entryPoint)) ;;
            let finish (entry entryFilePath : option string) : M (option NodeModuleInfo) :=
              let result :=
                {| entry := entry; entryFilePath := entryFilePath; pkg := pkg |} in
              modify (with_nodeModulesInfoMap (insert id result)) ;;
              ret (Some result) in
            if Json.truthy entryPoint then
              match entryPoint with
              | Some (Json.JStr entryPoint) =>
                  let entryFilePath := path_join [path_dirname pkgPath; entryPoint] in
                  let* ext := resolveExt w entryFilePath in
                  let entryPoint :=
                    if Js.truthy ext then entryPoint +:+ default "" ext else entryPoint in
                  let entryFilePath :=
                    if Js.truthy ext then entryFilePath +:+ default "" ext else entryFilePath in
                  let entryPoint := path_posix_join id entryPoint in
                  modify (with_nodeModulesFileMap (insert entryPoint entryFilePath)) ;;
                  finish (Some entryPoint) (Some entryFilePath)
              | _ => throw "TypeError: The path argument must be of type string"
              end
            else finish None None
        end
      else ret None
  end.

Definition resolveBareModuleRequest (w : World) (root id importer : string) : M string :=
  let* optimized := resolveOptimizedModule w root id in
  if Js.truthy optimized then ret id
  else
    let* pkgInfo := resolveNodeModule w root id in
    match pkgInfo with
    | Some pkgInfo =>
        (if negb (Js.truthy (entry pkgInfo)) then
           emit (ConsoleError ("[vite] dependency " +:+ id +:+
                               " does not have default entry defined in package.json."))
         else ret tt) ;;
        ret (if Js.truthy (entry pkgInfo) then default "" (entry pkgInfo) else id)
    | None =>
        let ext := path_extname id in
        if String.eqb ext "" || jsSrcRE_test ext then
          match deepImportRE_match id with
          | Some depId =>
              let* depOptimized := resolveOptimizedModule w root depId in
              if Js.truthy depOptimized then
                emit (ConsoleError
                        (Js.nl +:+ "[vite] Avoid deep import " +:+ Js.dquote +:+ id
                         +:+ Js.dquote +:+ " since " +:+ Js.dquote +:+ depId +:+ Js.dquote
                         +:+ " is a pre-optimized dependency." +:+ Js.nl
                         +:+ "Prefer importing from the module directly." +:+ Js.nl
                         +:+ "Importer: " +:+ importer +:+ Js.nl))
              else ret tt
          | None => ret tt
          end ;;
          ret id
        else ret (id +:+ (if queryRE_test id then "&import" else "?import"))
    end.

End WithNode.

End Resolver.

(** ** serverPluginVue.ts *)

Module Vue.

(** [new LRUCache({ max: 65535 })]. *)
Definition vueCache_max : N := 65535.

Definition vueCache_get (filePath : string) : M (option CacheEntry) :=
  fun s =>
    let '(v, c) := Lru.get (vueCache s) filePath in
    (Ok v, with_vueCache (fun _ => c) s, []).

Definition vueCache_del (filePath : string) : M unit :=
  modify (with_vueCache (Lru.del filePath)).

Definition vueCache_set (filePath : string) (e : CacheEntry) : M unit :=
  modify (with_vueCache (Lru.set vueCache_max filePath e)).

(** [{ styles: [] }]. *)
Definition empty_entry : CacheEntry :=
  {| descriptor := None; template := None; script := None; styles := [] |}.

(** The entry that a successful parse leaves: the descriptor and nothing compiled. *)
Definition fresh_entry (parsed : Sfc.SFCDescriptor) : CacheEntry :=
  {| descriptor := Some parsed; template := None; script := None; styles := [] |}.

(** [s.module != null]. *)
Definition is_module (s : Sfc.SFCStyleBlock) : bool :=
  match Sfc.module s with Some _ => true | None => false end.

(** [s.scoped] as a condition. *)
Definition is_scoped (s : Sfc.SFCStyleBlock) : bool :=
  match Sfc.scoped s with Some b => b | None => false end.

(** [!prevStyles[i] || !isEqualBlock(prevStyles[i], nextStyles[i])]. *)
Definition style_changed (prevStyles nextStyles : list Sfc.SFCStyleBlock) (i : nat) : bool :=
  match prevStyles !! i with
  | None => true
  | Some p => negb (Sfc.isEqualBlock (Some (Sfc.block p)) (Sfc.block <$> nextStyles !! i))
  end.

(** [updateType.join(' & ')]. *)
Definition join_amp (updateType : list string) : string :=
  match updateType with
  | [] => ""
  | [a] => a
  | a :: b :: _ => a +:+ " & " +:+ b
  end.

Section WithNode.
Context `{NodeApi}.

Definition debug (text : string) : M unit := emit (Debug "vite:sfc" text).
Definition debugHmr (text : string) : M unit := emit (Debug "vite:hmr" text).

Definition report_parse_error (filePath content : string) (e : CompilerError) : M unit :=
  emit (ConsoleError (filePath +:+ ":" +:+ pretty (loc_line e) +:+ ":"
                      +:+ pretty (loc_column e))) ;;
  emit (ConsoleError (message e)) ;;
  emit (ConsoleError (generateCodeFrame content (loc_start_offset e) (loc_end_offset e)
                      +:+ Js.nl)).

(** [parseSFC], serverPluginVue.ts:293-347; [content] is a string here (a
    [Buffer] is converted first), [None] when the argument is omitted. *)
Definition parseSFC (w : World) (root filePath : string) (content : option string)
    : M (option Sfc.SFCDescriptor) :=
  let* cached := vueCache_get filePath in
  match cached ≫= descriptor with
  | Some d =>
      debug (filePath +:+ " parse cache hit") ;;
      ret (Some d)
  | None =>
      let content := if Js.truthy content then content else cachedRead w filePath in
      match content with
      | None => ret None
      | Some content =>
          let '(parsed, errors) := sfc_parse root content filePath in
          (match errors with
           | [] => ret tt
           | _ :: _ =>
               emit (ConsoleError (Js.nl +:+ "[vite] SFC parse error: ")) ;;
               forEach errors (fun _ e _ => report_parse_error filePath content e) tt
           end) ;;
          let cached := default empty_entry cached in
          let cached :=
            {| descriptor := Some parsed; template := template cached;
               script := script cached; styles := styles cached |} in
          vueCache_set filePath cached ;;
          debug (filePath +:+ " parsed") ;;
          ret (Some parsed)
      end
  end.

Section Plugin.
Variable root : string.
Variable resolver : InternalResolver.t.

Definition sendReload (filePath publicPath : string) (timestamp : Z) : M unit :=
  emit (Send (VueReload publicPath timestamp)) ;;
  emit (ConsoleLog ("[vite:hmr] " +:+ path_relative root filePath +:+ " updated. (reload)")).

(** [handleVueReload], serverPluginVue.ts:136-250. *)
Definition handleVueReload (w : World) (filePath : string) (timestamp : Z)
    (content : option string) : M unit :=
  let* publicPath := InternalResolver.fileToRequest resolver filePath in
  let* cacheEntry := vueCache_get filePath in
  debugHmr ("busting Vue cache for " +:+ filePath) ;;
  vueCache_del filePath ;;
  let* parsed := parseSFC w root filePath content in
  match parsed with
  | None => ret tt
  | Some next =>
      match cacheEntry ≫= descriptor with
      | None => debugHmr ("no existing descriptor found for " +:+ filePath)
      | Some prevDescriptor =>
          if negb (Sfc.isEqualBlock (Sfc.script next) (Sfc.script prevDescriptor))
          then sendReload filePath publicPath timestamp
          else
            let needRerender :=
              negb (Sfc.isEqualBlock (Sfc.template next) (Sfc.template prevDescriptor)) in
            let styleId := hash_sum publicPath in
            let prevStyles := Sfc.styles prevDescriptor in
            let nextStyles := Sfc.styles next in
            if existsb is_module prevStyles || existsb is_module nextStyles
            then sendReload filePath publicPath timestamp
            else
              let needRerender :=
                if negb (eqb (existsb is_scoped prevStyles) (existsb is_scoped nextStyles))
                then true else needRerender in
              let* didUpdateStyle :=
                forEach nextStyles (fun i _ didUpdateStyle =>
                  if style_changed prevStyles nextStyles i then
                    emit (Send (StyleUpdate
                                  (publicPath +:+ "?type=style&index=" +:+ pretty i)
                                  timestamp)) ;;
                    ret true
                  else ret didUpdateStyle) false in
              let* didUpdateStyle :=
                forEach (drop (length nextStyles) prevStyles) (fun i _ _ =>
                  emit (Send (StyleRemove publicPath
                                (styleId +:+ "-" +:+ pretty (i + length nextStyles))
                                timestamp)) ;;
                  ret true) didUpdateStyle in
              (if needRerender then emit (Send (VueRerender publicPath timestamp))
               else ret tt) ;;
              let updateType :=
                (if needRerender then ["template"] else [])
                ++ (if didUpdateStyle then ["style"] else []) in
              match updateType with
              | [] => ret tt
              | _ :: _ =>
                  emit (ConsoleLog ("[vite:hmr] " +:+ path_relative root filePath
                                    +:+ " updated. (" +:+ join_amp updateType +:+ ")"))
              end
      end
  end.

(** [watcher.on('change', ...)], serverPluginVue.ts:252-256; [now] is [Date.now()]. *)
Definition onChange (w : World) (now : Z) (file : string) : M unit :=
  if Js.endsWith file ".vue" then handleVueReload w file now None else ret tt.

End Plugin.
End WithNode.

End Vue.

(** ** serverPluginCss.ts *)

Module Css.

Section WithNode.
Context `{NodeApi}.

Definition debugCSS (text : string) : M unit := emit (Debug "vite:css" text).

Section Plugin.
Variable resolver : InternalResolver.t.

(** [watcher.on('change', ...)], serverPluginCss.ts:53-97; [now] is [Date.now()]. *)
Definition onChange (now : Z) (filePath : string) : M unit :=
  if Js.endsWith filePath ".css" || cssPreprocessLangRE_test filePath then
    let* publicPath := InternalResolver.fileToRequest resolver filePath in
    let* processed := gets (fun s => processedCSS s !! publicPath) in
    let* styleImport := gets (fun s => srcImportMap s !! filePath) in
    if negb (bool_decide (is_Some processed)) && negb (bool_decide (is_Some styleImport))
    then
      debugCSS (path_basename publicPath +:+ " has changed, but it is not currently in use")
    else
      match styleImport with
      | Some styleImport =>
          Vue.vueCache_del filePath ;;
          let publicPath := cleanUrl styleImport in
          let index := qs_index styleImport in
          emit (ConsoleLog ("[vite:hmr] " +:+ publicPath +:+ " updated. (style)")) ;;
          emit (Send (StyleUpdate (publicPath +:+ "?type=style&index=" +:+ index) now))
      | None =>
          if Js.endsWith filePath ".module.css" then
            emit (HandleJSReload filePath now)
          else
            modify (with_processedCSS (delete publicPath)) ;;
            emit (Send (StyleUpdate publicPath now))
      end
  else ret tt.

End Plugin.
End WithNode.

End Css.

(** ** The decision order of the HMR diff, in the words of the specification *)

Module Policy.

Section WithNode.
Context `{NodeApi}.

(** [style-update(index)], as the notification that carries it. *)
Definition style_update (publicPath : string) (timestamp : Z) (index : nat) : HMRPayload :=
  StyleUpdate (publicPath +:+ "?type=style&index=" +:+ pretty index) timestamp.

(** [style-remove(index)], as the notification that carries it. *)
Definition style_remove (publicPath : string) (timestamp : Z) (index : nat) : HMRPayload :=
  StyleRemove publicPath (hash_sum publicPath +:+ "-" +:+ pretty index) timestamp.

(** Step 6: the indices of the next list with no previous block, or a
    previous block that differs. *)
Definition updated_indices (prevStyles nextStyles : list Sfc.SFCStyleBlock) : list nat :=
  List.filter (Vue.style_changed prevStyles nextStyles) (seq 0 (length nextStyles)).

(** Step 7: the previous indices at or beyond the length of the next list. *)
Definition removed_indices (prevStyles nextStyles : list Sfc.SFCStyleBlock) : list nat :=
  seq (length nextStyles) (length prevStyles - length nextStyles).

(** Steps 3 and 5. *)
Definition needsRerender (prev next : Sfc.SFCDescriptor) : bool :=
  negb (Sfc.isEqualBlock (Sfc.template next) (Sfc.template prev))
  || negb (eqb (existsb Vue.is_scoped (Sfc.styles prev))
               (existsb Vue.is_scoped (Sfc.styles next))).

(** Steps 2 to 8 for a previous and a freshly parsed descriptor. *)
Definition diff (publicPath : string) (timestamp : Z) (prev next : Sfc.SFCDescriptor)
    : list HMRPayload :=
  if negb (Sfc.isEqualBlock (Sfc.script next) (Sfc.script prev)) then
    [VueReload publicPath timestamp]
  else if existsb Vue.is_module (Sfc.styles prev) || existsb Vue.is_module (Sfc.styles next)
  then [VueReload publicPath timestamp]
  else
    map (style_update publicPath timestamp)
        (updated_indices (Sfc.styles prev) (Sfc.styles next))
    ++ map (style_remove publicPath timestamp)
           (removed_indices (Sfc.styles prev) (Sfc.styles next))
    ++ (if needsRerender prev next then [VueRerender publicPath timestamp] else []).

End WithNode.

Definition is_style_update (p : HMRPayload) : bool :=
  match p with StyleUpdate _ _ => true | _ => false end.

Definition is_style_remove (p : HMRPayload) : bool :=
  match p with StyleRemove _ _ _ => true | _ => false end.

Definition is_style_event (p : HMRPayload) : bool :=
  is_style_update p || is_style_remove p.

(** The text that is parsed on a change event: the content handed over, or
    the file as read. *)
Definition source_text (w : World) (filePath : string) (content : option string)
    : option string :=
  if Js.truthy content then content else cachedRead w filePath.

(** The entry-point precedence of the package resolver as a list of
    candidates, first defined wins. *)
Definition only_string (v : option Json.t) : option Json.t :=
  match v with
  | Some (Json.JStr s) => Some (Json.JStr s)
  | _ => None
  end.

Definition entry_candidates (pkg : Json.t) : list (option Json.t) :=
  let exports := Json.get pkg "exports" in
  let dot := exports ≫= (fun e => Json.get e ".") in
  [ only_string exports;
    only_string dot;
    dot ≫= (fun d => Json.get d "import");
    Json.get pkg "module";
    Json.get pkg "main" ].

(** A candidate is defined when it is truthy: present, and not [null],
    [false], [0] or the empty string. *)
Fixpoint first_defined (candidates : list (option Json.t)) : option Json.t :=
  match candidates with
  | [] => Some Json.JNull
  | c :: candidates' => if Json.truthy c then c else first_defined candidates'
  end.

Definition spec_entryPoint (pkg : Json.t) : option Json.t :=
  first_defined (entry_candidates pkg).

(** An optimized artifact exists for [id]: it was found before, or the file
    [<cacheDir>/<id>] is there. *)
Definition artifact_exists `{NodeApi} (w : World) (root id : string) (s : Store) : Prop :=
  Js.truthy (viteOptimizedMap s !! id) = true
  ∨ ∃ cacheDir, resolveOptimizedCacheDir w root = Some cacheDir ∧ cacheDir ≠ ""
      ∧ existsSync w (path_join [cacheDir; id]) = true.


(** [requestToFile] and [fileToRequest] answer a repeated input with the
    answer of the first call, whatever the file system has become. *)
Definition memoized_by_input `{NodeApi} (root : string) (resolvers : list UserResolver.t)
    : Prop :=
  (∀ (w1 w2 : World) (s : Store) (input : string),
     result_of (Resolver.requestToFile root resolvers w2 input
                  (store_of (Resolver.requestToFile root resolvers w1 input s)))
     = result_of (Resolver.requestToFile root resolvers w1 input s))
  ∧ (∀ (s : Store) (input : string),
       result_of (Resolver.fileToRequest root resolvers input
                    (store_of (Resolver.fileToRequest root resolvers input s)))
       = result_of (Resolver.fileToRequest root resolvers input s)).

End Policy.

(** ** A small concrete installation, for running the model

    POSIX-style stand-ins for the Node functions, and a file system given by
    the list of its files. *)

Module Demo.

Fixpoint before_query (s : string) : string :=
  match s with
  | EmptyString => ""
  | String c s' =>
      if Ascii.eqb c "?"%char || Ascii.eqb c "#"%char then ""
      else String c (before_query s')
  end.

(** The text after the last slash of [s]; [acc] is the text since the last
    slash seen. *)
Fixpoint after_last_slash (acc s : string) : string :=
  match s with
  | EmptyString => acc
  | String c s' =>
      if Ascii.eqb c "/"%char then after_last_slash "" s'
      else after_last_slash (acc +:+ String c "") s'
  end.

Definition basename (p : string) : string := after_last_slash "" p.

Definition dirname (p : string) : string :=
  let n := String.length p - String.length (basename p) - 1 in
  if String.eqb (basename p) p then "." else substring 0 n p.

(** The segments of [s] between slashes; [acc] is the segment being read. *)
Fixpoint segments_of (acc s : string) : list string :=
  match s with
  | EmptyString => [acc]
  | String c s' =>
      if Ascii.eqb c "/"%char then acc :: segments_of "" s'
      else segments_of (acc +:+ String c "") s'
  end.

(** Drop empty and [.] segments, and let [..] cancel the segment before it. *)
Definition normalize (segments : list string) : list string :=
  fold_left (fun kept seg =>
               if String.eqb seg "" || String.eqb seg "." then kept
               else if String.eqb seg ".." then removelast kept
               else kept ++ [seg]) segments [].

Definition join (segments : list string) : string :=
  let joined := String.concat "/" segments in
  let body := String.concat "/" (normalize (segments_of "" joined)) in
  if Js.startsWith joined "/" then "/" +:+ body
  else if String.eqb body "" then "." else body.

Definition relative (from to : string) : string :=
  if Js.startsWith to (from +:+ "/")
  then Js.slice_from (String.length from + 1) to
  else to.

Definition strip_modules (publicPath : string) : option string :=
  if Js.startsWith publicPath "/@modules/" then Some (Js.slice_from 10 publicPath)
  else None.

(** A compiler stand-in that returns [parsed] for whatever it is given. *)
Definition api (parsed : Sfc.SFCDescriptor) : NodeApi :=
  {| path_join := join;
     path_posix_join := fun a b => join [a; b];
     path_dirname := dirname;
     path_extname := fun _ => "";
     path_basename := basename;
     path_relative := relative;
     slash := fun p => p;
     hash_sum := fun p => "h" +:+ pretty (String.length p);
     cleanUrl := before_query;
     queryRE_test := fun id => bool_decide (is_Some (Resolver.match_query id));
     moduleRE_strip := strip_modules;
     cssPreprocessLangRE_test :=
       fun p => existsb (Js.endsWith p) [".less"; ".sass"; ".scss"; ".styl"; ".stylus"];
     qs_index := fun _ => "0";
     sfc_parse := fun _ _ _ => (parsed, []);
     generateCodeFrame := fun _ _ _ => "" |}.

Fixpoint assoc {V} (table : list (string * V)) (key : string) : option V :=
  match table with
  | [] => None
  | (k, v) :: table' => if String.eqb k key then Some v else assoc table' key
  end.

(** The file system with exactly the files of [files] (path and content),
    the manifests of [manifests] (path of the package.json and its parsed
    content), and the optimized cache directory [cacheDir]. *)
Definition world (files : list (string * string)) (manifests : list (string * Json.t))
    (cacheDir : option string) : World :=
  let present p := bool_decide (is_Some (assoc files p))
                   || bool_decide (is_Some (assoc manifests p)) in
  {| existsSync := present;
     stat_isFile := present;
     resolveFrom := fun root id =>
       let p := root +:+ "/node_modules/" +:+ id in
       if present p then Some p else None;
     readManifest := assoc manifests;
     resolveOptimizedCacheDir := fun _ => cacheDir;
     cachedRead := assoc files |}.

Definition empty_store : Store :=
  mkStore ∅ ∅ ∅ ∅ ∅ [] ∅ ∅.

Definition plain_block (text : string) : Sfc.SFCBlock :=
  Sfc.mkBlock text [] None None.

Definition plain_style (text : string) : Sfc.SFCStyleBlock :=
  Sfc.mkStyle (plain_block text) None None.

Definition module_style (text : string) : Sfc.SFCStyleBlock :=
  Sfc.mkStyle (Sfc.mkBlock text [("module", Sfc.ATrue)] None None) None (Some Sfc.ATrue).

(** A store whose SFC cache holds [prev] as the descriptor of [filePath]. *)
Definition store_with (filePath : string) (prev : Sfc.SFCDescriptor) : Store :=
  mkStore ∅ ∅ ∅ ∅ ∅
    [(filePath,
      {| descriptor := Some prev; template := Some "render"; script := Some "main";
         styles := [] |})] ∅ ∅.

(** One component file. *)
Definition app_vue : string := "/r/src/App.vue".

Definition descriptor_of (script : string) (styles : list Sfc.SFCStyleBlock)
    : Sfc.SFCDescriptor :=
  Sfc.mkDescriptor app_vue None (Some (plain_block script)) styles.

Definition disk (text : string) : World := world [(app_vue, text)] [] None.

(** The installation as the resolver sees it; the compiler is not called. *)
Definition plain_api : NodeApi := api (Sfc.mkDescriptor "" None None []).

Definition cacheDir : string := "/r/node_modules/.vite_opt_cache".

Definition foo_manifest : Json.t :=
  Json.JObj [("exports", Json.JObj [(".", Json.JObj [("import", Json.JStr "./a.js")])]);
             ("main", Json.JStr "./b.js")].

(** The package [foo] is installed, with both entry files. *)
Definition installed : World :=
  world [("/r/node_modules/foo/a.js", "export default 1");
         ("/r/node_modules/foo/b.js", "module.exports = 1")]
        [("/r/node_modules/foo/package.json", foo_manifest)] None.

(** The package [foo] is installed and also pre-bundled. *)
Definition installed_and_optimized : World :=
  world [("/r/node_modules/foo/a.js", "export default 1");
         ("/r/node_modules/foo/b.js", "module.exports = 1");
         ("/r/node_modules/.vite_opt_cache/foo", "bundled")]
        [("/r/node_modules/foo/package.json", foo_manifest)] (Some cacheDir).

(** Nothing is installed, and there is no cache directory. *)
Definition bare : World := world [] [] None.

(** The package [x] is installed with the entry [y], which has no file. *)
Definition x_installed : World :=
  world [] [("/r/node_modules/x/package.json", Json.JObj [("main", Json.JStr "y")])] None.

(** The file system of the first and of the second request for [/logo.png]. *)
Definition before : World := world [("/r/logo.png", "png")] [] None.
Definition after : World :=
  world [("/r/logo.png", "png"); ("/r/public/logo.png", "new")] [] None.

End Demo.

(** ** Serving: the template slot of the SFC cache, and stylesheets

    [compileSFCTemplate] of serverPluginVue.ts and the request middleware of
    serverPluginCss.ts with [processCss]. *)

(** A source map, as far as the server reads it. *)
Record RawSourceMap : Type := {
  sourcesContent : option (list string);
  mappings : string
}.

(** [SFCTemplateBlock]: a block with the source map the parser attached. *)
Record SFCTemplateBlock : Type := {
  template_block :> Sfc.SFCBlock;
  template_map : option RawSourceMap
}.

(** An element of [errors] of a template compilation: [string | CompilerError]. *)
Inductive TemplateError : Type :=
  | ErrorText (text : string)
  | ErrorAt (e : CompilerError).

(** The argument of [compileTemplate]; [userOptions] is the server
    configuration's [vueCompilerOptions], which the call spreads under
    [scopeId] and [runtimeModuleName]; [requireRoot] is the root that
    [preprocessCustomRequire] resolves from. *)
Record TemplateOptions (UserOptions : Type) : Type := {
  source : string;
  filename : string;
  inMap : option RawSourceMap;
  transformAssetUrls_base : string;
  userOptions : option UserOptions;
  scopeId : option string;
  runtimeModuleName : string;
  preprocessLang : option string;
  requireRoot : string
}.
Arguments source {UserOptions} _.
Arguments filename {UserOptions} _.
Arguments inMap {UserOptions} _.
Arguments transformAssetUrls_base {UserOptions} _.
Arguments userOptions {UserOptions} _.
Arguments scopeId {UserOptions} _.
Arguments runtimeModuleName {UserOptions} _.
Arguments preprocessLang {UserOptions} _.
Arguments requireRoot {UserOptions} _.

Record TemplateResult : Type := {
  result_code : string;
  result_map : option RawSourceMap;
  result_errors : list TemplateError
}.

(** An element of [errors] of a style compilation: a text, or an error
    object with its message and, where it has them, its line and column. *)
Inductive StyleError : Type :=
  | StyleErrorText (text : string)
  | StyleErrorAt (message : string) (line column : option nat).

(** [SFCStyleBlock] with what the parser attaches to it besides: the source
    map, and the line of the file where the block starts ([loc.start.line]). *)
Record SFCStyleSource : Type := {
  style_block :> Sfc.SFCStyleBlock;
  style_map : option RawSourceMap;
  style_start_line : nat
}.

(** The argument of [compileCss]. *)
Record CssOptions : Type := {
  css_id : string;
  css_source : string;
  css_filename : string;
  css_scoped : bool;
  css_as_modules : bool;
  css_preprocessLang : option string
}.

(** What [compileCss] resolves to: the unprocessed text, or a compilation. *)
Inductive CssCompiled : Type :=
  | CssText (text : string)
  | CssResult (code : string) (modules : option (list (string * string)))
              (errors : list StyleError).

(** What the serving code takes from the SFC compiler and from [utils]. *)
Class ServeApi : Type := {
  (** the type of [CompilerOptions] *)
  UserOptions : Type;
  (** [resolveCompiler(root).compileTemplate(options)] *)
  compileTemplate : string → TemplateOptions UserOptions → TemplateResult;
  (** [genSourceMapString] of [utils] *)
  genSourceMapString : option RawSourceMap → string;
  (** [path.posix.dirname] *)
  path_posix_dirname : string → string;
  (** [compileCss(root, publicPath, options)] of [utils/cssUtils] *)
  compileCss : string → string → CssOptions → CssCompiled;
  (** [rewriteCssUrls(css, publicPath)] of [utils/cssUtils] *)
  rewriteCssUrls : string → string → string;
  (** [codegenCss(id, css, modules)] of [utils/cssUtils] *)
  codegenCss : string → string → option (list (string * string)) → string;
  (** [JSON.stringify] of a string *)
  json_stringify : string → string;
  (** [publicPath.replace(cssPreprocessLangRE, '$2')] *)
  preprocessLang_of : string → string;
  (** what [console.error(error, index, errors)] prints, the call that
      [errors.forEach(console.error)] makes for each error *)
  console_error_each : StyleError → nat → list StyleError → string;
  (** [e.message.replace(filePathRE, '')], for the pattern that
      [compileSFCStyle] builds from the base name of the file *)
  clean_message : string → string → string;
  (** [(await transform(content, publicPath, { loader: 'ts' })).code] *)
  transform_ts : string → string → string;
  (** [content.replace(defaultExportRE, '$1const __script =')] *)
  replace_defaultExport : string → string;
  (** [defaultExportRE.test] *)
  defaultExportRE_test : string → bool;
  (** [rewriteDefaultExport], serverPluginVue.ts:566-575, which parses the
      code with Babel; [None] when the parser throws *)
  rewriteDefaultExport : string → option string;
  (** [hmrClientPublicPath] of [serverPluginHmr] *)
  hmrClientPublicPath : string
}.

Module VueServe.

Section WithNode.
Context `{NodeApi} `{ServeApi}.

(** The body of [errors.forEach] in [compileSFCTemplate]; without a source
    map, or with one that holds no source, reading [sourcesContent[0]] or
    framing an undefined source raises. *)
Definition report_template_error (filePath : string) (template : SFCTemplateBlock)
    (e : TemplateError) : M unit :=
  match e with
  | ErrorText text => emit (ConsoleError text)
  | ErrorAt e =>
      emit (ConsoleError (filePath +:+ ":" +:+ pretty (loc_line e) +:+ ":"
                          +:+ pretty (loc_column e))) ;;
      emit (ConsoleError (message e)) ;;
      match template_map template ≫= sourcesContent with
      | Some (original :: _) =>
          emit (ConsoleError (generateCodeFrame original (loc_start_offset e)
                                (loc_end_offset e) +:+ Js.nl))
      | _ => throw "TypeError: Cannot read property of undefined"
      end
  end.

(** [compileSFCTemplate], serverPluginVue.ts:430-490; [block] is its
    parameter [template]. *)
Definition compileSFCTemplate (root : string) (block : SFCTemplateBlock)
    (filePath publicPath : string) (scoped : bool) (userOptions : option UserOptions)
    : M string :=
  let* cached := Vue.vueCache_get filePath in
  if Js.truthy (cached ≫= template) then
    Vue.debug (publicPath +:+ " template cache hit") ;;
    ret (default "" (cached ≫= template))
  else
    let compiled :=
      compileTemplate root
        {| source := Sfc.content block;
           filename := filePath;
           inMap := template_map block;
           transformAssetUrls_base := path_posix_dirname publicPath;
           userOptions := userOptions;
           scopeId := if scoped then Some ("data-v-" +:+ hash_sum publicPath) else None;
           runtimeModuleName := "/@modules/vue";
           preprocessLang := Sfc.lang block;
           requireRoot := root |} in
    (match result_errors compiled with
     | [] => ret tt
     | _ :: _ =>
         emit (ConsoleError (Js.nl +:+ "[vite] SFC template compilation error: ")) ;;
         forEach (result_errors compiled)
           (fun _ e _ => report_template_error filePath block e) tt
     end) ;;
    let finalCode := result_code compiled +:+ genSourceMapString (result_map compiled) in
    let cached := default Vue.empty_entry cached in
    let cached :=
      {| descriptor := descriptor cached; template := Some finalCode;
         script := script cached; styles := styles cached |} in
    Vue.vueCache_set filePath cached ;;
    Vue.debug (publicPath +:+ " template compiled") ;;
    ret finalCode.

(** The compilation that [compileSFCTemplate] asks for. *)
Definition compilation (root : string) (block : SFCTemplateBlock)
    (filePath publicPath : string) (scoped : bool) (userOptions : option UserOptions)
    : TemplateResult :=
  compileTemplate root
    {| source := Sfc.content block;
       filename := filePath;
       inMap := template_map block;
       transformAssetUrls_base := path_posix_dirname publicPath;
       userOptions := userOptions;
       scopeId := if scoped then Some ("data-v-" +:+ hash_sum publicPath) else None;
       runtimeModuleName := "/@modules/vue";
       preprocessLang := Sfc.lang block;
       requireRoot := root |}.

(** The code that is returned and cached for a compilation. *)
Definition finalCode (compiled : TemplateResult) : string :=
  result_code compiled +:+ genSourceMapString (result_map compiled).

End WithNode.

(** A diagnostic that can be printed: a text, or a located error of a block
    whose source map holds the source. *)
Definition printable (block : SFCTemplateBlock) (e : TemplateError) : Prop :=
  match e with
  | ErrorText _ => True
  | ErrorAt _ => ∃ original rest,
      template_map block ≫= sourcesContent = Some (original :: rest)
  end.

(** A cache entry with its template slot filled. *)
Definition with_template (code : string) (e : CacheEntry) : CacheEntry :=
  {| descriptor := descriptor e; template := Some code;
     script := script e; styles := styles e |}.

(** *** Style blocks *)

(** A number as a condition: defined and not zero. *)
Definition number_truthy (n : option nat) : bool :=
  match n with
  | Some (S _) => true
  | _ => false
  end.

Definition lf : ascii := Ascii.ascii_of_nat 10.
Definition cr : ascii := Ascii.ascii_of_nat 13.

(** [text.split(/\n/g).length === 1], negated: the text has a line feed. *)
Fixpoint has_newline (text : string) : bool :=
  match text with
  | EmptyString => false
  | String c text' => Ascii.eqb c lf || has_newline text'
  end.

(** [text.split(/\r?\n/g)]; [acc] is the line being read. *)
Fixpoint split_lines (acc text : string) : list string :=
  match text with
  | EmptyString => [acc]
  | String c text' =>
      if Ascii.eqb c lf then acc :: split_lines "" text'
      else
        match text' with
        | String c' text'' =>
            if Ascii.eqb c cr && Ascii.eqb c' lf then acc :: split_lines "" text''
            else split_lines (acc +:+ String c "") text'
        | EmptyString => [acc +:+ String c ""]
        end
  end.

(** [xs.slice(0, stop)]: a negative [stop] counts from the end. *)
Definition slice_to {A} (stop : Z) (xs : list A) : list A :=
  if (0 <=? stop)%Z then take (Z.to_nat stop) xs
  else take (length xs - Z.to_nat (- stop)) xs.

(** The offset of line [line + lineOffset], column [column] in [original]:
    the lengths of the lines before it, each with its line feed, and the
    column counted from 1. *)
Definition frame_offset (original : string) (line : nat) (lineOffset : Z) (column : nat)
    : nat :=
  let before := slice_to (Z.of_nat line + lineOffset - 1)%Z (split_lines "" original) in
  fold_left (fun total l => total + l + 1) (map String.length before) 0 + column - 1.

(** [styles[index] = result] on a JS array: beyond the end, the array grows
    and the indices in between are holes. *)
Definition set_index {A} (xs : list (option A)) (index : nat) (v : A) : list (option A) :=
  if (index <? length xs)%nat then <[index := Some v]> xs
  else xs ++ replicate (index - length xs) None ++ [Some v].

(** [styles[index]]; a hole and an index beyond the end both read [undefined]. *)
Definition slot {A} (xs : list (option A)) (index : nat) : option A :=
  mjoin (xs !! index).

(** A cache entry with one of its style slots filled. *)
Definition with_style (index : nat) (result : SFCStyleCompileResults) (e : CacheEntry)
    : CacheEntry :=
  {| descriptor := descriptor e; template := template e;
     script := script e; styles := set_index (styles e) index result |}.

(** A cache entry with its script slot filled. *)
Definition with_script (code : string) (e : CacheEntry) : CacheEntry :=
  {| descriptor := descriptor e; template := template e;
     script := Some code; styles := styles e |}.

(** [s.module] as a condition, and the name it binds: [typeof s.module ===
    'string' ? s.module : '$style']. *)
Definition attr_truthy (v : option Sfc.AttrVal) : bool :=
  match v with
  | Some Sfc.ATrue => true
  | Some (Sfc.AStr text) => negb (String.eqb text "")
  | None => false
  end.

Definition module_name (v : option Sfc.AttrVal) : string :=
  match v with
  | Some (Sfc.AStr name) => name
  | _ => "$style"
  end.

Section Compile.
Context `{NodeApi} `{ServeApi}.

(** The body of [result.errors.forEach] in [compileSFCStyle]. *)
Definition report_style_error (filePath : string) (style : SFCStyleSource)
    (e : StyleError) : M unit :=
  match e with
  | StyleErrorText text => emit (ConsoleError text)
  | StyleErrorAt message line column =>
      let lineOffset := (Z.of_nat (style_start_line style) - 1)%Z in
      let located := number_truthy line && number_truthy column in
      (if located then
         emit (ConsoleLog (filePath +:+ ":"
                           +:+ pretty (Z.of_nat (default 0%nat line) + lineOffset)%Z +:+ ":"
                           +:+ pretty (default 0 column)))
       else emit (ConsoleLog filePath)) ;;
      let cleanMsg := clean_message (path_basename filePath) message in
      emit (ConsoleError cleanMsg) ;;
      if located && negb (has_newline cleanMsg) then
        match style_map style ≫= sourcesContent with
        | Some (original :: _) =>
            let offset := frame_offset original (default 0 line) lineOffset
                            (default 0 column) in
            emit (ConsoleError (generateCodeFrame original offset (offset + 1)))
        | _ => throw "TypeError: Cannot read property of undefined"
        end
      else ret tt
  end.

(** [compileSFCStyle], serverPluginVue.ts:492-564, for an [index] that is a
    natural number, as in the requests that the main module makes.  The
    result of [compileCss] is cast, not checked: on a plain text, reading
    [errors.length] raises. *)
Definition compileSFCStyle (root : string) (style : SFCStyleSource) (index : nat)
    (filePath publicPath : string) : M SFCStyleCompileResults :=
  let* cached := Vue.vueCache_get filePath in
  match cached ≫= (fun entry => slot (styles entry) index) with
  | Some cachedEntry =>
      Vue.debug (publicPath +:+ " style cache hit") ;;
      ret cachedEntry
  | None =>
      let result :=
        compileCss root publicPath
          {| css_id := ""; css_source := Sfc.content (Sfc.block style);
             css_filename := filePath;
             css_scoped := bool_decide (is_Some (Sfc.scoped style));
             css_as_modules := Vue.is_module style;
             css_preprocessLang := Sfc.lang (Sfc.block style) |} in
      match result with
      | CssText _ => throw "TypeError: Cannot read property 'length' of undefined"
      | CssResult code modules errors =>
          (match errors with
           | [] => ret tt
           | _ :: _ =>
               emit (ConsoleError (Js.nl +:+ "[vite] SFC style compilation error: ")) ;;
               forEach errors (fun _ e _ => report_style_error filePath style e) tt
           end) ;;
          let result := {| code := rewriteCssUrls code publicPath; modules := modules |} in
          let cached := default Vue.empty_entry cached in
          let cached :=
            {| descriptor := descriptor cached; template := template cached;
               script := script cached;
               styles := set_index (styles cached) index result |} in
          Vue.vueCache_set filePath cached ;;
          Vue.debug (publicPath +:+ " style compiled") ;;
          ret result
      end
  end.

(** The body of [descriptor.styles.forEach] in [compileSFCMain]; the locals
    are [code], [hasScoped] and [hasCSSModules]. *)
Definition import_style (publicPath : string) (i : nat) (s : Sfc.SFCStyleBlock)
    (locals : string * bool * bool) : string * bool * bool :=
  let '(code, hasScoped, hasCSSModules) := locals in
  let styleRequest := publicPath +:+ "?type=style&index=" +:+ pretty i in
  let hasScoped := if Vue.is_scoped s then true else hasScoped in
  if attr_truthy (Sfc.module s) then
    let code :=
      if negb hasCSSModules
      then code +:+ Js.nl +:+ "const __cssModules = __script.__cssModules = {}"
      else code in
    let styleVar := "__style" +:+ pretty i in
    let code := code +:+ Js.nl +:+ "import " +:+ styleVar +:+ " from "
                +:+ json_stringify (styleRequest +:+ "&module") in
    let code := code +:+ Js.nl +:+ "__cssModules["
                +:+ json_stringify (module_name (Sfc.module s)) +:+ "] = " +:+ styleVar in
    (code, hasScoped, true)
  else
    (code +:+ Js.nl +:+ "import " +:+ json_stringify styleRequest, hasScoped, hasCSSModules).

(** The script of the main module, serverPluginVue.ts:362-380: [code] after
    the first conditional of [compileSFCMain]. *)
Definition script_code (sfc : Sfc.SFCDescriptor) (publicPath : string) : M string :=
  let code := "" in
  match Sfc.script sfc with
  | Some block =>
      let content := Sfc.content block in
      let content :=
        if bool_decide (Sfc.lang block = Some "ts")
        then transform_ts content publicPath else content in
      let replaced := replace_defaultExport content in
      let* replaced :=
        if defaultExportRE_test replaced then
          match rewriteDefaultExport content with
          | Some rewritten => ret rewritten
          | None => throw "SyntaxError"
          end
        else ret replaced in
      ret (code +:+ replaced)
  | None => ret (code +:+ "const __script = {}")
  end.

(** [compileSFCMain], serverPluginVue.ts:351-428; [sfc] is its parameter
    [descriptor], and [scriptMap] is [descriptor.script.map], which the
    descriptor record leaves out.  [descriptor.styles] is an array, which is
    true as a condition also when it is empty. *)
Definition compileSFCMain (sfc : Sfc.SFCDescriptor)
    (scriptMap : option RawSourceMap) (filePath publicPath : string) : M string :=
  let* cached := Vue.vueCache_get filePath in
  if Js.truthy (cached ≫= script) then ret (default "" (cached ≫= script))
  else
    let id := hash_sum publicPath in
    let* code := script_code sfc publicPath in
    let code := code +:+ Js.nl +:+ "import { updateStyle } from " +:+ Js.dquote
                +:+ hmrClientPublicPath +:+ Js.dquote +:+ Js.nl in
    let* locals :=
      forEach (Sfc.styles sfc)
        (fun i s locals => ret (import_style publicPath i s locals))
        (code, false, false) in
    let '(code, hasScoped, _) := locals in
    let code :=
      if hasScoped
      then code +:+ Js.nl +:+ "__script.__scopeId = " +:+ Js.dquote +:+ "data-v-" +:+ id
           +:+ Js.dquote
      else code in
    let code :=
      match Sfc.template sfc with
      | Some _ =>
          let templateRequest := publicPath +:+ "?type=template" in
          code +:+ Js.nl +:+ "import { render as __render } from "
          +:+ json_stringify templateRequest
          +:+ Js.nl +:+ "__script.render = __render"
      | None => code
      end in
    let code := code +:+ Js.nl +:+ "__script.__hmrId = " +:+ json_stringify publicPath in
    let code := code +:+ Js.nl +:+ "__script.__file = " +:+ json_stringify filePath in
    let code := code +:+ Js.nl +:+ "export default __script" in
    let code :=
      match Sfc.script sfc with
      | Some _ => code +:+ genSourceMapString scriptMap
      | None => code
      end in
    let cached := default Vue.empty_entry cached in
    let cached :=
      {| descriptor := descriptor cached; template := template cached;
         script := Some code; styles := styles cached |} in
    Vue.vueCache_set filePath cached ;;
    ret code.

End Compile.

(** A style diagnostic that can be printed without the source map, or whose
    block carries the source. *)
Definition style_printable `{ServeApi} `{NodeApi} (filePath : string)
    (style : SFCStyleSource) (e : StyleError) : Prop :=
  match e with
  | StyleErrorText _ => True
  | StyleErrorAt message line column =>
      number_truthy line && number_truthy column
      && negb (has_newline (clean_message (path_basename filePath) message)) = true →
      ∃ original rest, style_map style ≫= sourcesContent = Some (original :: rest)
  end.

(** The compilation that [compileSFCStyle] asks for. *)
Definition style_compilation `{ServeApi} (root : string) (style : SFCStyleSource)
    (filePath publicPath : string) : CssCompiled :=
  compileCss root publicPath
    {| css_id := ""; css_source := Sfc.content (Sfc.block style);
       css_filename := filePath;
       css_scoped := bool_decide (is_Some (Sfc.scoped style));
       css_as_modules := Vue.is_module style;
       css_preprocessLang := Sfc.lang (Sfc.block style) |}.

(** The style slot [index] of the cache entry of [filePath]. *)
Definition style_slot (c : Lru.t CacheEntry) (filePath : string) (index : nat)
    : option SFCStyleCompileResults :=
  Lru.peek c filePath ≫= fun entry => slot (styles entry) index.

(** [code] has an import statement for [request]. *)
Definition imports `{ServeApi} (code request : string) : Prop :=
  ∃ before after,
    code = before +:+ Js.nl +:+ "import " +:+ json_stringify request +:+ after.

(** The script of [sfc] can be rewritten: the replacement leaves no default
    export behind, or the parser accepts the code. *)
Definition rewritable `{ServeApi} (sfc : Sfc.SFCDescriptor) (publicPath : string) : Prop :=
  match Sfc.script sfc with
  | Some block =>
      let content :=
        if bool_decide (Sfc.lang block = Some "ts")
        then transform_ts (Sfc.content block) publicPath else Sfc.content block in
      defaultExportRE_test (replace_defaultExport content) = true →
      is_Some (rewriteDefaultExport content)
  | None => True
  end.

End VueServe.

Module CssServe.

(** [ctx.body]: a string, or a stream or buffer with the text it holds. *)
Inductive Body : Type :=
  | BodyString (text : string)
  | BodyStream (content : string).

(** The request context, as far as the middleware reads and writes it;
    [response_is_css] is [ctx.response.is('css')] and [import_request] is
    [isImportRequest(ctx)], both as they are when the middleware runs. *)
Record Ctx : Type := {
  ctx_path : string;
  ctx_body : option Body;
  ctx_type : string;
  response_is_css : bool;
  import_request : bool
}.

(** [ctx.body] as a condition. *)
Definition body_truthy (b : option Body) : bool :=
  match b with
  | None => false
  | Some (BodyString text) => negb (String.eqb text "")
  | Some (BodyStream _) => true
  end.

(** [readBody] of [utils]; [None] is [null]. *)
Definition readBody (b : option Body) : option string :=
  match b with
  | None => None
  | Some (BodyString text) => Some text
  | Some (BodyStream content) => Some content
  end.

Definition respond (ctx : Ctx) (type body : string) : Ctx :=
  {| ctx_path := ctx_path ctx; ctx_body := Some (BodyString body); ctx_type := type;
     response_is_css := response_is_css ctx; import_request := import_request ctx |}.

Section WithNode.
Context `{NodeApi} `{ServeApi}.

Section Plugin.
Variable root : string.
Variable resolver : InternalResolver.t.

(** [processCss], serverPluginCss.ts:99-127.  [readBody] gives [null] for a
    missing body only, which the one caller has excluded. *)
Definition processCss (w : World) (ctx : Ctx) : M unit :=
  let css := default "" (readBody (ctx_body ctx)) in
  let* filename := InternalResolver.requestToFile resolver w (ctx_path ctx) in
  let result :=
    compileCss root (ctx_path ctx)
      {| css_id := ""; css_source := css; css_filename := filename;
         css_scoped := false;
         css_as_modules := Js.endsWith (ctx_path ctx) ".module.css";
         css_preprocessLang := Some (preprocessLang_of (ctx_path ctx)) |} in
  match result with
  | CssText _ =>
      modify (with_processedCSS
                (insert (ctx_path ctx) {| css := css; css_modules := None |}))
  | CssResult code modules errors =>
      (match errors with
       | [] => ret tt
       | _ :: _ =>
           emit (ConsoleError "[vite] error applying css transforms: ") ;;
           forEach errors
             (fun i e _ => emit (ConsoleError (console_error_each e i errors))) tt
       end) ;;
      let code := rewriteCssUrls code (ctx_path ctx) in
      modify (with_processedCSS
                (insert (ctx_path ctx) {| css := code; css_modules := modules |}))
  end.

(** The middleware after [await next()], serverPluginCss.ts:26-51: the
    context it leaves. *)
Definition serve (w : World) (ctx : Ctx) : M Ctx :=
  if (cssPreprocessLangRE_test (ctx_path ctx) || response_is_css ctx)
     && body_truthy (ctx_body ctx)
  then
    let id := json_stringify (hash_sum (ctx_path ctx)) in
    if import_request ctx then
      processCss w ctx ;;
      let* processed := gets (fun s => processedCSS s !! ctx_path ctx) in
      match processed with
      | Some entry => ret (respond ctx "js" (codegenCss id (css entry) (css_modules entry)))
      | None => throw "TypeError: Cannot destructure property of undefined"
      end
    else
      let* processed := gets (fun s => processedCSS s !! ctx_path ctx) in
      (if negb (bool_decide (is_Some processed)) then processCss w ctx else ret tt) ;;
      let* processed := gets (fun s => processedCSS s !! ctx_path ctx) in
      match processed with
      | Some entry => ret (respond ctx "css" (css entry))
      | None => throw "TypeError: Cannot read property of undefined"
      end
  else ret ctx.

End Plugin.
End WithNode.

End CssServe.

(** ** Vocabulary of the cache and resolution properties *)

Module Views.

(** What the outputs hand to [watcher.handleJSReload]: the file and the
    timestamp of each call. *)
Definition handed_over (out : list Output) : list (string * Z) :=
  omap (fun o => match o with HandleJSReload f t => Some (f, t) | _ => None end) out.

(** The cache after a change event of [filePath] whose text did not parse:
    the entry is deleted. *)
Definition busted (filePath : string) (c : Lru.t CacheEntry) : Lru.t CacheEntry :=
  Lru.del filePath (Lru.get c filePath).2.

Section WithNode.
Context `{NodeApi}.

(** Neither [cleanId + ext] nor [cleanId/index + ext] is a file. *)
Definition no_candidate (w : World) (cleanId ext : string) : Prop :=
  Resolver.isFile w (cleanId +:+ ext) = false
  ∧ Resolver.isFile w (path_join [cleanId; "/index" +:+ ext]) = false.

(** The answer of one custom resolver's method, [undefined] without the method. *)
Definition answer (method : UserResolver.t → option (string → string → option string))
    (r : UserResolver.t) (arg root : string) : option string :=
  match method r with Some f => f arg root | None => None end.

(** The manifest of [id] as [resolveNodeModule] finds it: the path that
    [resolveFrom] gives for [id/package.json] and the parsed content. *)
Definition manifest_at (w : World) (root id : string) : option (string * Json.t) :=
  let pkgPath := resolveFrom w root (id +:+ "/package.json") in
  if Js.truthy pkgPath then
    match readManifest w (default "" pkgPath) with
    | Some pkg => Some (default "" pkgPath, pkg)
    | None => None
    end
  else None.

(** What a first resolution of a package with a readable manifest does. *)
Inductive fresh_outcome (id : string) (pkg : Json.t) (s : Store)
    : Result (option NodeModuleInfo) * Store * list Output → Prop :=
  | fresh_raises e out :
      (pkg = Json.JNull
       ∨ (Json.truthy (Resolver.select_entryPoint pkg) = true
          ∧ ∀ t, Resolver.select_entryPoint pkg ≠ Some (Json.JStr t))) →
      fresh_outcome id pkg s (Throw e, s, out)
  | fresh_no_entry out :
      Json.truthy (Resolver.select_entryPoint pkg) = false →
      let info := {| entry := None; entryFilePath := None; pkg := pkg |} in
      fresh_outcome id pkg s
        (Ok (Some info), with_nodeModulesInfoMap (insert id info) s, out)
  | fresh_entry e f out :
      (∃ t, Resolver.select_entryPoint pkg = Some (Json.JStr t)) →
      (path_join_nonempty → f ≠ "") →
      let info := {| entry := Some e; entryFilePath := Some f; pkg := pkg |} in
      fresh_outcome id pkg s
        (Ok (Some info),
         with_nodeModulesInfoMap (insert id info)
           (with_nodeModulesFileMap (insert e f) s), out).

(** The branch of [resolveBareModuleRequest] for an identifier that is
    neither pre-bundled nor a package. *)
Definition by_extension (id : string) : string :=
  let ext := path_extname id in
  if String.eqb ext "" || Resolver.jsSrcRE_test ext then id
  else id +:+ (if queryRE_test id then "&import" else "?import").

End WithNode.

End Views.

(** ** Vocabulary of the serving properties *)

Module Serving.

Section WithNode.
Context `{NodeApi} `{ServeApi}.

(** The condition under which the stylesheet middleware touches a response,
    serverPluginCss.ts:29-33. *)
Definition handled (ctx : CssServe.Ctx) : bool :=
  (cssPreprocessLangRE_test (CssServe.ctx_path ctx) || CssServe.response_is_css ctx)
  && CssServe.body_truthy (CssServe.ctx_body ctx).

(** The entry that [processCss] stores for a path whose body holds [text]
    and that the resolver maps to [filename], serverPluginCss.ts:102-126. *)
Definition processed_entry (root path text filename : string) : ProcessedEntry :=
  match compileCss root path
          {| css_id := ""; css_source := text; css_filename := filename;
             css_scoped := false;
             css_as_modules := Js.endsWith path ".module.css";
             css_preprocessLang := Some (preprocessLang_of path) |} with
  | CssText _ => {| css := text; css_modules := None |}
  | CssResult code modules _ =>
      {| css := rewriteCssUrls code path; css_modules := modules |}
  end.

End WithNode.

(** The text of a body the middleware handles. *)
Definition body_text (ctx : CssServe.Ctx) : string :=
  default "" (CssServe.readBody (CssServe.ctx_body ctx)).

(** Two stores that differ at most in the memo tables of the module
    resolution: [idToFileMap], [viteOptimizedMap] and [nodeModulesFileMap]. *)
Definition resolution_only (s s1 : Store) : Prop :=
  processedCSS s1 = processedCSS s
  ∧ srcImportMap s1 = srcImportMap s
  ∧ vueCache s1 = vueCache s
  ∧ fileToRequestMap s1 = fileToRequestMap s
  ∧ nodeModulesInfoMap s1 = nodeModulesInfoMap s.

End Serving.

(** ** Stand-ins for the compilers, for runs on concrete requests *)

Module DemoServe.

(** The located diagnostic of the template stand-in. *)
Definition unclosed : CompilerError :=
  {| message := "Element is missing end tag."; loc_line := 1; loc_column := 1;
     loc_start_offset := 0; loc_end_offset := 3 |}.

(** A template compiler that wraps the source and complains about [<p>];
    a CSS compiler that processes CSS modules only. *)
Definition serve_api : ServeApi :=
  {| UserOptions := unit;
     compileTemplate := fun _ o =>
       {| result_code := "render(" +:+ source o +:+ ")";
          result_map := inMap o;
          result_errors :=
            if String.eqb (source o) "<p>"
            then [ErrorText "1 error"; ErrorAt unclosed] else [] |};
     genSourceMapString := fun m =>
       match m with Some _ => "//# sourceMappingURL" | None => "" end;
     path_posix_dirname := Demo.dirname;
     compileCss := fun _ _ o =>
       if css_as_modules o
       then CssResult (css_source o) (Some [])
              (if css_scoped o then [StyleErrorText "scoped CSS module"] else [])
       else CssText (css_source o);
     rewriteCssUrls := fun code _ => code;
     codegenCss := fun id text _ => "updateStyle(" +:+ id +:+ ", " +:+ text +:+ ")";
     json_stringify := fun text => Js.dquote +:+ text +:+ Js.dquote;
     preprocessLang_of := fun path => path;
     console_error_each := fun e _ _ =>
       match e with StyleErrorText text => text | StyleErrorAt message _ _ => message end;
     clean_message := fun _ message => message;
     transform_ts := fun content _ => content;
     replace_defaultExport := fun content =>
       if Js.startsWith content "export default"
       then "const __script =" +:+ Js.slice_from 14 content else content;
     defaultExportRE_test := fun content => Js.startsWith content "export default";
     rewriteDefaultExport := fun _ => None;
     hmrClientPublicPath := "/vite/hmr" |}.

Definition template_of (text : string) : SFCTemplateBlock :=
  {| template_block := Demo.plain_block text; template_map := None |}.

(** A scoped CSS-module style block that starts at line 10 of its file. *)
Definition card_style : SFCStyleSource :=
  {| style_block :=
       Sfc.mkStyle (Sfc.mkBlock ".card { }" [("module", Sfc.ATrue); ("scoped", Sfc.ATrue)]
                      None None) (Some true) (Some Sfc.ATrue);
     style_map := None; style_start_line := 10 |}.

Definition plain_source (text : string) : SFCStyleSource :=
  {| style_block := Demo.plain_style text; style_map := None; style_start_line := 1 |}.

(** A raw request and an import request for a stylesheet, with the body
    that upstream has read. *)
Definition raw_request (path body : string) : CssServe.Ctx :=
  {| CssServe.ctx_path := path; CssServe.ctx_body := Some (CssServe.BodyString body);
     CssServe.ctx_type := "css"; CssServe.response_is_css := true;
     CssServe.import_request := false |}.

Definition import_request (path body : string) : CssServe.Ctx :=
  {| CssServe.ctx_path := path; CssServe.ctx_body := Some (CssServe.BodyString body);
     CssServe.ctx_type := "css"; CssServe.response_is_css := true;
     CssServe.import_request := true |}.

(** One stylesheet and one CSS-module file, and a store that has served them. *)
Definition main_css : string := "/r/src/main.css".
Definition card_css : string := "/r/src/card.module.css".

Definition served : Store :=
  mkStore ∅ ∅ ∅ ∅ ∅ [] ∅
    {[ "/src/main.css" := {| css := "a { }"; css_modules := None |};
       "/src/card.module.css" := {| css := ".card { }"; css_modules := Some [] |} ]}.

(** A package whose chosen entry is an object of nested conditions. *)
Definition odd_manifest : Json.t :=
  Json.JObj [("exports",
              Json.JObj [(".", Json.JObj [("import",
                                           Json.JObj [("node", Json.JStr "./a.js")])])])].

Definition odd_installed : World :=
  Demo.world [] [("/r/node_modules/odd/package.json", odd_manifest)] None.

(** Two custom resolvers: one without methods, one that maps every request
    into [/elsewhere]. *)
Definition silent : UserResolver.t :=
  {| UserResolver.requestToFile := None; UserResolver.fileToRequest := None;
     UserResolver.alias := None |}.

(** A custom resolver that aliases every identifier into [/@modules]. *)
Definition aliasing : UserResolver.t :=
  {| UserResolver.requestToFile := None; UserResolver.fileToRequest := None;
     UserResolver.alias := Some (fun id => Some ("/@modules/" +:+ id)) |}.

Definition elsewhere : UserResolver.t :=
  {| UserResolver.requestToFile := Some (fun publicPath _ => Some ("/elsewhere" +:+ publicPath));
     UserResolver.fileToRequest := None;
     UserResolver.alias := None |}.

End DemoServe.

(** * Properties *)

(** ** Truthiness *)

Module JsFacts.

Lemma truthy_Some (s : string) : s ≠ "" → Js.truthy (Some s) = true.
Proof.
  intros Hs. unfold Js.truthy. destruct (String.eqb_spec s ""); [done|reflexivity].
Qed.

Lemma truthy_inv (o : option string) :
  Js.truthy o = true → ∃ s, o = Some s ∧ s ≠ "".
Proof.
  destruct o as [s|]; simpl; [|discriminate].
  destruct (String.eqb_spec s ""); [discriminate|]. eauto.
Qed.

End JsFacts.

(** ** Block equality *)

Module SfcFacts.
Import Sfc.

Lemma prop_Some_iff (o : Attrs) (k : string) :
  is_Some (prop o k) ↔ k ∈ Object_keys o.
Proof.
  induction o as [|[k' v] o IH]; simpl.
  - split; [intros [? ?]; discriminate | intros Hk; inversion Hk].
  - destruct (String.eqb_spec k' k) as [->|Hne].
    + split; [intros _; left | eauto].
    + rewrite IH. split; [intros Hk; by right|].
      intros Hk. inversion Hk; subst; [done|assumption].
Qed.

(** Same number of distinct keys and one inclusion give the other. *)
Lemma keys_incl_same_length (ka kb : list string) :
  NoDup ka → length ka = length kb →
  (∀ k, k ∈ ka → k ∈ kb) → ∀ k, k ∈ kb → k ∈ ka.
Proof.
  intros Hnd Hlen Hincl k Hk.
  assert (Hsub : ka ⊆+ kb) by (by apply NoDup_submseteq).
  assert (Hperm : ka ≡ₚ kb).
  { apply submseteq_length_Permutation; [assumption|lia]. }
  by rewrite Hperm.
Qed.

Lemma keys_same_set_length (ka kb : list string) :
  NoDup ka → NoDup kb → (∀ k, k ∈ ka ↔ k ∈ kb) → length ka = length kb.
Proof.
  intros Ha Hb Hiff.
  apply Permutation_length, NoDup_Permutation; assumption.
Qed.

(** The last test of [isEqualBlock]: every key of [a] reads the same in [b]. *)
Lemma every_key_agrees (a b : Attrs) (keys : list string) :
  forallb (fun key => bool_decide (prop a key = prop b key)) keys = true
  ↔ ∀ k, k ∈ keys → prop a k = prop b k.
Proof.
  rewrite forallb_forall. split.
  - intros Hall k Hk. apply list_elem_of_In, Hall in Hk.
    by apply bool_decide_eq_true in Hk.
  - intros Hall k Hk. apply bool_decide_eq_true, Hall. by apply list_elem_of_In.
Qed.

Lemma isEqualBlock_Some (x y : SFCBlock) :
  isEqualBlock (Some x) (Some y) = true
  ↔ content x = content y
    ∧ length (Object_keys (attrs x)) = length (Object_keys (attrs y))
    ∧ ∀ k, k ∈ Object_keys (attrs x) → prop (attrs x) k = prop (attrs y) k.
Proof.
  unfold isEqualBlock.
  destruct (Nat.eqb_spec (String.length (content x)) (String.length (content y)))
    as [Hl|Hl]; simpl.
  2:{ split; [discriminate|]. intros (Hc & _). by rewrite Hc in Hl. }
  destruct (String.eqb_spec (content x) (content y)) as [Hc|Hc]; simpl.
  2:{ split; [discriminate|]. by intros (? & _). }
  destruct (Nat.eqb_spec (length (Object_keys (attrs x))) (length (Object_keys (attrs y))))
    as [Hk|Hk]; simpl.
  2:{ split; [discriminate|]. by intros (_ & ? & _). }
  rewrite every_key_agrees. split; [by intros Hall|by intros (_ & _ & Hall)].
Qed.

(** C8. For all blocks [a] and [b] (JS values, so with pairwise distinct
    attribute keys), [isEqualBlock a b] is true exactly when both are absent,
    or both are present with the same content string, the same set of
    attribute keys whatever their order, and the same value at every shared
    key; exactly one absent block gives [false]. *)
Theorem isEqualBlock_spec (a b : option SFCBlock) :
  block_wf a → block_wf b →
  (isEqualBlock a b = true ↔ spec_equal a b)
  ∧ (a = None → b ≠ None → isEqualBlock a b = false)
  ∧ (a ≠ None → b = None → isEqualBlock a b = false).
Proof.
  intros Ha Hb. split; [|split].
  - destruct a as [x|], b as [y|]; simpl in Ha, Hb.
    + rewrite isEqualBlock_Some. unfold spec_equal. split.
      * intros (Hc & Hlen & Hval). right. exists x, y.
        split; [done|]. split; [done|]. split; [done|].
        assert (Hincl : ∀ k, k ∈ Object_keys (attrs x) → k ∈ Object_keys (attrs y)).
        { intros k Hk. apply prop_Some_iff. rewrite <- (Hval k Hk).
          by apply prop_Some_iff. }
        split; [|auto].
        intros k. split; [apply Hincl|].
        by apply keys_incl_same_length.
      * intros [[? _]|(x' & y' & Hx & Hy & Hc & Hkeys & Hval)]; [discriminate|].
        inversion Hx; inversion Hy; subst x' y'.
        split; [done|]. split.
        -- by apply keys_same_set_length.
        -- intros k Hk. apply Hval; [done|]. by apply Hkeys.
    + simpl. split; [discriminate|].
      intros [[? _]|(? & ? & _ & ? & _)]; discriminate.
    + simpl. split; [discriminate|].
      intros [[_ ?]|(? & ? & ? & _)]; discriminate.
    + simpl. split; [intros _; by left|done].
  - intros -> Hne. destruct b; [reflexivity|done].
  - intros Hne ->. destruct a; [reflexivity|done].
Qed.

(** An instance of C8: the same two attributes in the other order, and the
    same content. *)
Lemma isEqualBlock_spec_witness :
  let x := mkBlock "a { color: red }" [("scoped", ATrue); ("lang", AStr "scss")] None None in
  let y := mkBlock "a { color: red }" [("lang", AStr "scss"); ("scoped", ATrue)] None None in
  (isEqualBlock (Some x) (Some y) = true ↔ spec_equal (Some x) (Some y))
  ∧ (Some x = None → Some y ≠ None → isEqualBlock (Some x) (Some y) = false)
  ∧ (Some x ≠ None → Some y = None → isEqualBlock (Some x) (Some y) = false).
Proof.
  intros x y. apply (isEqualBlock_spec (Some x) (Some y)).
  - simpl. compute_done.
  - simpl. compute_done.
Defined.

Example isEqualBlock_reordered_attrs :
  isEqualBlock
    (Some (mkBlock "a { color: red }" [("scoped", ATrue); ("lang", AStr "scss")] None None))
    (Some (mkBlock "a { color: red }" [("lang", AStr "scss"); ("scoped", ATrue)] None None))
  = true.
Proof. reflexivity. Qed.

Example isEqualBlock_value_differs :
  isEqualBlock
    (Some (mkBlock "x" [("lang", AStr "scss")] None None))
    (Some (mkBlock "x" [("lang", AStr "less")] None None))
  = false.
Proof. reflexivity. Qed.

Example isEqualBlock_key_differs :
  isEqualBlock
    (Some (mkBlock "x" [("lang", AStr "scss")] None None))
    (Some (mkBlock "x" [("scoped", AStr "scss")] None None))
  = false.
Proof. reflexivity. Qed.

End SfcFacts.

(** ** Running the monad *)

Module MonadFacts.

Lemma runs_ret {A} (a : A) (s : Store) : runs (ret a) s a s [].
Proof. reflexivity. Qed.

Lemma runs_gets {A} (f : Store → A) (s : Store) : runs (gets f) s (f s) s [].
Proof. reflexivity. Qed.

Lemma runs_modify (f : Store → Store) (s : Store) : runs (modify f) s tt (f s) [].
Proof. reflexivity. Qed.

Lemma runs_emit (o : Output) (s : Store) : runs (emit o) s tt s [o].
Proof. reflexivity. Qed.

Lemma runs_bind {A B} (m : M A) (k : A → M B) s a s1 o1 b s2 o2 :
  runs m s a s1 o1 → runs (k a) s1 b s2 o2 → runs (bind m k) s b s2 (o1 ++ o2).
Proof. unfold runs, bind. intros -> ->. reflexivity. Qed.

Lemma runs_bind_eq {A B} (m : M A) (k : A → M B) s a s1 o1 b s2 o2 out :
  runs m s a s1 o1 → runs (k a) s1 b s2 o2 → out = o1 ++ o2 →
  runs (bind m k) s b s2 out.
Proof. intros Hm Hk ->. by eapply runs_bind. Qed.

(** A silent first command. *)
Lemma runs_bind_nil {A B} (m : M A) (k : A → M B) s a s1 b s2 o2 :
  runs m s a s1 [] → runs (k a) s1 b s2 o2 → runs (bind m k) s b s2 o2.
Proof. intros Hm Hk. by eapply runs_bind_eq. Qed.

Lemma runs_det {A} (m : M A) s a s1 o1 b s2 o2 :
  runs m s a s1 o1 → runs m s b s2 o2 → a = b ∧ s1 = s2 ∧ o1 = o2.
Proof. unfold runs. intros -> [= -> -> ->]. done. Qed.

Lemma sent_app (o1 o2 : list Output) : sent (o1 ++ o2) = sent o1 ++ sent o2.
Proof. unfold sent. apply omap_app. Qed.

Lemma sent_Send (ps : list HMRPayload) : sent (map Send ps) = ps.
Proof. induction ps as [|p ps IH]; [reflexivity|]. simpl. f_equal. exact IH. Qed.

End MonadFacts.

Create HintDb runs.
#[local] Hint Resolve MonadFacts.runs_ret MonadFacts.runs_gets MonadFacts.runs_modify
  MonadFacts.runs_emit : runs.

(** One step of a sequence: run the first command, go on with the rest. *)
Ltac run_step := eapply MonadFacts.runs_bind; [solve [eauto with runs]|].
Ltac run_done := solve [eauto with runs].

(** ** The SFC cache *)

Module LruFacts.

Lemma peek_del_eq {V} (c : Lru.t V) (k : string) : Lru.peek (Lru.del k c) k = None.
Proof.
  induction c as [|[k' v] c IH]; [reflexivity|]. simpl.
  destruct (String.eqb_spec k' k) as [->|Hne]; [exact IH|].
  simpl. destruct (String.eqb_spec k' k); [done|exact IH].
Qed.

Lemma peek_del_ne {V} (c : Lru.t V) (k k' : string) :
  k ≠ k' → Lru.peek (Lru.del k c) k' = Lru.peek c k'.
Proof.
  intros Hne. induction c as [|[k0 v] c IH]; [reflexivity|]. simpl.
  destruct (String.eqb_spec k0 k) as [->|Hne0].
  - destruct (String.eqb_spec k k'); [done|exact IH].
  - simpl. destruct (String.eqb_spec k0 k'); [reflexivity|exact IH].
Qed.

(** With room for at least one entry, the entry just set is there. *)
Lemma peek_set_eq {V} (max : N) (c : Lru.t V) (k : string) (v : V) :
  (0 < max)%N → Lru.peek (Lru.set max k v c) k = Some v.
Proof.
  intros Hmax. unfold Lru.set, Lru.trim.
  destruct (N.of_nat (length ((k, v) :: Lru.del k c)) <=? max)%N.
  - simpl. by rewrite String.eqb_refl.
  - destruct (N.to_nat max) as [|n] eqn:Hn; [lia|].
    simpl. by rewrite String.eqb_refl.
Qed.

Lemma get_fst {V} (c : Lru.t V) (k : string) : (Lru.get c k).1 = Lru.peek c k.
Proof. unfold Lru.get. by destruct (Lru.peek c k). Qed.

(** Reading an entry moves it, and leaves every entry readable as before. *)
Lemma peek_get_snd {V} (c : Lru.t V) (k k' : string) :
  Lru.peek (Lru.get c k).2 k' = Lru.peek c k'.
Proof.
  unfold Lru.get. destruct (Lru.peek c k) as [v|] eqn:Hk; [|reflexivity].
  simpl. destruct (String.eqb_spec k k') as [<-|Hne]; [done|].
  by apply peek_del_ne.
Qed.

End LruFacts.

(** ** The HMR diff *)

Module VueFacts.
Import MonadFacts.

Section WithNode.
Context `{NodeApi}.

(** [fileToRequest] only reads the store. *)
Lemma fileToRequest_runs root resolvers filePath s :
  ∃ publicPath, runs (Resolver.fileToRequest root resolvers filePath) s publicPath s [].
Proof.
  unfold Resolver.fileToRequest.
  destruct (Js.truthy (Resolver.first_custom _ _ _ _)); [eexists; run_done|].
  unfold Resolver.defaultFileToRequest.
  destruct (Js.truthy (fileToRequestMap s !! filePath)) eqn:Hm; eexists.
  - eapply runs_bind_nil; [apply runs_gets|]. cbv beta. rewrite Hm. run_done.
  - eapply runs_bind_nil; [apply runs_gets|]. cbv beta. rewrite Hm. run_done.
Qed.

Lemma fileToRequest_result root resolvers filePath s publicPath :
  result_of (Resolver.fileToRequest root resolvers filePath s) = Ok publicPath →
  runs (Resolver.fileToRequest root resolvers filePath) s publicPath s [].
Proof.
  destruct (fileToRequest_runs root resolvers filePath s) as (p & Hp).
  unfold runs in *. rewrite Hp. simpl. by intros [= ->].
Qed.

Lemma vueCache_get_runs filePath s :
  runs (Vue.vueCache_get filePath) s (Lru.peek (vueCache s) filePath)
       (with_vueCache (fun _ => (Lru.get (vueCache s) filePath).2) s) [].
Proof.
  unfold runs, Vue.vueCache_get. rewrite <- LruFacts.get_fst.
  by destruct (Lru.get (vueCache s) filePath).
Qed.

Lemma report_errors_runs filePath text (errors : list CompilerError) start s :
  ∃ out, runs (forEach_from start errors
                 (fun _ e _ => Vue.report_parse_error filePath text e) tt) s tt s out
         ∧ sent out = [].
Proof.
  revert start. induction errors as [|e errors IH]; intros start; simpl.
  - eexists. split; [run_done|reflexivity].
  - destruct (IH (S start)) as (out & Hrun & Hsent).
    eexists. split.
    + eapply runs_bind; [|exact Hrun].
      unfold Vue.report_parse_error. do 2 run_step. run_done.
    + rewrite sent_app, Hsent. reflexivity.
Qed.

(** [parseSFC] on a file with no cache entry: it parses the text and stores
    the descriptor alone. *)
Lemma parseSFC_fresh w root filePath content text parsed errors s :
  Lru.peek (vueCache s) filePath = None →
  Policy.source_text w filePath content = Some text →
  sfc_parse root text filePath = (parsed, errors) →
  ∃ out, runs (Vue.parseSFC w root filePath content) s (Some parsed)
              (with_vueCache (Lru.set Vue.vueCache_max filePath (Vue.fresh_entry parsed)) s) out
         ∧ sent out = [].
Proof.
  intros Hnone Htext Hparse. unfold Vue.parseSFC.
  assert (Hget : runs (Vue.vueCache_get filePath) s None s []).
  { unfold runs, Vue.vueCache_get, Lru.get. rewrite Hnone. by destruct s. }
  destruct (report_errors_runs filePath text errors 0 s) as (oerr & Herr & Hsent).
  unfold Policy.source_text in Htext.
  destruct errors as [|e errors].
  - eexists. split.
    + eapply runs_bind; [exact Hget|]. simpl. rewrite Htext, Hparse.
      run_step. eapply runs_bind.
      { unfold Vue.vueCache_set. apply runs_modify. }
      unfold Vue.debug. run_step. run_done.
    + simpl. rewrite ?sent_app, ?Hsent. reflexivity.
  - eexists. split.
    + eapply runs_bind; [exact Hget|]. simpl. rewrite Htext, Hparse.
      eapply runs_bind.
      { run_step. unfold forEach. exact Herr. }
      eapply runs_bind.
      { unfold Vue.vueCache_set. apply runs_modify. }
      unfold Vue.debug. run_step. run_done.
    + simpl. rewrite !sent_app, Hsent. reflexivity.
Qed.

(** Step 6 as the code runs it: one [style-update] per changed index, in order. *)
Lemma update_loop_runs publicPath ts (P N xs : list Sfc.SFCStyleBlock) start flag s :
  ∃ flag',
    runs (forEach_from start xs
            (fun i _ didUpdateStyle =>
               if Vue.style_changed P N i then
                 emit (Send (StyleUpdate (publicPath +:+ "?type=style&index=" +:+ pretty i)
                               ts)) ;;
                 ret true
               else ret didUpdateStyle) flag) s flag' s
         (map Send (map (Policy.style_update publicPath ts)
                        (List.filter (Vue.style_changed P N) (seq start (length xs))))).
Proof.
  revert start flag. induction xs as [|x xs IH]; intros start flag.
  - exists flag. apply runs_ret.
  - cbn [forEach_from length seq List.filter].
    destruct (Vue.style_changed P N start).
    + destruct (IH (S start) true) as (flag' & Hrun). exists flag'.
      eapply runs_bind_eq; [|exact Hrun|].
      * run_step. run_done.
      * reflexivity.
    + destruct (IH (S start) flag) as (flag' & Hrun). exists flag'.
      eapply runs_bind_eq; [|exact Hrun|]; [run_done|reflexivity].
Qed.

(** Step 7 as the code runs it: one [style-remove] per stale index, in order. *)
Lemma remove_loop_runs publicPath ts (n : nat) (xs : list Sfc.SFCStyleBlock) start flag s :
  ∃ flag',
    runs (forEach_from start xs
            (fun i _ _ =>
               emit (Send (StyleRemove publicPath
                             (hash_sum publicPath +:+ "-" +:+ pretty (i + n)) ts)) ;;
               ret true) flag) s flag' s
         (map Send (map (Policy.style_remove publicPath ts)
                        (seq (start + n) (length xs)))).
Proof.
  revert start flag. induction xs as [|x xs IH]; intros start flag.
  - exists flag. apply runs_ret.
  - cbn [forEach_from length seq].
    destruct (IH (S start) true) as (flag' & Hrun). exists flag'.
    eapply runs_bind_eq; [|exact Hrun|].
    + run_step. run_done.
    + reflexivity.
Qed.

Lemma needRerender_eq (prev next : Sfc.SFCDescriptor) :
  (if negb (eqb (existsb Vue.is_scoped (Sfc.styles prev))
                (existsb Vue.is_scoped (Sfc.styles next)))
   then true
   else negb (Sfc.isEqualBlock (Sfc.template next) (Sfc.template prev)))
  = Policy.needsRerender prev next.
Proof.
  unfold Policy.needsRerender.
  destruct (eqb _ _), (Sfc.isEqualBlock _ _); reflexivity.
Qed.

(** What a change event does once the text parses: the notifications are
    those of the decision order, applied to the descriptor that was cached
    (none if there was none), and the cache holds the fresh descriptor alone. *)
Lemma handleVueReload_runs root resolvers alias w filePath ts content s
    publicPath text next errors :
  result_of (Resolver.fileToRequest root resolvers filePath s) = Ok publicPath →
  Policy.source_text w filePath content = Some text →
  sfc_parse root text filePath = (next, errors) →
  ∃ s' out,
    runs (Vue.handleVueReload root (Resolver.createResolver root resolvers alias)
            w filePath ts content) s tt s' out
    ∧ sent out = match Lru.peek (vueCache s) filePath ≫= descriptor with
                 | Some prev => Policy.diff publicPath ts prev next
                 | None => []
                 end
    ∧ Lru.peek (vueCache s') filePath = Some (Vue.fresh_entry next).
Proof.
  intros Hpub Htext Hparse. apply fileToRequest_result in Hpub.
  set (s1 := with_vueCache (fun _ => (Lru.get (vueCache s) filePath).2) s).
  set (s2 := with_vueCache (Lru.del filePath) s1).
  assert (Hnone : Lru.peek (vueCache s2) filePath = None) by apply LruFacts.peek_del_eq.
  destruct (parseSFC_fresh w root filePath content text next errors s2 Hnone Htext Hparse)
    as (op & Hp & Hsp).
  set (s3 := with_vueCache (Lru.set Vue.vueCache_max filePath (Vue.fresh_entry next)) s2) in Hp.
  assert (Hfresh : Lru.peek (vueCache s3) filePath = Some (Vue.fresh_entry next)).
  { apply LruFacts.peek_set_eq. reflexivity. }
  destruct (Lru.peek (vueCache s) filePath ≫= descriptor) as [prev|] eqn:Hprev.
  - unfold Policy.diff.
    destruct (Sfc.isEqualBlock (Sfc.script next) (Sfc.script prev)) eqn:Hscript;
      cbn [negb].
    2:{ exists s3. eexists. split; [|split; [|exact Hfresh]].
        - unfold Vue.handleVueReload.
          eapply runs_bind; [exact Hpub|].
          eapply runs_bind; [apply vueCache_get_runs|].
          unfold Vue.debugHmr, Vue.vueCache_del. run_step.
          eapply runs_bind; [apply runs_modify|].
          eapply runs_bind; [exact Hp|].
          cbv beta iota. rewrite Hprev, Hscript. cbn [negb].
          unfold Vue.sendReload. run_step. run_done.
        - rewrite !sent_app, Hsp. reflexivity. }
    destruct (existsb Vue.is_module (Sfc.styles prev)
              || existsb Vue.is_module (Sfc.styles next)) eqn:Hmod.
    { exists s3. eexists. split; [|split; [|exact Hfresh]].
      - unfold Vue.handleVueReload.
        eapply runs_bind; [exact Hpub|].
        eapply runs_bind; [apply vueCache_get_runs|].
        unfold Vue.debugHmr, Vue.vueCache_del. run_step.
        eapply runs_bind; [apply runs_modify|].
        eapply runs_bind; [exact Hp|].
        cbv beta iota. rewrite Hprev, Hscript. cbn [negb]. cbv zeta. rewrite Hmod.
        unfold Vue.sendReload. run_step. run_done.
      - rewrite !sent_app, Hsp. reflexivity. }
    destruct (update_loop_runs publicPath ts (Sfc.styles prev) (Sfc.styles next)
                (Sfc.styles next) 0 false s3) as (flag1 & Hupd).
    destruct (remove_loop_runs publicPath ts (length (Sfc.styles next))
                (drop (length (Sfc.styles next)) (Sfc.styles prev)) 0 flag1 s3)
      as (flag2 & Hrem).
    rewrite length_drop in Hrem.
    destruct (Policy.needsRerender prev next) eqn:Hneed, flag2.
    all: exists s3; eexists; (split; [|split; [|exact Hfresh]]).
    all: try (unfold Vue.handleVueReload;
      (eapply runs_bind; [exact Hpub|]);
      (eapply runs_bind; [apply vueCache_get_runs|]);
      unfold Vue.debugHmr, Vue.vueCache_del; run_step;
      (eapply runs_bind; [apply runs_modify|]);
      (eapply runs_bind; [exact Hp|]);
      cbv beta iota; rewrite Hprev, Hscript; cbn [negb]; cbv zeta; rewrite Hmod;
      rewrite needRerender_eq, Hneed;
      (eapply runs_bind; [exact Hupd|]);
      (eapply runs_bind; [exact Hrem|]);
      cbn [app]; run_step; run_done).
    all: rewrite !sent_app, Hsp, !sent_Send; unfold Policy.updated_indices,
        Policy.removed_indices; reflexivity.
  - exists s3. eexists. split; [|split; [|exact Hfresh]].
    + unfold Vue.handleVueReload.
      eapply runs_bind; [exact Hpub|].
      eapply runs_bind; [apply vueCache_get_runs|].
      unfold Vue.debugHmr, Vue.vueCache_del. run_step.
      eapply runs_bind; [apply runs_modify|].
      eapply runs_bind; [exact Hp|].
      cbv beta iota. rewrite Hprev. run_done.
    + rewrite !sent_app, Hsp. reflexivity.
Qed.

Lemma handleVueReload_outcome root resolvers alias w filePath ts content s
    publicPath text next errors :
  result_of (Resolver.fileToRequest root resolvers filePath s) = Ok publicPath →
  Policy.source_text w filePath content = Some text →
  sfc_parse root text filePath = (next, errors) →
  let r := Vue.handleVueReload root (Resolver.createResolver root resolvers alias)
             w filePath ts content s in
  result_of r = Ok tt
  ∧ sent (outputs_of r) = match Lru.peek (vueCache s) filePath ≫= descriptor with
                          | Some prev => Policy.diff publicPath ts prev next
                          | None => []
                          end
  ∧ Lru.peek (vueCache (store_of r)) filePath = Some (Vue.fresh_entry next).
Proof.
  intros Hpub Htext Hparse.
  destruct (handleVueReload_runs root resolvers alias w filePath ts content s
              publicPath text next errors Hpub Htext Hparse) as (s' & out & Hrun & Hs & Hc).
  unfold runs in Hrun. cbv zeta. rewrite Hrun. done.
Qed.

Lemma existsb_is_module (l : list Sfc.SFCStyleBlock) :
  existsb Vue.is_module l = true ↔ ∃ b, b ∈ l ∧ Sfc.module b ≠ None.
Proof.
  rewrite existsb_exists. unfold Vue.is_module. split.
  - intros (b & Hin & Hb). exists b. rewrite list_elem_of_In.
    destruct (Sfc.module b); [done|discriminate].
  - intros (b & Hin & Hb). exists b. rewrite <- list_elem_of_In.
    destruct (Sfc.module b); done.
Qed.

Lemma style_update_inj publicPath ts : Inj (=) (=) (Policy.style_update publicPath ts).
Proof.
  intros i j [= Heq]. apply String.app_inj, String.app_inj in Heq.
  by apply (inj pretty).
Qed.

Lemma style_remove_inj publicPath ts : Inj (=) (=) (Policy.style_remove publicPath ts).
Proof.
  intros i j [= Heq]. apply String.app_inj, String.app_inj in Heq.
  by apply (inj pretty).
Qed.

(** [style_changed] in the words of step 6. *)
Lemma style_changed_iff (P N : list Sfc.SFCStyleBlock) (i : nat) :
  Vue.style_changed P N i = true
  ↔ P !! i = None
    ∨ Sfc.isEqualBlock (Sfc.block <$> P !! i) (Sfc.block <$> N !! i) = false.
Proof.
  unfold Vue.style_changed. destruct (P !! i) as [p|]; simpl.
  - rewrite negb_true_iff. split; [by right|]. by intros [?|?].
  - split; [by left|done].
Qed.

(** C1. On a change event for a file whose descriptor was cached and whose
    current text parses: if the script block of the parsed descriptor differs
    from the cached one under [isEqualBlock], the handler returns normally
    and sends exactly one notification, the full reload ([vue-reload]); so no
    style-update, style-remove or rerender is sent. *)
Theorem script_change_full_reload root resolvers alias w filePath ts content s
    cached prev publicPath text next errors :
  Lru.peek (vueCache s) filePath = Some cached →
  descriptor cached = Some prev →
  result_of (Resolver.fileToRequest root resolvers filePath s) = Ok publicPath →
  Policy.source_text w filePath content = Some text →
  sfc_parse root text filePath = (next, errors) →
  Sfc.isEqualBlock (Sfc.script next) (Sfc.script prev) = false →
  let r := Vue.handleVueReload root (Resolver.createResolver root resolvers alias)
             w filePath ts content s in
  result_of r = Ok tt
  ∧ sent (outputs_of r) = [VueReload publicPath ts]
  ∧ ∀ p, p ∈ sent (outputs_of r) → Policy.is_style_event p = false
                                    ∧ p ≠ VueRerender publicPath ts.
Proof.
  intros Hc Hd Hpub Htext Hparse Hscript r.
  destruct (handleVueReload_outcome root resolvers alias w filePath ts content s
              publicPath text next errors Hpub Htext Hparse) as (Hr & Hs & _).
  fold r in Hr, Hs. rewrite Hc in Hs. simpl in Hs. rewrite Hd in Hs.
  unfold Policy.diff in Hs. rewrite Hscript in Hs. simpl in Hs.
  split; [exact Hr|]. split; [exact Hs|].
  intros p. rewrite Hs. intros ->%list_elem_of_singleton. done.
Qed.

(** C2. On such an event with equal script blocks: if some style block of
    the cached or of the parsed descriptor is flagged as a CSS module, the
    handler sends exactly one notification, the full reload, whatever the
    contents of the blocks; no style-update, style-remove or rerender is
    sent. *)
Theorem css_module_full_reload root resolvers alias w filePath ts content s
    cached prev publicPath text next errors :
  Lru.peek (vueCache s) filePath = Some cached →
  descriptor cached = Some prev →
  result_of (Resolver.fileToRequest root resolvers filePath s) = Ok publicPath →
  Policy.source_text w filePath content = Some text →
  sfc_parse root text filePath = (next, errors) →
  Sfc.isEqualBlock (Sfc.script next) (Sfc.script prev) = true →
  (∃ b, (b ∈ Sfc.styles prev ∨ b ∈ Sfc.styles next) ∧ Sfc.module b ≠ None) →
  let r := Vue.handleVueReload root (Resolver.createResolver root resolvers alias)
             w filePath ts content s in
  result_of r = Ok tt
  ∧ sent (outputs_of r) = [VueReload publicPath ts]
  ∧ ∀ p, p ∈ sent (outputs_of r) → Policy.is_style_event p = false
                                    ∧ p ≠ VueRerender publicPath ts.
Proof.
  intros Hc Hd Hpub Htext Hparse Hscript (b & Hin & Hb) r.
  destruct (handleVueReload_outcome root resolvers alias w filePath ts content s
              publicPath text next errors Hpub Htext Hparse) as (Hr & Hs & _).
  fold r in Hr, Hs. rewrite Hc in Hs. simpl in Hs. rewrite Hd in Hs.
  unfold Policy.diff in Hs. rewrite Hscript in Hs. simpl in Hs.
  assert (Hmod : existsb Vue.is_module (Sfc.styles prev)
                 || existsb Vue.is_module (Sfc.styles next) = true).
  { apply orb_true_iff. rewrite !existsb_is_module. destruct Hin; [left|right]; eauto. }
  rewrite Hmod in Hs.
  split; [exact Hr|]. split; [exact Hs|].
  intros p. rewrite Hs. intros ->%list_elem_of_singleton. done.
Qed.

Lemma filter_map_all {A B} (f : A → B) (keep : B → bool) (l : list A) :
  (∀ a, keep (f a) = true) → List.filter keep (map f l) = map f l.
Proof.
  intros Hall. induction l as [|a l IH]; [reflexivity|].
  simpl. rewrite Hall. f_equal. exact IH.
Qed.

Lemma filter_map_none {A B} (f : A → B) (keep : B → bool) (l : list A) :
  (∀ a, keep (f a) = false) → List.filter keep (map f l) = [].
Proof.
  intros Hall. induction l as [|a l IH]; [reflexivity|].
  simpl. rewrite Hall. exact IH.
Qed.

(** The notifications of the style stage, and which of them are style events. *)
Lemma style_stage_events publicPath ts (U R : list nat) (rerender : bool) :
  let evs := map (Policy.style_update publicPath ts) U
             ++ map (Policy.style_remove publicPath ts) R
             ++ (if rerender then [VueRerender publicPath ts] else []) in
  List.filter Policy.is_style_event evs
  = map (Policy.style_update publicPath ts) U ++ map (Policy.style_remove publicPath ts) R
  ∧ List.filter Policy.is_style_remove evs = map (Policy.style_remove publicPath ts) R
  ∧ (∀ i, Policy.style_update publicPath ts i ∈ evs ↔ i ∈ U)
  ∧ (∀ i, Policy.style_remove publicPath ts i ∈ evs ↔ i ∈ R).
Proof.
  intros evs. subst evs. split; [|split; [|split]].
  - rewrite !List.filter_app.
    rewrite (filter_map_all _ Policy.is_style_event U) by reflexivity.
    rewrite (filter_map_all _ Policy.is_style_event R) by reflexivity.
    destruct rerender; simpl; by rewrite ?app_nil_r.
  - rewrite !List.filter_app.
    rewrite (filter_map_none _ Policy.is_style_remove U) by reflexivity.
    rewrite (filter_map_all _ Policy.is_style_remove R) by reflexivity.
    destruct rerender; simpl; by rewrite ?app_nil_r.
  - intros i. rewrite !elem_of_app, !list_elem_of_In, !in_map_iff. split.
    + intros [(j & Hj & Hin)|[(j & Hj & _)|Hr]].
      * apply style_update_inj in Hj. by subst j.
      * discriminate Hj.
      * destruct rerender; simpl in Hr; [destruct Hr as [Hr|[]]; discriminate Hr|done].
    + intros Hin. left. eauto.
  - intros i. rewrite !elem_of_app, !list_elem_of_In, !in_map_iff. split.
    + intros [(j & Hj & _)|[(j & Hj & Hin)|Hr]].
      * discriminate Hj.
      * apply style_remove_inj in Hj. by subst j.
      * destruct rerender; simpl in Hr; [destruct Hr as [Hr|[]]; discriminate Hr|done].
    + intros Hin. right. left. eauto.
Qed.

(** C3. On a change event that reaches the style stage (a cached descriptor,
    a text that parses, equal script blocks, no CSS-module block in either
    style list), with [P] the cached and [N] the parsed style list: the style
    events sent are the style-update of every index [i < |N|] at which [P]
    has no block or a block that differs from [N]'s under [isEqualBlock],
    followed by the style-remove of every index [i] with [|N| <= i < |P|], and
    no other; in particular, for [|P| = 3] and [|N| = 1] the style-remove
    events are exactly those of the indices 1 and 2. *)
Theorem style_stage_exact root resolvers alias w filePath ts content s
    cached prev publicPath text next errors :
  Lru.peek (vueCache s) filePath = Some cached →
  descriptor cached = Some prev →
  result_of (Resolver.fileToRequest root resolvers filePath s) = Ok publicPath →
  Policy.source_text w filePath content = Some text →
  sfc_parse root text filePath = (next, errors) →
  Sfc.isEqualBlock (Sfc.script next) (Sfc.script prev) = true →
  (∀ b, b ∈ Sfc.styles prev ∨ b ∈ Sfc.styles next → Sfc.module b = None) →
  let P := Sfc.styles prev in
  let N := Sfc.styles next in
  let evs := sent (outputs_of
                     (Vue.handleVueReload root (Resolver.createResolver root resolvers alias)
                        w filePath ts content s)) in
  List.filter Policy.is_style_event evs
  = map (Policy.style_update publicPath ts) (Policy.updated_indices P N)
    ++ map (Policy.style_remove publicPath ts) (Policy.removed_indices P N)
  ∧ (∀ i, Policy.style_update publicPath ts i ∈ evs
          ↔ i < length N
            ∧ (P !! i = None
               ∨ Sfc.isEqualBlock (Sfc.block <$> P !! i) (Sfc.block <$> N !! i) = false))
  ∧ (∀ i, Policy.style_remove publicPath ts i ∈ evs ↔ length N ≤ i < length P)
  ∧ (length P = 3 → length N = 1 →
     List.filter Policy.is_style_remove evs
     = [Policy.style_remove publicPath ts 1; Policy.style_remove publicPath ts 2]).
Proof.
  intros Hc Hd Hpub Htext Hparse Hscript Hnomod P N evs.
  destruct (handleVueReload_outcome root resolvers alias w filePath ts content s
              publicPath text next errors Hpub Htext Hparse) as (_ & Hs & _).
  fold evs in Hs. rewrite Hc in Hs. simpl in Hs. rewrite Hd in Hs.
  unfold Policy.diff in Hs. rewrite Hscript in Hs. simpl in Hs.
  assert (Hmod : existsb Vue.is_module (Sfc.styles prev)
                 || existsb Vue.is_module (Sfc.styles next) = false).
  { apply not_true_is_false. rewrite orb_true_iff, !existsb_is_module.
    intros [(b & Hin & Hb)|(b & Hin & Hb)]; apply Hb, Hnomod; auto. }
  rewrite Hmod in Hs. fold P N in Hs.
  destruct (style_stage_events publicPath ts (Policy.updated_indices P N)
              (Policy.removed_indices P N) (Policy.needsRerender prev next))
    as (Hall & Hrem & Hupd_in & Hrem_in).
  rewrite <- Hs in Hall, Hrem, Hupd_in, Hrem_in.
  split; [exact Hall|]. split; [|split].
  - intros i. rewrite Hupd_in. unfold Policy.updated_indices.
    rewrite list_elem_of_In, filter_In, in_seq, style_changed_iff.
    split; (intros [Hi Hch]; split; [lia|exact Hch]).
  - intros i. rewrite Hrem_in. unfold Policy.removed_indices.
    rewrite list_elem_of_In, in_seq. lia.
  - intros HP HN. rewrite Hrem. unfold Policy.removed_indices. rewrite HP, HN.
    reflexivity.
Qed.

(** C10. After a change event whose text parses, the cache entry of the
    file is the freshly parsed descriptor with no compiled script, template
    or style: the entry that was there is gone, also when nothing is sent
    because the file had no cached descriptor. *)
Theorem cache_entry_fresh_after_change root resolvers alias w filePath ts content s
    text next errors :
  Policy.source_text w filePath content = Some text →
  sfc_parse root text filePath = (next, errors) →
  let r := Vue.handleVueReload root (Resolver.createResolver root resolvers alias)
             w filePath ts content s in
  result_of r = Ok tt
  ∧ Lru.peek (vueCache (store_of r)) filePath
    = Some {| descriptor := Some next; template := None; script := None; styles := [] |}
  ∧ (Lru.peek (vueCache s) filePath ≫= descriptor = None → sent (outputs_of r) = []).
Proof.
  intros Htext Hparse r.
  destruct (fileToRequest_runs root resolvers filePath s) as (publicPath & Hpub).
  assert (Hres : result_of (Resolver.fileToRequest root resolvers filePath s)
                 = Ok publicPath) by (unfold runs in Hpub; by rewrite Hpub).
  destruct (handleVueReload_outcome root resolvers alias w filePath ts content s
              publicPath text next errors Hres Htext Hparse) as (Hr & Hs & Hfresh).
  fold r in Hr, Hs, Hfresh.
  split; [exact Hr|]. split; [exact Hfresh|].
  intros Hnone. by rewrite Hnone in Hs.
Qed.

End WithNode.
End VueFacts.

(** ** The HMR diff on concrete change events *)

Module VueRuns.

Import Demo.

(** Previous script [export default {a:1}], next [export default {a:2}]. *)
Lemma script_change_full_reload_witness :
  let prev := descriptor_of "export default {a:1}" [Demo.plain_style "p { }"] in
  let next := descriptor_of "export default {a:2}" [Demo.plain_style "p { color: red }"] in
  let r := @Vue.handleVueReload (Demo.api next) "/r"
             (@Resolver.createResolver (Demo.api next) "/r" [] ∅)
             (disk "next") app_vue 7 None (Demo.store_with app_vue prev) in
  result_of r = Ok tt
  ∧ sent (outputs_of r) = [VueReload "/src/App.vue" 7]
  ∧ ∀ p, p ∈ sent (outputs_of r) → Policy.is_style_event p = false
                                    ∧ p ≠ VueRerender "/src/App.vue" 7.
Proof.
  intros prev next.
  eapply (@VueFacts.script_change_full_reload (Demo.api next) "/r" [] ∅ (disk "next")
            app_vue 7 None (Demo.store_with app_vue prev) _ prev "/src/App.vue"
            "next" next []).
  - reflexivity.
  - reflexivity.
  - vm_compute. reflexivity.
  - reflexivity.
  - reflexivity.
  - reflexivity.
Defined.

(** The same module-flagged style block before and after, byte for byte. *)
Lemma css_module_full_reload_witness :
  let prev := descriptor_of "export default {}" [Demo.module_style ".a { }"] in
  let next := descriptor_of "export default {}" [Demo.module_style ".a { }"] in
  let r := @Vue.handleVueReload (Demo.api next) "/r"
             (@Resolver.createResolver (Demo.api next) "/r" [] ∅)
             (disk "next") app_vue 7 None (Demo.store_with app_vue prev) in
  result_of r = Ok tt
  ∧ sent (outputs_of r) = [VueReload "/src/App.vue" 7]
  ∧ ∀ p, p ∈ sent (outputs_of r) → Policy.is_style_event p = false
                                    ∧ p ≠ VueRerender "/src/App.vue" 7.
Proof.
  intros prev next.
  eapply (@VueFacts.css_module_full_reload (Demo.api next) "/r" [] ∅ (disk "next")
            app_vue 7 None (Demo.store_with app_vue prev) _ prev "/src/App.vue"
            "next" next []).
  - reflexivity.
  - reflexivity.
  - vm_compute. reflexivity.
  - reflexivity.
  - reflexivity.
  - reflexivity.
  - exists (Demo.module_style ".a { }"). split; [left; left|discriminate].
Defined.

(** Three style blocks before, one after. *)
Lemma style_stage_exact_witness :
  let prev := descriptor_of "export default {}"
                [Demo.plain_style "a { }"; Demo.plain_style "b { }"; Demo.plain_style "c { }"] in
  let next := descriptor_of "export default {}" [Demo.plain_style "a { color: red }"] in
  let P := Sfc.styles prev in
  let N := Sfc.styles next in
  let evs := sent (outputs_of
                     (@Vue.handleVueReload (Demo.api next) "/r"
                        (@Resolver.createResolver (Demo.api next) "/r" [] ∅)
                        (disk "next") app_vue 7 None (Demo.store_with app_vue prev))) in
  List.filter Policy.is_style_event evs
  = map (@Policy.style_update "/src/App.vue" 7) (Policy.updated_indices P N)
    ++ map (@Policy.style_remove (Demo.api next) "/src/App.vue" 7)
           (Policy.removed_indices P N)
  ∧ (∀ i, Policy.style_update "/src/App.vue" 7 i ∈ evs
          ↔ i < length N
            ∧ (P !! i = None
               ∨ Sfc.isEqualBlock (Sfc.block <$> P !! i) (Sfc.block <$> N !! i) = false))
  ∧ (∀ i, @Policy.style_remove (Demo.api next) "/src/App.vue" 7 i ∈ evs
          ↔ length N ≤ i < length P)
  ∧ (length P = 3 → length N = 1 →
     List.filter Policy.is_style_remove evs
     = [@Policy.style_remove (Demo.api next) "/src/App.vue" 7 1;
        @Policy.style_remove (Demo.api next) "/src/App.vue" 7 2]).
Proof.
  intros prev next.
  eapply (@VueFacts.style_stage_exact (Demo.api next) "/r" [] ∅ (disk "next")
            app_vue 7 None (Demo.store_with app_vue prev) _ prev "/src/App.vue"
            "next" next []).
  - reflexivity.
  - reflexivity.
  - vm_compute. reflexivity.
  - reflexivity.
  - reflexivity.
  - reflexivity.
  - intros b [Hb|Hb]; simpl in Hb;
      repeat (apply elem_of_cons in Hb as [->|Hb]; [reflexivity|]);
      by apply elem_of_nil in Hb.
Defined.

(** The run of that event: the changed block 0 is updated, the stale blocks
    1 and 2 are removed. *)
Example three_styles_to_one :
  let prev := descriptor_of "export default {}"
                [Demo.plain_style "a { }"; Demo.plain_style "b { }"; Demo.plain_style "c { }"] in
  let next := descriptor_of "export default {}" [Demo.plain_style "a { color: red }"] in
  sent (outputs_of
          (@Vue.handleVueReload (Demo.api next) "/r"
             (@Resolver.createResolver (Demo.api next) "/r" [] ∅)
             (disk "next") app_vue 7 None (Demo.store_with app_vue prev)))
  = [StyleUpdate "/src/App.vue?type=style&index=0" 7;
     StyleRemove "/src/App.vue" "h12-1" 7;
     StyleRemove "/src/App.vue" "h12-2" 7].
Proof. vm_compute. reflexivity. Qed.

(** An entry with a compiled script and template is replaced by the fresh
    descriptor alone. *)
Lemma cache_entry_fresh_after_change_witness :
  let prev := descriptor_of "export default {a:1}" [] in
  let next := descriptor_of "export default {a:2}" [] in
  let r := @Vue.handleVueReload (Demo.api next) "/r"
             (@Resolver.createResolver (Demo.api next) "/r" [] ∅)
             (disk "next") app_vue 7 None (Demo.store_with app_vue prev) in
  result_of r = Ok tt
  ∧ Lru.peek (vueCache (store_of r)) app_vue
    = Some {| descriptor := Some next; template := None; script := None; styles := [] |}
  ∧ (Lru.peek (vueCache (Demo.store_with app_vue prev)) app_vue ≫= descriptor = None
     → sent (outputs_of r) = []).
Proof.
  intros prev next.
  eapply (@VueFacts.cache_entry_fresh_after_change (Demo.api next) "/r" [] ∅ (disk "next")
            app_vue 7 None (Demo.store_with app_vue prev) "next" next []).
  - reflexivity.
  - reflexivity.
Defined.

(** A file that was never served: nothing is sent, and the descriptor is cached. *)
Example never_served_file :
  let next := descriptor_of "export default {}" [] in
  let r := @Vue.handleVueReload (Demo.api next) "/r"
             (@Resolver.createResolver (Demo.api next) "/r" [] ∅)
             (disk "next") app_vue 7 None Demo.empty_store in
  sent (outputs_of r) = []
  ∧ Lru.peek (vueCache (store_of r)) app_vue = Some (Vue.fresh_entry next).
Proof. vm_compute. split; reflexivity. Qed.

End VueRuns.

(** ** The stylesheet change handler *)

Module CssFacts.
Import MonadFacts.

Section WithNode.
Context `{NodeApi}.

(** C9. On a change event for a stylesheet file whose public path has no
    entry in the processed-CSS table and whose file path has no entry in the
    table of src imports, the handler returns normally, leaves the store as
    it was and produces one debug message and nothing else: no notification
    is sent and no error is raised. *)
Theorem unused_stylesheet_skipped root resolvers alias now filePath publicPath s :
  Js.endsWith filePath ".css" || cssPreprocessLangRE_test filePath = true →
  result_of (Resolver.fileToRequest root resolvers filePath s) = Ok publicPath →
  processedCSS s !! publicPath = None →
  srcImportMap s !! filePath = None →
  Css.onChange (Resolver.createResolver root resolvers alias) now filePath s
  = (Ok tt, s,
     [Debug "vite:css"
        (path_basename publicPath +:+ " has changed, but it is not currently in use")])
  ∧ sent (outputs_of
            (Css.onChange (Resolver.createResolver root resolvers alias) now filePath s))
    = [].
Proof.
  intros Hcss Hpub Hproc Hsrc.
  apply VueFacts.fileToRequest_result in Hpub.
  assert (Hrun : runs (Css.onChange (Resolver.createResolver root resolvers alias)
                         now filePath) s tt s
                   ([] ++ [] ++ [] ++
                    [Debug "vite:css"
                       (path_basename publicPath
                        +:+ " has changed, but it is not currently in use")])).
  { unfold Css.onChange. rewrite Hcss.
    eapply runs_bind; [exact Hpub|].
    eapply runs_bind; [apply runs_gets|].
    eapply runs_bind; [apply runs_gets|].
    cbv beta. rewrite Hproc, Hsrc. cbn [bool_decide negb andb].
    rewrite !bool_decide_eq_false_2 by (intros [? ?]; discriminate).
    cbn [negb andb]. unfold Css.debugCSS. apply runs_emit. }
  unfold runs in Hrun. rewrite Hrun. split; reflexivity.
Qed.

End WithNode.

(** A stylesheet that no page has requested. *)
Lemma unused_stylesheet_skipped_witness :
  let api := Demo.api (Sfc.mkDescriptor "" None None []) in
  @Css.onChange api (@Resolver.createResolver api "/r" [] ∅) 7 "/r/src/unused.css"
    Demo.empty_store
  = (Ok tt, Demo.empty_store,
     [Debug "vite:css"
        (@path_basename api "/src/unused.css"
         +:+ " has changed, but it is not currently in use")])
  ∧ sent (outputs_of
            (@Css.onChange api (@Resolver.createResolver api "/r" [] ∅) 7
               "/r/src/unused.css" Demo.empty_store))
    = [].
Proof.
  intros api.
  apply (@unused_stylesheet_skipped api "/r" [] ∅ 7 "/r/src/unused.css"
           "/src/unused.css" Demo.empty_store).
  - reflexivity.
  - vm_compute. reflexivity.
  - reflexivity.
  - reflexivity.
Defined.

(** The same file once a page has requested it: the entry is dropped and a
    style-update is sent. *)
Example used_stylesheet_updated :
  let api := Demo.api (Sfc.mkDescriptor "" None None []) in
  let s := with_processedCSS (insert "/src/used.css" {| css := "a{}"; css_modules := None |})
             Demo.empty_store in
  sent (outputs_of
          (@Css.onChange api (@Resolver.createResolver api "/r" [] ∅) 7
             "/r/src/used.css" s))
  = [StyleUpdate "/src/used.css" 7].
Proof. vm_compute. reflexivity. Qed.

End CssFacts.

(** ** The resolver *)

Module ResolverFacts.
Import MonadFacts.

(** *** Entry point of a package *)

Lemma first_defined_truthy_or_null (candidates : list (option Json.t)) :
  Json.truthy (Policy.first_defined candidates) = true
  ∨ Policy.first_defined candidates = Some Json.JNull.
Proof.
  induction candidates as [|c candidates IH]; simpl; [by right|].
  destruct (Json.truthy c) eqn:Hc; [by left|exact IH].
Qed.

(** [pkg.module || pkg.main || null], one candidate after the other. *)
Lemma fallback_chain (m n : option Json.t) :
  Json.or_else (Json.or_else m n) (Some Json.JNull)
  = if Json.truthy m then m else if Json.truthy n then n else Some Json.JNull.
Proof.
  unfold Json.or_else. destruct (Json.truthy m) eqn:Hm; [by rewrite Hm|].
  by destruct (Json.truthy n) eqn:Hn.
Qed.

(** Decide a condition and evaluate the tests that repeat it. *)
Ltac by_truth b :=
  let Hb := fresh "Hb" in
  destruct b eqn:Hb; cbn [Json.truthy negb]; rewrite ?Hb; cbn [negb]; reflexivity.

(** C5. For every manifest, the entry point that [resolveNodeModule]
    chooses is the first defined one of: a string [exports]; a string
    [exports["."]]; [exports["."].import]; [module]; [main]; and [null] when
    none is defined.  In particular the manifest with exports
    [{".": {"import": "./a.js"}}] and main ["./b.js"] gives ["./a.js"]. *)
Theorem entry_point_precedence :
  (∀ pkg : Json.t, Resolver.select_entryPoint pkg = Policy.spec_entryPoint pkg)
  ∧ Resolver.select_entryPoint
      (Json.JObj [("exports", Json.JObj [(".", Json.JObj [("import", Json.JStr "./a.js")])]);
                  ("main", Json.JStr "./b.js")])
    = Some (Json.JStr "./a.js").
Proof.
  split; [|reflexivity].
  intros pkg.
  unfold Resolver.select_entryPoint, Policy.spec_entryPoint, Policy.entry_candidates,
    Policy.first_defined. rewrite fallback_chain. cbv zeta.
  destruct (Json.get pkg "exports") as [exports|] eqn:He; cbn [mbind option_bind].
  2:{ cbn [Policy.only_string Json.truthy negb]. reflexivity. }
  destruct exports as [| b | z | e | items | fields];
    cbn [Policy.only_string Json.truthy Json.get negb].
  - reflexivity.
  - destruct b; reflexivity.
  - by_truth (negb (z =? 0)%Z).
  - by_truth (negb (String.eqb e "")).
  - reflexivity.
  - destruct (Json.lookup_field fields ".") as [dot|] eqn:Hd.
    2:{ cbn [Policy.only_string Json.truthy negb]. reflexivity. }
    destruct dot as [| b | z | d | items | dfields];
      cbn [Policy.only_string Json.truthy Json.get negb mbind option_bind].
    + reflexivity.
    + destruct b; reflexivity.
    + by_truth (negb (z =? 0)%Z).
    + by_truth (negb (String.eqb d "")).
    + reflexivity.
    + by_truth (Json.truthy (Json.lookup_field dfields "import")).
Qed.

Example entry_exports_string :
  Resolver.select_entryPoint
    (Json.JObj [("exports", Json.JStr "./e.js"); ("module", Json.JStr "./m.js")])
  = Some (Json.JStr "./e.js").
Proof. reflexivity. Qed.

Example entry_module_before_main :
  Resolver.select_entryPoint
    (Json.JObj [("main", Json.JStr "./b.js"); ("module", Json.JStr "./m.js")])
  = Some (Json.JStr "./m.js").
Proof. reflexivity. Qed.

Example entry_none :
  Resolver.select_entryPoint (Json.JObj [("name", Json.JStr "foo")]) = Some Json.JNull.
Proof. reflexivity. Qed.

(** Conditions under [exports["."]] other than [import] do not count. *)
Example entry_require_only :
  Resolver.select_entryPoint
    (Json.JObj [("exports", Json.JObj [(".", Json.JObj [("require", Json.JStr "./c.js")])]);
                ("main", Json.JStr "./b.js")])
  = Some (Json.JStr "./b.js").
Proof. reflexivity. Qed.

(** *** The optimized-artifact lookup *)

Section WithNode.
Context `{NodeApi}.

Lemma resolveOptimizedModule_hit w root id s :
  Js.truthy (viteOptimizedMap s !! id) = true →
  runs (Resolver.resolveOptimizedModule w root id) s (viteOptimizedMap s !! id) s [].
Proof.
  intros Hc. unfold Resolver.resolveOptimizedModule.
  eapply runs_bind_nil; [apply runs_gets|].
  cbv beta. rewrite Hc. apply runs_ret.
Qed.

Lemma resolveOptimizedModule_found w root id s cacheDir :
  Js.truthy (viteOptimizedMap s !! id) = false →
  resolveOptimizedCacheDir w root = Some cacheDir → cacheDir ≠ "" →
  existsSync w (path_join [cacheDir; id]) = true →
  runs (Resolver.resolveOptimizedModule w root id) s (Some (path_join [cacheDir; id]))
       (with_viteOptimizedMap (insert id (path_join [cacheDir; id])) s) [].
Proof.
  intros Hc Hdir Hne Hex. unfold Resolver.resolveOptimizedModule.
  eapply runs_bind_nil; [apply runs_gets|].
  cbv beta. rewrite Hc, Hdir. rewrite (JsFacts.truthy_Some cacheDir Hne).
  cbn [negb]. change (default "" (Some cacheDir)) with cacheDir. rewrite Hex.
  eapply runs_bind_nil; [apply runs_modify|]. apply runs_ret.
Qed.

Lemma resolveOptimizedModule_miss w root id s :
  Js.truthy (viteOptimizedMap s !! id) = false →
  Js.truthy (resolveOptimizedCacheDir w root) = false
  ∨ existsSync w (path_join [default "" (resolveOptimizedCacheDir w root); id]) = false →
  runs (Resolver.resolveOptimizedModule w root id) s None s [].
Proof.
  intros Hc Hmiss. unfold Resolver.resolveOptimizedModule.
  eapply runs_bind_nil; [apply runs_gets|].
  cbv beta. rewrite Hc. cbv zeta.
  destruct (Js.truthy (resolveOptimizedCacheDir w root)) eqn:Hdir; cbn [negb].
  - destruct Hmiss as [?|Hex]; [discriminate|]. rewrite Hex. apply runs_ret.
  - apply runs_ret.
Qed.

(** The three ways a lookup can go. *)
Lemma resolveOptimizedModule_cases w root id s :
  (Js.truthy (viteOptimizedMap s !! id) = true
   ∧ runs (Resolver.resolveOptimizedModule w root id) s (viteOptimizedMap s !! id) s [])
  ∨ (Js.truthy (viteOptimizedMap s !! id) = false
     ∧ ∃ cacheDir, resolveOptimizedCacheDir w root = Some cacheDir ∧ cacheDir ≠ ""
         ∧ existsSync w (path_join [cacheDir; id]) = true
         ∧ runs (Resolver.resolveOptimizedModule w root id) s
                (Some (path_join [cacheDir; id]))
                (with_viteOptimizedMap (insert id (path_join [cacheDir; id])) s) [])
  ∨ (Js.truthy (viteOptimizedMap s !! id) = false
     ∧ (Js.truthy (resolveOptimizedCacheDir w root) = false
        ∨ existsSync w (path_join [default "" (resolveOptimizedCacheDir w root); id])
          = false)
     ∧ runs (Resolver.resolveOptimizedModule w root id) s None s []).
Proof.
  destruct (Js.truthy (viteOptimizedMap s !! id)) eqn:Hc.
  { left. split; [done|]. by apply resolveOptimizedModule_hit. }
  right.
  destruct (Js.truthy (resolveOptimizedCacheDir w root)) eqn:Hdir.
  - destruct (JsFacts.truthy_inv _ Hdir) as (cacheDir & Hd & Hne).
    destruct (existsSync w (path_join [cacheDir; id])) eqn:Hex.
    + left. split; [done|]. exists cacheDir. repeat split; try done.
      by apply resolveOptimizedModule_found.
    + right. split; [done|]. rewrite Hd.
      change (default "" (Some cacheDir)) with cacheDir.
      split; [by right|]. apply resolveOptimizedModule_miss; [done|].
      right. by rewrite Hd.
  - right. split; [done|]. split; [by left|].
    apply resolveOptimizedModule_miss; [done|by left].
Qed.



(** The lookup always returns: it never raises, and it is silent. *)
Lemma resolveOptimizedModule_total w root id s :
  ∃ r s1, Resolver.resolveOptimizedModule w root id s = (Ok r, s1, []).
Proof.
  destruct (resolveOptimizedModule_cases w root id s)
    as [(_ & Hr)|[(_ & d & _ & _ & _ & Hr)|(_ & _ & Hr)]]; eauto.
Qed.

(** C6. With [path.join] as Node has it: for an identifier that has an
    optimized artifact, [resolveBareModuleRequest] returns the identifier
    itself, whatever the package resolver would find for it: the package
    resolver is not consulted, so its tables stay as they were and nothing
    is printed. *)
Theorem optimized_shadows_package_resolution w root id importer s :
  path_join_nonempty →
  Policy.artifact_exists w root id s →
  let r := Resolver.resolveBareModuleRequest w root id importer s in
  result_of r = Ok id
  ∧ outputs_of r = []
  ∧ nodeModulesInfoMap (store_of r) = nodeModulesInfoMap s
  ∧ nodeModulesFileMap (store_of r) = nodeModulesFileMap s.
Proof.
  intros Hjoin Hart r.
  assert (Hopt : ∃ file s1,
            runs (Resolver.resolveOptimizedModule w root id) s (Some file) s1 []
            ∧ file ≠ ""
            ∧ nodeModulesInfoMap s1 = nodeModulesInfoMap s
            ∧ nodeModulesFileMap s1 = nodeModulesFileMap s).
  { destruct (resolveOptimizedModule_cases w root id s)
      as [(Hc & Hr)|[(Hc & d & Hd & Hne & Hex & Hr)|(Hc & Hmiss & Hr)]].
    - destruct (JsFacts.truthy_inv _ Hc) as (file & Hin & Hne). rewrite Hin in Hr.
      eauto 10.
    - eexists _, _. split; [exact Hr|]. split; [apply Hjoin|]. split; reflexivity.
    - exfalso. destruct Hart as [Ht|(d & Hd & Hne & Hex)]; [congruence|].
      rewrite Hd in Hmiss. change (default "" (Some d)) with d in Hmiss.
      rewrite (JsFacts.truthy_Some d Hne) in Hmiss. destruct Hmiss; congruence. }
  destruct Hopt as (file & s1 & Hr & Hne & Hinfo & Hfile).
  assert (Hrun : runs (Resolver.resolveBareModuleRequest w root id importer) s id s1
                   ([] ++ [])).
  { unfold Resolver.resolveBareModuleRequest. eapply runs_bind; [exact Hr|].
    cbv beta. rewrite (JsFacts.truthy_Some file Hne). apply runs_ret. }
  unfold runs in Hrun. subst r. rewrite Hrun. done.
Qed.

(** *** Public path to file *)

Lemma resolveNodeModuleFile_cases w root id s :
  (Js.truthy (nodeModulesFileMap s !! id) = true
   ∧ runs (Resolver.resolveNodeModuleFile w root id) s (nodeModulesFileMap s !! id) s [])
  ∨ (Js.truthy (nodeModulesFileMap s !! id) = false
     ∧ ∃ resolved, resolveFrom w root id = Some resolved
         ∧ runs (Resolver.resolveNodeModuleFile w root id) s (Some resolved)
                (with_nodeModulesFileMap (insert id resolved) s) [])
  ∨ (Js.truthy (nodeModulesFileMap s !! id) = false
     ∧ resolveFrom w root id = None
     ∧ runs (Resolver.resolveNodeModuleFile w root id) s None s []).
Proof.
  unfold Resolver.resolveNodeModuleFile.
  destruct (Js.truthy (nodeModulesFileMap s !! id)) eqn:Hc.
  { left. split; [done|]. eapply runs_bind_nil; [apply runs_gets|].
    cbv beta. rewrite Hc. apply runs_ret. }
  right. destruct (resolveFrom w root id) as [resolved|] eqn:Hres.
  - left. split; [done|]. exists resolved. split; [done|].
    eapply runs_bind_nil; [apply runs_gets|]. cbv beta. rewrite Hc.
    eapply runs_bind_nil; [apply runs_modify|]. apply runs_ret.
  - right. split; [done|]. split; [done|].
    eapply runs_bind_nil; [apply runs_gets|]. cbv beta. rewrite Hc. apply runs_ret.
Qed.

(** The four ways through the module block of [defaultRequestToFile]. *)
Lemma module_block_cached w id root s :
  Js.truthy (idToFileMap s !! id) = true →
  runs (Resolver.defaultRequestToFile_module w id root) s (idToFileMap s !! id) s [].
Proof.
  intros Hi. unfold Resolver.defaultRequestToFile_module.
  eapply runs_bind_nil; [apply runs_gets|]. cbv beta. rewrite Hi. apply runs_ret.
Qed.

Lemma module_block_optimized w id root s om s1 :
  Js.truthy (idToFileMap s !! id) = false →
  runs (Resolver.resolveOptimizedModule w root id) s om s1 [] →
  Js.truthy om = true →
  runs (Resolver.defaultRequestToFile_module w id root) s om s1 [].
Proof.
  intros Hi Hom Ht. unfold Resolver.defaultRequestToFile_module.
  eapply runs_bind_nil; [apply runs_gets|]. cbv beta. rewrite Hi.
  eapply runs_bind_nil; [exact Hom|]. cbv beta. rewrite Ht. apply runs_ret.
Qed.

Lemma module_block_node w id root s s1 nm s2 :
  Js.truthy (idToFileMap s !! id) = false →
  runs (Resolver.resolveOptimizedModule w root id) s None s1 [] →
  runs (Resolver.resolveNodeModuleFile w root id) s1 nm s2 [] →
  Js.truthy nm = true →
  runs (Resolver.defaultRequestToFile_module w id root) s nm
       (with_idToFileMap (insert id (default "" nm)) s2) [].
Proof.
  intros Hi Hom Hnm Ht. unfold Resolver.defaultRequestToFile_module.
  eapply runs_bind_nil; [apply runs_gets|]. cbv beta. rewrite Hi.
  eapply runs_bind_nil; [exact Hom|]. cbv beta. cbn [Js.truthy].
  eapply runs_bind_nil; [exact Hnm|]. cbv beta. rewrite Ht.
  eapply runs_bind_nil; [apply runs_modify|]. apply runs_ret.
Qed.

Lemma module_block_falls_out w id root s s1 nm s2 :
  Js.truthy (idToFileMap s !! id) = false →
  runs (Resolver.resolveOptimizedModule w root id) s None s1 [] →
  runs (Resolver.resolveNodeModuleFile w root id) s1 nm s2 [] →
  Js.truthy nm = false →
  runs (Resolver.defaultRequestToFile_module w id root) s None s2 [].
Proof.
  intros Hi Hom Hnm Ht. unfold Resolver.defaultRequestToFile_module.
  eapply runs_bind_nil; [apply runs_gets|]. cbv beta. rewrite Hi.
  eapply runs_bind_nil; [exact Hom|]. cbv beta. cbn [Js.truthy].
  eapply runs_bind_nil; [exact Hnm|]. cbv beta. rewrite Ht. apply runs_ret.
Qed.

(** Run twice against one file system, the module block answers the same. *)
Lemma module_block_twice w id root s :
  path_join_nonempty →
  ∃ r s1 s2,
    runs (Resolver.defaultRequestToFile_module w id root) s r s1 []
    ∧ runs (Resolver.defaultRequestToFile_module w id root) s1 r s2 [].
Proof.
  intros Hjoin.
  destruct (Js.truthy (idToFileMap s !! id)) eqn:Hi.
  { exists (idToFileMap s !! id), s, s. split; by apply module_block_cached. }
  destruct (resolveOptimizedModule_cases w root id s)
    as [(Hc & Hr)|[(Hc & d & Hd & Hne & Hex & Hr)|(Hc & Hmiss & Hr)]].
  - exists (viteOptimizedMap s !! id), s, s.
    split; by apply module_block_optimized.
  - set (file := path_join [d; id]) in *.
    set (s1 := with_viteOptimizedMap (insert id file) s) in *.
    assert (Hf : Js.truthy (Some file) = true) by apply JsFacts.truthy_Some, Hjoin.
    assert (Hin : viteOptimizedMap s1 !! id = Some file) by apply lookup_insert_eq.
    exists (Some file), s1, s1. split.
    + by apply module_block_optimized.
    + apply module_block_optimized; [exact Hi| |exact Hf].
      rewrite <- Hin. apply resolveOptimizedModule_hit. by rewrite Hin.
  - destruct (resolveNodeModuleFile_cases w root id s)
      as [(Hn & Hnr)|[(Hn & resolved & Hres & Hnr)|(Hn & Hres & Hnr)]].
    + destruct (JsFacts.truthy_inv _ Hn) as (f & Hf & Hfne).
      set (s1 := with_idToFileMap (insert id (default "" (nodeModulesFileMap s !! id))) s).
      assert (Hin : idToFileMap s1 !! id = nodeModulesFileMap s !! id).
      { unfold s1. cbn [with_idToFileMap idToFileMap]. rewrite lookup_insert_eq.
        by rewrite Hf. }
      exists (nodeModulesFileMap s !! id), s1, s1. split.
      * by eapply module_block_node.
      * rewrite <- Hin. apply module_block_cached. by rewrite Hin.
    + destruct (Js.truthy (Some resolved)) eqn:Ht.
      * set (s0 := with_nodeModulesFileMap (insert id resolved) s) in *.
        set (s1 := with_idToFileMap (insert id (default "" (Some resolved))) s0).
        assert (Hin : idToFileMap s1 !! id = Some resolved) by apply lookup_insert_eq.
        exists (Some resolved), s1, s1. split.
        -- by eapply module_block_node.
        -- rewrite <- Hin. apply module_block_cached. by rewrite Hin.
      * set (s1 := with_nodeModulesFileMap (insert id resolved) s) in *.
        assert (Hagain : runs (Resolver.resolveNodeModuleFile w root id) s1 (Some resolved)
                           (with_nodeModulesFileMap (insert id resolved) s1) []).
        { unfold Resolver.resolveNodeModuleFile.
          eapply runs_bind_nil; [apply runs_gets|]. cbv beta.
          assert (Hl : nodeModulesFileMap s1 !! id = Some resolved)
            by apply lookup_insert_eq.
          rewrite Hl, Ht, Hres.
          eapply runs_bind_nil; [apply runs_modify|]. apply runs_ret. }
        exists None, s1, (with_nodeModulesFileMap (insert id resolved) s1). split.
        -- by eapply module_block_falls_out.
        -- eapply module_block_falls_out; [exact Hi| |exact Hagain|exact Ht].
           by apply resolveOptimizedModule_miss.
    + exists None, s, s. split; by eapply module_block_falls_out.
Qed.

Lemma defaultRequestToFile_twice w publicPath root s :
  path_join_nonempty →
  ∃ file s1 s2,
    runs (Resolver.defaultRequestToFile w publicPath root) s file s1 []
    ∧ runs (Resolver.defaultRequestToFile w publicPath root) s1 file s2 [].
Proof.
  intros Hjoin. unfold Resolver.defaultRequestToFile.
  destruct (moduleRE_strip publicPath) as [id|].
  - destruct (module_block_twice w id root s Hjoin) as (r & s1 & s2 & H1 & H2).
    destruct r as [file|].
    + exists file, s1, s2.
      split; (eapply runs_bind_nil; [eassumption|]; apply runs_ret).
    + destruct (existsSync w (path_join [root; "public"; Js.slice_from 1 publicPath]))
        eqn:Hex; eexists _, s1, s2;
        split; (eapply runs_bind_nil; [eassumption|]; cbv beta iota zeta;
                apply runs_ret).
  - destruct (existsSync w (path_join [root; "public"; Js.slice_from 1 publicPath]))
      eqn:Hex; eexists _, s, s;
      split; (eapply runs_bind_nil; [apply runs_ret|]; cbv beta iota zeta;
              apply runs_ret).
Qed.

(** Extension probing reads the file system only. *)
Lemma resolveExt_runs w id :
  ∃ ext out, ∀ s, runs (Resolver.resolveExt w id) s ext s out.
Proof.
  unfold Resolver.resolveExt. cbv zeta.
  destruct (negb (Resolver.isFile w (cleanUrl id))).
  - destruct (negb (String.eqb _ id)).
    + eexists _, _. intros s. unfold Resolver.debug. run_step. run_done.
    + eexists _, _. intros s. apply runs_ret.
  - eexists _, _. intros s. apply runs_ret.
Qed.

Lemma requestToFile_twice root resolvers w publicPath s :
  path_join_nonempty →
  ∃ file s1 o1 s2 o2,
    runs (Resolver.requestToFile root resolvers w publicPath) s file s1 o1
    ∧ runs (Resolver.requestToFile root resolvers w publicPath) s1 file s2 o2.
Proof.
  intros Hjoin. unfold Resolver.requestToFile, Resolver.resolveRequest. cbv zeta.
  destruct (Js.truthy (Resolver.first_custom UserResolver.requestToFile resolvers
                         publicPath root)) eqn:Hcustom; cbn [negb].
  - destruct (resolveExt_runs w
                (default "" (Resolver.first_custom UserResolver.requestToFile resolvers
                               publicPath root))) as (ext & out & Hext).
    eexists _, s, _, s, _.
    split; (eapply runs_bind;
            [eapply runs_bind; [apply runs_ret|];
             eapply runs_bind; [apply Hext|apply runs_ret]|];
            apply runs_ret).
  - destruct (defaultRequestToFile_twice w publicPath root s Hjoin)
      as (resolved & s1 & s2 & H1 & H2).
    destruct (resolveExt_runs w resolved) as (ext & out & Hext).
    eexists _, s1, _, s2, _.
    split; (eapply runs_bind;
            [eapply runs_bind; [eassumption|];
             eapply runs_bind; [apply Hext|apply runs_ret]|];
            apply runs_ret).
Qed.

Lemma fileToRequest_reads_reverse_map root resolvers filePath s s' :
  fileToRequestMap s' = fileToRequestMap s →
  result_of (Resolver.fileToRequest root resolvers filePath s')
  = result_of (Resolver.fileToRequest root resolvers filePath s).
Proof.
  intros Hmap. unfold Resolver.fileToRequest.
  destruct (Js.truthy (Resolver.first_custom _ _ _ _)); [reflexivity|].
  unfold Resolver.defaultFileToRequest, bind, gets, result_of. cbn [fst].
  rewrite Hmap. by destruct (Js.truthy (fileToRequestMap s !! filePath)).
Qed.

(** C4, as the code has it.  With [path.join] as Node has it: [requestToFile]
    runs the resolution on every call, and a second call with the same input
    that directly follows the first (the same file system, and no other call
    of the resolver in between) returns the path of the first;
    [fileToRequest] does not read the file system at all: its answer is
    determined by the input, the custom resolvers and the reverse file map,
    and it leaves the store as it was. *)
Theorem requestToFile_stable_on_unchanged_disk root resolvers w s input :
  path_join_nonempty →
  let first := Resolver.requestToFile root resolvers w input s in
  (∃ file, result_of first = Ok file
           ∧ result_of (Resolver.requestToFile root resolvers w input (store_of first))
             = Ok file)
  ∧ (∀ s', fileToRequestMap s' = fileToRequestMap s →
           result_of (Resolver.fileToRequest root resolvers input s')
           = result_of (Resolver.fileToRequest root resolvers input s))
  ∧ store_of (Resolver.fileToRequest root resolvers input s) = s.
Proof.
  intros Hjoin first. split; [|split].
  - destruct (requestToFile_twice root resolvers w input s Hjoin)
      as (file & s1 & o1 & s2 & o2 & H1 & H2).
    unfold runs in H1, H2. exists file. subst first. rewrite H1. cbn [store_of fst snd].
    rewrite H2. done.
  - intros s' Hmap. by apply fileToRequest_reads_reverse_map.
  - destruct (VueFacts.fileToRequest_runs root resolvers input s) as (p & Hp).
    unfold runs in Hp. by rewrite Hp.
Qed.

End WithNode.

End ResolverFacts.

(** ** The resolver on a concrete installation *)

Module ResolverRuns.

Import Demo.

Lemma join_nonempty : @path_join_nonempty plain_api.
Proof.
  intros segments. cbn [path_join plain_api Demo.api]. unfold Demo.join.
  destruct (Js.startsWith _ "/"); [discriminate|].
  destruct (String.eqb_spec (String.concat "/" (Demo.normalize
              (Demo.segments_of "" (String.concat "/" segments)))) ""); [discriminate|done].
Qed.

(** Through [resolveNodeModule], the manifest of C5 gives the entry [foo/a.js]. *)
Example foo_entry :
  result_of (@Resolver.resolveNodeModule plain_api installed "/r" "foo" Demo.empty_store)
  = Ok (Some {| entry := Some "foo/a.js";
                entryFilePath := Some "/r/node_modules/foo/a.js";
                pkg := foo_manifest |}).
Proof. vm_compute. reflexivity. Qed.

(** Without the pre-bundled artifact the bare import is rewritten to the entry. *)
Example foo_rewritten_when_not_optimized :
  result_of (@Resolver.resolveBareModuleRequest plain_api installed "/r" "foo" "/src/main.js"
               Demo.empty_store)
  = Ok "foo/a.js".
Proof. vm_compute. reflexivity. Qed.

(** With it, the identifier is left as it is although the package resolves. *)
Lemma optimized_shadows_package_resolution_witness :
  let r := @Resolver.resolveBareModuleRequest plain_api installed_and_optimized "/r" "foo"
             "/src/main.js" Demo.empty_store in
  result_of r = Ok "foo"
  ∧ outputs_of r = []
  ∧ nodeModulesInfoMap (store_of r) = nodeModulesInfoMap Demo.empty_store
  ∧ nodeModulesFileMap (store_of r) = nodeModulesFileMap Demo.empty_store.
Proof.
  apply (@ResolverFacts.optimized_shadows_package_resolution plain_api installed_and_optimized
           "/r" "foo" "/src/main.js" Demo.empty_store).
  - exact join_nonempty.
  - right. exists cacheDir. split; [reflexivity|]. split; [discriminate|].
    vm_compute. reflexivity.
Defined.


(** A miss is not recorded: the artifact is found once it is there. *)
Example miss_then_hit :
  @Resolver.resolveOptimizedModule plain_api installed "/r" "foo" Demo.empty_store
  = (Ok None, Demo.empty_store, [])
  ∧ result_of (@Resolver.resolveOptimizedModule plain_api installed_and_optimized "/r" "foo"
                 Demo.empty_store)
    = Ok (Some "/r/node_modules/.vite_opt_cache/foo").
Proof. split; vm_compute; reflexivity. Qed.

(** C4 fails: the second call of [requestToFile] for the same public path
    follows the file system as it is then, not the answer of the first call. *)
Lemma requestToFile_not_memoized :
  let first := @Resolver.requestToFile plain_api "/r" [] before "/logo.png" Demo.empty_store in
  let second := @Resolver.requestToFile plain_api "/r" [] after "/logo.png" (store_of first) in
  result_of first = Ok "/r/logo.png"
  ∧ result_of second = Ok "/r/public/logo.png"
  ∧ ¬ @Policy.memoized_by_input plain_api "/r" [].
Proof.
  assert (H1 : result_of (@Resolver.requestToFile plain_api "/r" [] before "/logo.png"
                            Demo.empty_store) = Ok "/r/logo.png")
    by (vm_compute; reflexivity).
  assert (H2 : result_of (@Resolver.requestToFile plain_api "/r" [] after "/logo.png"
                            (store_of (@Resolver.requestToFile plain_api "/r" [] before
                                         "/logo.png" Demo.empty_store)))
               = Ok "/r/public/logo.png")
    by (vm_compute; reflexivity).
  split; [exact H1|]. split; [exact H2|].
  intros [Hmemo _].
  specialize (Hmemo before after Demo.empty_store "/logo.png").
  rewrite H1, H2 in Hmemo. discriminate Hmemo.
Qed.

Lemma requestToFile_stable_on_unchanged_disk_witness :
  let first := @Resolver.requestToFile plain_api "/r" [] before "/logo.png" Demo.empty_store in
  (∃ file, result_of first = Ok file
           ∧ result_of (@Resolver.requestToFile plain_api "/r" [] before "/logo.png"
                          (store_of first))
             = Ok file)
  ∧ (∀ s', fileToRequestMap s' = fileToRequestMap Demo.empty_store →
           result_of (@Resolver.fileToRequest plain_api "/r" [] "/logo.png" s')
           = result_of (@Resolver.fileToRequest plain_api "/r" [] "/logo.png" Demo.empty_store))
  ∧ store_of (@Resolver.fileToRequest plain_api "/r" [] "/logo.png" Demo.empty_store)
    = Demo.empty_store.
Proof.
  apply (@ResolverFacts.requestToFile_stable_on_unchanged_disk plain_api "/r" [] before
           Demo.empty_store "/logo.png").
  exact join_nonempty.
Defined.

(** Why the second call has to follow the first directly: on one and the
    same file system, a rewrite of the bare import [x] between two requests
    for [/@modules/x/y] registers the entry of the package, and the second
    request is answered from that table. *)
Example requestToFile_follows_package_table :
  let first := @Resolver.requestToFile plain_api "/r" [] x_installed "/@modules/x/y"
                 Demo.empty_store in
  let between := @Resolver.resolveBareModuleRequest plain_api x_installed "/r" "x"
                   "/src/main.js" (store_of first) in
  let second := @Resolver.requestToFile plain_api "/r" [] x_installed "/@modules/x/y"
                  (store_of between) in
  result_of first = Ok "/r/@modules/x/y"
  ∧ result_of between = Ok "x/y"
  ∧ result_of second = Ok "/r/node_modules/x/y".
Proof. vm_compute. repeat split; reflexivity. Qed.

(** A module request is recomputed as well: the file that the first call
    resolved is kept, the extension is probed again. *)
Example module_request_memo :
  let first := @Resolver.requestToFile plain_api "/r" [] installed "/@modules/foo/a.js"
                 Demo.empty_store in
  result_of first = Ok "/r/node_modules/foo/a.js"
  ∧ idToFileMap (store_of first) !! "foo/a.js" = Some "/r/node_modules/foo/a.js".
Proof. split; vm_compute; reflexivity. Qed.

(** [fileToRequest] has no memo either: it follows the reverse file map. *)
Example fileToRequest_follows_reverse_map :
  let file := "/r/node_modules/foo/a.js" in
  let registered := mkStore ∅ {[ file := "/@modules/foo/a.js" ]} ∅ ∅ ∅ [] ∅ ∅ in
  result_of (@Resolver.fileToRequest plain_api "/r" [] file Demo.empty_store)
  = Ok "/node_modules/foo/a.js"
  ∧ result_of (@Resolver.fileToRequest plain_api "/r" [] file registered)
    = Ok "/@modules/foo/a.js".
Proof. split; vm_compute; reflexivity. Qed.

End ResolverRuns.

(** ** Block equality as a relation *)

Module BlockRelation.
Import Sfc.

(** X1. [isEqualBlock] relates every block to itself and is transitive, for
    all blocks; it is symmetric when the first block is a JS value (distinct
    attribute keys), so the order in which the handler passes the cached and
    the parsed block does not matter. *)
Theorem isEqualBlock_equivalence (a b c : option SFCBlock) :
  block_wf a →
  isEqualBlock a a = true
  ∧ (isEqualBlock a b = true → isEqualBlock b a = true)
  ∧ (isEqualBlock a b = true → isEqualBlock b c = true → isEqualBlock a c = true).
Proof.
  intros Ha. split; [|split].
  - destruct a as [x|]; [|reflexivity].
    apply SfcFacts.isEqualBlock_Some. done.
  - destruct a as [x|], b as [y|]; try done.
    rewrite !SfcFacts.isEqualBlock_Some. intros (Hc & Hlen & Hval).
    assert (Hincl : ∀ k, k ∈ Object_keys (attrs x) → k ∈ Object_keys (attrs y)).
    { intros k Hk. apply SfcFacts.prop_Some_iff. rewrite <- (Hval k Hk).
      by apply SfcFacts.prop_Some_iff. }
    split; [done|]. split; [done|].
    intros k Hk. symmetry. apply Hval.
    by apply (SfcFacts.keys_incl_same_length _ (Object_keys (attrs y))).
  - destruct a as [x|], b as [y|], c as [z|]; try done.
    rewrite !SfcFacts.isEqualBlock_Some.
    intros (Hc1 & Hl1 & Hv1) (Hc2 & Hl2 & Hv2).
    split; [congruence|]. split; [congruence|].
    intros k Hk. rewrite (Hv1 k Hk). apply Hv2.
    apply SfcFacts.prop_Some_iff. rewrite <- (Hv1 k Hk).
    by apply SfcFacts.prop_Some_iff.
Qed.

Lemma isEqualBlock_equivalence_witness :
  let x := mkBlock "p { }" [("scoped", ATrue); ("lang", AStr "scss")] None None in
  let y := mkBlock "p { }" [("lang", AStr "scss"); ("scoped", ATrue)] None None in
  isEqualBlock (Some x) (Some x) = true
  ∧ (isEqualBlock (Some x) (Some y) = true → isEqualBlock (Some y) (Some x) = true)
  ∧ (isEqualBlock (Some x) (Some y) = true → isEqualBlock (Some y) (Some x) = true
     → isEqualBlock (Some x) (Some x) = true).
Proof.
  intros x y. apply (isEqualBlock_equivalence (Some x) (Some y) (Some x)).
  simpl. compute_done.
Defined.

End BlockRelation.

(** ** More on the SFC cache and the HMR diff *)

Module HmrFacts.
Import MonadFacts VueFacts Views.

(** *** The cache as a list *)

Lemma length_del {V} (k : string) (c : Lru.t V) :
  (length (Lru.del k c) ≤ length c)%nat.
Proof.
  induction c as [|[k' v] c IH]; [done|]. simpl.
  destruct (String.eqb k' k); simpl; lia.
Qed.

Lemma length_del_present {V} (k : string) (c : Lru.t V) :
  is_Some (Lru.peek c k) → (length (Lru.del k c) < length c)%nat.
Proof.
  induction c as [|[k' v] c IH]; simpl.
  - intros [? ?]. discriminate.
  - destruct (String.eqb k' k).
    + intros _. pose proof (length_del k c). lia.
    + intros Hk. simpl. apply IH in Hk. lia.
Qed.

Lemma peek_set_ne {V} (max : N) (c : Lru.t V) (k k' : string) (v : V) :
  k ≠ k' → (N.of_nat (length (Lru.del k c)) < max)%N →
  Lru.peek (Lru.set max k v c) k' = Lru.peek c k'.
Proof.
  intros Hne Hroom. unfold Lru.set, Lru.trim.
  destruct (N.leb_spec (N.of_nat (length ((k, v) :: Lru.del k c))) max) as [_|Hgt].
  - simpl. destruct (String.eqb_spec k k'); [done|]. by apply LruFacts.peek_del_ne.
  - simpl in Hgt. lia.
Qed.

Lemma peek_busted_ne filePath other (c : Lru.t CacheEntry) :
  filePath ≠ other → Lru.peek (busted filePath c) other = Lru.peek c other.
Proof.
  intros Hne. unfold busted. rewrite LruFacts.peek_del_ne by done.
  apply LruFacts.peek_get_snd.
Qed.

Lemma length_busted filePath (c : Lru.t CacheEntry) :
  (length (Lru.del filePath (busted filePath c)) ≤ length c)%nat
  ∧ (is_Some (Lru.peek c filePath) →
     (length (Lru.del filePath (busted filePath c)) < length c)%nat).
Proof.
  unfold busted, Lru.get.
  destruct (Lru.peek c filePath) as [v|] eqn:Hk; cbn [snd].
  - assert (Hlt : (length (Lru.del filePath c) < length c)%nat)
      by (apply length_del_present; by rewrite Hk).
    simpl. rewrite String.eqb_refl.
    pose proof (length_del filePath (Lru.del filePath c)).
    pose proof (length_del filePath (Lru.del filePath (Lru.del filePath c))).
    split; [lia|]. intros _. lia.
  - pose proof (length_del filePath c).
    pose proof (length_del filePath (Lru.del filePath c)).
    split; [lia|]. intros [? ?]. discriminate.
Qed.

Section WithNode.
Context `{NodeApi}.

(** *** [parseSFC] *)

(** A file that cannot be read: nothing is parsed and nothing is stored. *)
Lemma parseSFC_unreadable w root filePath content s :
  Lru.peek (vueCache s) filePath = None →
  Policy.source_text w filePath content = None →
  runs (Vue.parseSFC w root filePath content) s None s [].
Proof.
  intros Hnone Htext. unfold Vue.parseSFC.
  assert (Hget : runs (Vue.vueCache_get filePath) s None s []).
  { unfold runs, Vue.vueCache_get, Lru.get. rewrite Hnone. by destruct s. }
  eapply runs_bind_nil; [exact Hget|]. simpl.
  unfold Policy.source_text in Htext. rewrite Htext. apply runs_ret.
Qed.

(** With a cached descriptor nothing is read or parsed. *)
Lemma parseSFC_hit w root filePath content s cached d :
  Lru.peek (vueCache s) filePath = Some cached →
  descriptor cached = Some d →
  runs (Vue.parseSFC w root filePath content) s (Some d)
       (with_vueCache (fun _ => (Lru.get (vueCache s) filePath).2) s)
       [Debug "vite:sfc" (filePath +:+ " parse cache hit")].
Proof.
  intros Hc Hd. unfold Vue.parseSFC.
  eapply runs_bind_nil; [apply vueCache_get_runs|].
  cbv beta. rewrite Hc. cbn [mbind option_bind]. rewrite Hd.
  unfold Vue.debug. change [Debug "vite:sfc" (filePath +:+ " parse cache hit")]
    with ([Debug "vite:sfc" (filePath +:+ " parse cache hit")] ++ []).
  eapply runs_bind; [apply runs_emit|apply runs_ret].
Qed.

(** X6. Once [parseSFC] has parsed a file into the cache, every later call
    for that file returns the descriptor of the first call with one debug
    line and no compiler diagnostics, whatever content it is handed and
    whatever the file has become on disk: only a change event, which deletes
    the entry, makes it parse again. *)
Theorem parseSFC_memoizes_descriptor w root filePath content s text parsed errors
    w' content' :
  Lru.peek (vueCache s) filePath = None →
  Policy.source_text w filePath content = Some text →
  sfc_parse root text filePath = (parsed, errors) →
  let first := Vue.parseSFC w root filePath content s in
  let second := Vue.parseSFC w' root filePath content' (store_of first) in
  result_of first = Ok (Some parsed)
  ∧ result_of second = Ok (Some parsed)
  ∧ outputs_of second = [Debug "vite:sfc" (filePath +:+ " parse cache hit")]
  ∧ Lru.peek (vueCache (store_of second)) filePath = Some (Vue.fresh_entry parsed).
Proof.
  intros Hnone Htext Hparse first second.
  destruct (parseSFC_fresh w root filePath content text parsed errors s Hnone Htext Hparse)
    as (out & Hrun & _).
  unfold runs in Hrun. subst second first. rewrite Hrun. cbn [store_of result_of fst snd].
  set (s1 := with_vueCache (Lru.set Vue.vueCache_max filePath (Vue.fresh_entry parsed)) s).
  assert (Hin : Lru.peek (vueCache s1) filePath = Some (Vue.fresh_entry parsed)).
  { apply LruFacts.peek_set_eq. reflexivity. }
  pose proof (parseSFC_hit w' root filePath content' s1 _ parsed Hin eq_refl) as Hhit.
  unfold runs in Hhit. rewrite Hhit. cbn [store_of result_of outputs_of fst snd].
  split; [done|]. split; [done|]. split; [done|].
  cbn [with_vueCache vueCache]. by rewrite LruFacts.peek_get_snd.
Qed.

(** *** [handleVueReload] with its final store *)

Lemma handleVueReload_unreadable root resolvers alias w filePath ts content s :
  Policy.source_text w filePath content = None →
  ∃ out,
    runs (Vue.handleVueReload root (Resolver.createResolver root resolvers alias)
            w filePath ts content) s tt
         (with_vueCache (fun _ => busted filePath (vueCache s)) s) out
    ∧ sent out = [].
Proof.
  intros Htext.
  destruct (fileToRequest_runs root resolvers filePath s) as (publicPath & Hpub).
  set (s1 := with_vueCache (fun _ => (Lru.get (vueCache s) filePath).2) s).
  set (s2 := with_vueCache (Lru.del filePath) s1).
  assert (Hnone : Lru.peek (vueCache s2) filePath = None) by apply LruFacts.peek_del_eq.
  pose proof (parseSFC_unreadable w root filePath content s2 Hnone Htext) as Hp.
  eexists. split.
  - unfold Vue.handleVueReload.
    eapply runs_bind; [exact Hpub|].
    eapply runs_bind; [apply vueCache_get_runs|].
    unfold Vue.debugHmr, Vue.vueCache_del. run_step.
    eapply runs_bind; [apply runs_modify|].
    eapply runs_bind; [exact Hp|].
    cbv beta iota. apply runs_ret.
  - reflexivity.
Qed.

Lemma handleVueReload_final_store root resolvers alias w filePath ts content s
    text next errors :
  Policy.source_text w filePath content = Some text →
  sfc_parse root text filePath = (next, errors) →
  store_of (Vue.handleVueReload root (Resolver.createResolver root resolvers alias)
              w filePath ts content s)
  = with_vueCache
      (fun _ => Lru.set Vue.vueCache_max filePath (Vue.fresh_entry next)
                  (busted filePath (vueCache s))) s.
Proof.
  intros Htext Hparse.
  destruct (fileToRequest_runs root resolvers filePath s) as (publicPath & Hpub).
  set (s1 := with_vueCache (fun _ => (Lru.get (vueCache s) filePath).2) s).
  set (s2 := with_vueCache (Lru.del filePath) s1).
  assert (Hnone : Lru.peek (vueCache s2) filePath = None) by apply LruFacts.peek_del_eq.
  destruct (parseSFC_fresh w root filePath content text next errors s2 Hnone Htext Hparse)
    as (op & Hp & Hsp).
  set (s3 := with_vueCache (Lru.set Vue.vueCache_max filePath (Vue.fresh_entry next)) s2)
    in Hp.
  assert (Hrun : ∃ out,
            runs (Vue.handleVueReload root (Resolver.createResolver root resolvers alias)
                    w filePath ts content) s tt s3 out).
  { destruct (Lru.peek (vueCache s) filePath ≫= descriptor) as [prev|] eqn:Hprev.
    - destruct (Sfc.isEqualBlock (Sfc.script next) (Sfc.script prev)) eqn:Hscript.
      2:{ eexists. unfold Vue.handleVueReload.
          eapply runs_bind; [exact Hpub|].
          eapply runs_bind; [apply vueCache_get_runs|].
          unfold Vue.debugHmr, Vue.vueCache_del. run_step.
          eapply runs_bind; [apply runs_modify|].
          eapply runs_bind; [exact Hp|].
          cbv beta iota. rewrite Hprev, Hscript. cbn [negb].
          unfold Vue.sendReload. run_step. run_done. }
      destruct (existsb Vue.is_module (Sfc.styles prev)
                || existsb Vue.is_module (Sfc.styles next)) eqn:Hmod.
      { eexists. unfold Vue.handleVueReload.
        eapply runs_bind; [exact Hpub|].
        eapply runs_bind; [apply vueCache_get_runs|].
        unfold Vue.debugHmr, Vue.vueCache_del. run_step.
        eapply runs_bind; [apply runs_modify|].
        eapply runs_bind; [exact Hp|].
        cbv beta iota. rewrite Hprev, Hscript. cbn [negb]. cbv zeta. rewrite Hmod.
        unfold Vue.sendReload. run_step. run_done. }
      destruct (update_loop_runs publicPath ts (Sfc.styles prev) (Sfc.styles next)
                  (Sfc.styles next) 0 false s3) as (flag1 & Hupd).
      destruct (remove_loop_runs publicPath ts (length (Sfc.styles next))
                  (drop (length (Sfc.styles next)) (Sfc.styles prev)) 0 flag1 s3)
        as (flag2 & Hrem).
      destruct (Policy.needsRerender prev next) eqn:Hneed, flag2.
      all: eexists; unfold Vue.handleVueReload;
        (eapply runs_bind; [exact Hpub|]);
        (eapply runs_bind; [apply vueCache_get_runs|]);
        unfold Vue.debugHmr, Vue.vueCache_del; run_step;
        (eapply runs_bind; [apply runs_modify|]);
        (eapply runs_bind; [exact Hp|]);
        cbv beta iota; rewrite Hprev, Hscript; cbn [negb]; cbv zeta; rewrite Hmod;
        rewrite needRerender_eq, Hneed;
        (eapply runs_bind; [exact Hupd|]);
        (eapply runs_bind; [exact Hrem|]);
        cbn [app]; run_step; run_done.
    - eexists. unfold Vue.handleVueReload.
      eapply runs_bind; [exact Hpub|].
      eapply runs_bind; [apply vueCache_get_runs|].
      unfold Vue.debugHmr, Vue.vueCache_del. run_step.
      eapply runs_bind; [apply runs_modify|].
      eapply runs_bind; [exact Hp|].
      cbv beta iota. rewrite Hprev. run_done. }
  destruct Hrun as (out & Hrun). unfold runs in Hrun. rewrite Hrun.
  by destruct s.
Qed.

(** *** What a change event sends *)

Lemma style_unchanged (P : list Sfc.SFCStyleBlock) (i : nat) :
  (i < length P)%nat → Vue.style_changed P P i = false.
Proof.
  intros Hi. unfold Vue.style_changed.
  destruct (P !! i) as [p|] eqn:Hp.
  - simpl. apply negb_false_iff. by apply SfcFacts.isEqualBlock_Some.
  - apply lookup_ge_None in Hp. lia.
Qed.

Lemma filter_none {A} (f : A → bool) (l : list A) :
  (∀ x, In x l → f x = false) → List.filter f l = [].
Proof.
  induction l as [|x l IH]; [done|]. intros Hall. simpl.
  rewrite (Hall x) by (by left). apply IH. intros y Hy. apply Hall. by right.
Qed.

Lemma diff_same publicPath ts (d : Sfc.SFCDescriptor) :
  existsb Vue.is_module (Sfc.styles d) = false → Policy.diff publicPath ts d d = [].
Proof.
  intros Hmod. unfold Policy.diff.
  assert (Hrefl : ∀ b, Sfc.isEqualBlock b b = true).
  { intros [x|]; [|reflexivity]. by apply SfcFacts.isEqualBlock_Some. }
  rewrite Hrefl, Hmod. cbn [negb orb].
  unfold Policy.updated_indices, Policy.removed_indices, Policy.needsRerender.
  rewrite Hrefl, Nat.sub_diag, eqb_reflx. cbn [negb orb seq map app].
  rewrite filter_none; [reflexivity|].
  intros i Hi. apply in_seq in Hi. apply style_unchanged. lia.
Qed.

(** X2. A change event for a file whose text parses to the descriptor that
    is cached (a save without an edit), with no CSS-module block, sends no
    notification at all. *)
Theorem unchanged_file_sends_nothing root resolvers alias w filePath ts content s
    cached prev text errors :
  Lru.peek (vueCache s) filePath = Some cached →
  descriptor cached = Some prev →
  Policy.source_text w filePath content = Some text →
  sfc_parse root text filePath = (prev, errors) →
  (∀ b, b ∈ Sfc.styles prev → Sfc.module b = None) →
  let r := Vue.handleVueReload root (Resolver.createResolver root resolvers alias)
             w filePath ts content s in
  result_of r = Ok tt ∧ sent (outputs_of r) = [].
Proof.
  intros Hc Hd Htext Hparse Hnomod r.
  destruct (fileToRequest_runs root resolvers filePath s) as (publicPath & Hpub).
  assert (Hres : result_of (Resolver.fileToRequest root resolvers filePath s)
                 = Ok publicPath) by (unfold runs in Hpub; by rewrite Hpub).
  destruct (handleVueReload_outcome root resolvers alias w filePath ts content s
              publicPath text prev errors Hres Htext Hparse) as (Hr & Hs & _).
  fold r in Hr, Hs. split; [exact Hr|].
  rewrite Hs, Hc. cbn [mbind option_bind]. rewrite Hd. apply diff_same.
  apply not_true_is_false. rewrite existsb_is_module.
  intros (b & Hin & Hb). by apply Hb, Hnomod.
Qed.

(** X3. Whatever the event, the cache and the file system: a change event
    returns normally, and what it sends is either the full reload alone, or
    style events followed by at most one rerender; a full reload is never
    mixed with anything else, and a rerender never precedes a style event. *)
Theorem reload_excludes_other_events root resolvers alias w filePath ts content s :
  let r := Vue.handleVueReload root (Resolver.createResolver root resolvers alias)
             w filePath ts content s in
  result_of r = Ok tt
  ∧ ∃ publicPath,
      result_of (Resolver.fileToRequest root resolvers filePath s) = Ok publicPath
      ∧ (sent (outputs_of r) = [VueReload publicPath ts]
         ∨ ∃ style_events rerender,
             sent (outputs_of r) = style_events ++ rerender
             ∧ Forall (fun p => Policy.is_style_event p = true) style_events
             ∧ (rerender = [] ∨ rerender = [VueRerender publicPath ts])).
Proof.
  intros r.
  destruct (fileToRequest_runs root resolvers filePath s) as (publicPath & Hpub).
  assert (Hres : result_of (Resolver.fileToRequest root resolvers filePath s)
                 = Ok publicPath) by (unfold runs in Hpub; by rewrite Hpub).
  destruct (Policy.source_text w filePath content) as [text|] eqn:Htext.
  - destruct (sfc_parse root text filePath) as [next errors] eqn:Hparse.
    destruct (handleVueReload_outcome root resolvers alias w filePath ts content s
                publicPath text next errors Hres Htext Hparse) as (Hr & Hs & _).
    fold r in Hr, Hs. split; [exact Hr|]. exists publicPath. split; [exact Hres|].
    rewrite Hs. destruct (Lru.peek (vueCache s) filePath ≫= descriptor) as [prev|].
    2:{ right. exists [], []. split; [done|]. split; [constructor|by left]. }
    unfold Policy.diff.
    destruct (negb (Sfc.isEqualBlock (Sfc.script next) (Sfc.script prev))); [by left|].
    destruct (existsb Vue.is_module (Sfc.styles prev)
              || existsb Vue.is_module (Sfc.styles next)); [by left|].
    right. eexists (_ ++ _), _. split; [by rewrite <- app_assoc|]. split.
    + apply Forall_app. split; apply Forall_forall; intros p Hp;
        apply list_elem_of_In, in_map_iff in Hp; destruct Hp as (i & <- & _); reflexivity.
    + destruct (Policy.needsRerender prev next); [by right|by left].
  - destruct (handleVueReload_unreadable root resolvers alias w filePath ts content s Htext)
      as (out & Hrun & Hsent).
    unfold runs in Hrun. subst r. rewrite Hrun. cbn [result_of outputs_of fst snd].
    split; [done|]. exists publicPath. split; [exact Hres|].
    right. exists [], []. rewrite Hsent. split; [done|]. split; [constructor|by left].
Qed.

(** X4. A change event for a file that cannot be read (no content handed
    over and the read fails) sends nothing and leaves the file without a
    cache entry: the entry it had is deleted, nothing replaces it, and the
    entries of other files read as before. *)
Theorem unreadable_file_drops_entry root resolvers alias w filePath ts content s :
  Policy.source_text w filePath content = None →
  let r := Vue.handleVueReload root (Resolver.createResolver root resolvers alias)
             w filePath ts content s in
  result_of r = Ok tt
  ∧ sent (outputs_of r) = []
  ∧ Lru.peek (vueCache (store_of r)) filePath = None
  ∧ ∀ other, other ≠ filePath →
      Lru.peek (vueCache (store_of r)) other = Lru.peek (vueCache s) other.
Proof.
  intros Htext r.
  destruct (handleVueReload_unreadable root resolvers alias w filePath ts content s Htext)
    as (out & Hrun & Hsent).
  unfold runs in Hrun. subst r. rewrite Hrun.
  cbn [result_of outputs_of store_of fst snd with_vueCache vueCache].
  split; [done|]. split; [done|]. split.
  - apply LruFacts.peek_del_eq.
  - intros other Hne. by apply peek_busted_ne.
Qed.

(** X5. A change event for one file leaves the cache entry of every other
    file as it was, provided the cache is not full, or holds at most its
    capacity and already has an entry for the changed file (so that storing
    the fresh descriptor evicts nothing). *)
Theorem other_entries_untouched root resolvers alias w filePath ts content s other :
  other ≠ filePath →
  (N.of_nat (length (vueCache s)) < Vue.vueCache_max)%N
  ∨ (is_Some (Lru.peek (vueCache s) filePath)
     ∧ (N.of_nat (length (vueCache s)) ≤ Vue.vueCache_max)%N) →
  Lru.peek
    (vueCache (store_of (Vue.handleVueReload root
                           (Resolver.createResolver root resolvers alias)
                           w filePath ts content s))) other
  = Lru.peek (vueCache s) other.
Proof.
  intros Hne Hroom.
  destruct (Policy.source_text w filePath content) as [text|] eqn:Htext.
  - destruct (sfc_parse root text filePath) as [next errors] eqn:Hparse.
    rewrite (handleVueReload_final_store root resolvers alias w filePath ts content s
               text next errors Htext Hparse).
    cbn [with_vueCache vueCache].
    rewrite peek_set_ne; [by apply peek_busted_ne|done|].
    destruct (length_busted filePath (vueCache s)) as (Hle & Hlt).
    destruct Hroom as [Hfree|(Hin & Hcap)]; [lia|]. apply Hlt in Hin. lia.
  - destruct (handleVueReload_unreadable root resolvers alias w filePath ts content s Htext)
      as (out & Hrun & _).
    unfold runs in Hrun. rewrite Hrun. cbn [store_of fst snd with_vueCache vueCache].
    by apply peek_busted_ne.
Qed.

End WithNode.
End HmrFacts.

(** ** More on the resolver *)

Module ResolutionFacts.
Import MonadFacts Views.

(** *** Strings *)

Lemma substring_all (s : string) : substring 0 (String.length s) s = s.
Proof. induction s as [|c s IH]; [reflexivity|]. simpl. by rewrite IH. Qed.

Lemma slice_leading_slash (s : string) : Js.slice_from 1 ("/" +:+ s) = s.
Proof.
  unfold Js.slice_from. change ("/" +:+ s) with (String "/" s).
  cbn [String.length substring Nat.sub]. rewrite Nat.sub_0_r. apply substring_all.
Qed.

Lemma app_cons (c : ascii) (s t : string) : String c s +:+ t = String c (s +:+ t).
Proof. reflexivity. Qed.

Lemma app_empty_r (s : string) : s +:+ "" = s.
Proof. induction s as [|c s IH]; [reflexivity|]. by rewrite app_cons, IH. Qed.

Lemma append_assoc (a b c : string) : (a +:+ b) +:+ c = a +:+ (b +:+ c).
Proof.
  induction a as [|x a IH]; [reflexivity|]. by rewrite !app_cons, IH.
Qed.

Lemma app_nonempty (a b : string) : a ≠ "" → a +:+ b ≠ "".
Proof. destruct a; [done|discriminate]. Qed.

(** *** Deep imports *)

Lemma split_slash_app (s run rest : string) :
  Resolver.split_slash s = Some (run, rest) → s = run +:+ "/" +:+ rest.
Proof.
  revert run. induction s as [|c s IH]; intros run; simpl; [discriminate|].
  destruct (Ascii.eqb_spec c "/"%char) as [->|Hc].
  - intros [= <- <-]. reflexivity.
  - destruct (Resolver.split_slash s) as [[run' rest']|]; [|discriminate].
    intros [= <- <-]. rewrite app_cons. f_equal. by apply IH.
Qed.

Lemma split_slash_no_slash (s run rest : string) :
  Resolver.split_slash s = Some (run, rest) → Resolver.split_slash run = None.
Proof.
  revert run. induction s as [|c s IH]; intros run; simpl; [discriminate|].
  destruct (Ascii.eqb_spec c "/"%char) as [->|Hc].
  - intros [= <- <-]. reflexivity.
  - destruct (Resolver.split_slash s) as [[run' rest']|]; [|discriminate].
    intros [= <- <-]. simpl.
    destruct (Ascii.eqb_spec c "/"%char); [done|]. by rewrite (IH run').
Qed.

(** X14. When the deep-import pattern matches an identifier, the package
    part it extracts is non-empty and is followed in the identifier by a
    slash: the identifier is the package part, a slash and a remainder.  For
    a scoped identifier the package part is the scope and the name, each
    non-empty and free of slashes.  An identifier without a slash is never a
    deep import. *)
Theorem deep_import_names_a_prefix (id : string) :
  (∀ depId, Resolver.deepImportRE_match id = Some depId →
     depId ≠ ""
     ∧ (∃ rest, id = depId +:+ "/" +:+ rest)
     ∧ (Js.startsWith id "@" = true →
        ∃ scope name, depId = "@" +:+ scope +:+ "/" +:+ name
                      ∧ scope ≠ "" ∧ name ≠ ""
                      ∧ Resolver.split_slash scope = None
                      ∧ Resolver.split_slash name = None))
  ∧ (Resolver.split_slash id = None → Resolver.deepImportRE_match id = None).
Proof.
  split.
  - intros depId. destruct id as [|c s]; simpl; [discriminate|].
    destruct (Ascii.eqb_spec c "@"%char) as [->|Hc]; cbn [negb].
    + destruct (Resolver.split_slash s) as [[scope rest]|] eqn:Hs; [|discriminate].
      destruct (Resolver.split_slash rest) as [[name rest']|] eqn:Hr; [|discriminate].
      destruct (String.eqb_spec scope "") as [|Hscope]; [discriminate|].
      destruct (String.eqb_spec name "") as [|Hname]; [discriminate|].
      cbn [negb andb]. intros [= <-]. split; [discriminate|]. split.
      * exists rest'. apply split_slash_app in Hs, Hr. subst s rest.
        change (String "@" ?x) with ("@" +:+ x). by rewrite !append_assoc.
      * intros _. exists scope, name. repeat split; try done.
        -- by eapply split_slash_no_slash.
        -- by eapply split_slash_no_slash.
    + destruct (Resolver.split_slash s) as [[run rest]|] eqn:Hs; [|discriminate].
      intros [= <-]. split; [discriminate|]. split.
      * exists rest. apply split_slash_app in Hs. subst s. reflexivity.
      * unfold Js.startsWith. simpl.
        destruct (Ascii.eqb_spec c "@"%char); [done|]. discriminate.
  - destruct id as [|c s]; simpl; [done|].
    destruct (Ascii.eqb_spec c "/"%char); [discriminate|].
    destruct (Resolver.split_slash s) as [[run rest]|]; [discriminate|].
    intros _. by destruct (negb (Ascii.eqb c "@"%char)).
Qed.

Example deep_import_plain :
  Resolver.deepImportRE_match "lodash-es/debounce" = Some "lodash-es".
Proof. reflexivity. Qed.

Example deep_import_scoped :
  Resolver.deepImportRE_match "@vue/shared/dist/shared.js" = Some "@vue/shared".
Proof. reflexivity. Qed.

Example not_deep_scoped_package :
  Resolver.deepImportRE_match "@vue/shared" = None.
Proof. reflexivity. Qed.

Section WithNode.
Context `{NodeApi}.

(** *** Extension probing *)

(** X7. Extension probing takes the first hit in the order of the list:
    the inferred extension belongs to the first extension of the list that
    has a candidate file, every extension before it has none, and for that
    extension the file [path + ext] wins over [path/index + ext]; when no
    extension has a candidate the result is the empty string. *)
Theorem inferExt_first_hit (w : World) (cleanId : string) (exts : list string) :
  (Resolver.inferExt w cleanId exts = ""
   ∧ ∀ ext, ext ∈ exts → no_candidate w cleanId ext)
  ∨ ∃ before ext after,
      exts = before ++ ext :: after
      ∧ (∀ e, e ∈ before → no_candidate w cleanId e)
      ∧ ((Resolver.isFile w (cleanId +:+ ext) = true
          ∧ Resolver.inferExt w cleanId exts = ext)
         ∨ (Resolver.isFile w (cleanId +:+ ext) = false
            ∧ Resolver.isFile w (path_join [cleanId; "/index" +:+ ext]) = true
            ∧ Resolver.inferExt w cleanId exts = "/index" +:+ ext)).
Proof.
  induction exts as [|e exts IH]; simpl.
  - left. split; [done|]. intros ext Hin. by apply elem_of_nil in Hin.
  - destruct (Resolver.isFile w (cleanId +:+ e)) eqn:Hdirect.
    { right. exists [], e, exts. split; [done|]. split.
      - intros e' Hin. by apply elem_of_nil in Hin.
      - left. done. }
    destruct (Resolver.isFile w (path_join [cleanId; "/index" +:+ e])) eqn:Hindex.
    { right. exists [], e, exts. split; [done|]. split.
      - intros e' Hin. by apply elem_of_nil in Hin.
      - right. done. }
    destruct IH as [(Hnone & Hall)|(before & ext & after & -> & Hbefore & Hhit)].
    + left. split; [done|]. intros ext Hin.
      apply elem_of_cons in Hin as [->|Hin]; [by split|by apply Hall].
    + right. exists (e :: before), ext, after. split; [done|]. split; [|done].
      intros e' Hin. apply elem_of_cons in Hin as [->|Hin]; [by split|by apply Hbefore].
Qed.

(** *** Custom resolvers and aliases *)

Lemma first_custom_first_truthy method pre r post arg root p :
  (∀ r', r' ∈ pre → Js.truthy (answer method r' arg root) = false) →
  answer method r arg root = Some p → p ≠ "" →
  Resolver.first_custom method (pre ++ r :: post) arg root = Some p.
Proof.
  intros Hpre Hr Hp. induction pre as [|r0 pre IH]; simpl.
  - fold (answer method r arg root). rewrite Hr, (JsFacts.truthy_Some p Hp). done.
  - fold (answer method r0 arg root). rewrite (Hpre r0) by left.
    apply IH. intros r' Hin. apply Hpre. by right.
Qed.

(** X8. A custom resolver that answers a request with a non-empty path
    takes precedence over the built-in resolution, and over every custom
    resolver after it; resolvers before it that lack the method or answer
    with nothing (or the empty string) are passed over.  The result is that
    path with the probed extension, and the resolver tables are not touched. *)
Theorem custom_resolver_takes_precedence root pre r post w publicPath s p :
  (∀ r', r' ∈ pre →
         Js.truthy (answer UserResolver.requestToFile r' publicPath root) = false) →
  answer UserResolver.requestToFile r publicPath root = Some p →
  p ≠ "" →
  let run := Resolver.requestToFile root (pre ++ r :: post) w publicPath s in
  store_of run = s
  ∧ ∃ ext, result_of (Resolver.resolveExt w p s) = Ok ext
           ∧ result_of run = Ok (p +:+ default "" ext).
Proof.
  intros Hpre Hr Hp run.
  pose proof (first_custom_first_truthy UserResolver.requestToFile pre r post
                publicPath root p Hpre Hr Hp) as Hfirst.
  destruct (ResolverFacts.resolveExt_runs w p) as (ext & out & Hext).
  assert (Hval : (if Js.truthy ext then p +:+ default "" ext else p)
                 = p +:+ default "" ext).
  { destruct ext as [e|]; cbn [Js.truthy].
    - destruct (String.eqb_spec e "") as [->|Hne]; cbn [negb]; [|done].
      change (default "" (Some "")) with "". by rewrite app_empty_r.
    - change (default "" None) with "". by rewrite app_empty_r. }
  assert (Hrun : runs (Resolver.requestToFile root (pre ++ r :: post) w publicPath) s
                   (fst (if Js.truthy ext then p +:+ default "" ext else p, ext)) s
                   (([] ++ out ++ []) ++ [])).
  { unfold Resolver.requestToFile, Resolver.resolveRequest. cbv zeta.
    rewrite Hfirst, (JsFacts.truthy_Some p Hp). cbn [negb].
    change (default "" (Some p)) with p.
    eapply runs_bind.
    - eapply runs_bind; [apply runs_ret|].
      eapply runs_bind; [apply Hext|]. apply runs_ret.
    - apply runs_ret. }
  cbn [fst] in Hrun. rewrite Hval in Hrun.
  unfold runs in Hrun. subst run. rewrite Hrun. cbn [store_of result_of fst snd].
  split; [done|]. exists ext. split; [|done].
  specialize (Hext s). unfold runs in Hext. by rewrite Hext.
Qed.

Lemma first_alias_truthy_or_none resolvers id :
  Resolver.first_alias resolvers id = None
  ∨ Js.truthy (Resolver.first_alias resolvers id) = true.
Proof.
  induction resolvers as [|r resolvers IH]; simpl; [by left|].
  destruct (Js.truthy (match UserResolver.alias r with
                       | Some f => f id | None => None end)) eqn:Ht; [by right|exact IH].
Qed.

(** X9. [alias] reads the alias object before it asks the custom resolvers.
    A non-empty own entry is the answer whatever the resolvers say.  So is a
    value that the object inherits from [Object.prototype] under a name for
    which it has no own entry ([constructor], [toString], ...): that value is
    returned, although it is not a string, and no resolver is asked.  An
    identifier with an empty own entry, or with no own entry and no inherited
    one, is passed to the resolvers in order.  The answer is never the empty
    string. *)
Theorem alias_table_first root resolvers (table : gmap string string) id :
  let resolved := InternalResolver.alias (Resolver.createResolver root resolvers table) id in
  (∀ literal, table !! id = Some literal → literal ≠ "" →
     resolved = Some (JsObject.Str literal))
  ∧ (table !! id = None → id ∈ JsObject.prototype_names →
     resolved = Some (JsObject.Inherited id))
  ∧ (table !! id = Some "" ∨ (table !! id = None ∧ id ∉ JsObject.prototype_names) →
     resolved = JsObject.Str <$> Resolver.first_alias resolvers id)
  ∧ resolved ≠ Some (JsObject.Str "").
Proof.
  intros resolved. subst resolved.
  cbn [InternalResolver.alias Resolver.createResolver]. unfold JsObject.get.
  split; [|split; [|split]].
  - intros literal Hin Hne. rewrite Hin. cbn [JsObject.truthy].
    by destruct (String.eqb_spec literal "").
  - intros Hin Hname. rewrite Hin, bool_decide_eq_true_2 by done. reflexivity.
  - intros [Hin|[Hin Hname]]; rewrite Hin; [reflexivity|].
    rewrite bool_decide_eq_false_2 by done. reflexivity.
  - destruct (table !! id) as [literal|] eqn:Hin.
    + cbn [JsObject.truthy]. destruct (String.eqb_spec literal "") as [->|Hne].
      * cbn [negb]. destruct (first_alias_truthy_or_none resolvers id) as [->|Hta];
          [done|].
        destruct (JsFacts.truthy_inv _ Hta) as (l & -> & Hl). cbn. congruence.
      * cbn [negb]. congruence.
    + destruct (bool_decide (id ∈ JsObject.prototype_names)); cbn [JsObject.truthy].
      * discriminate.
      * destruct (first_alias_truthy_or_none resolvers id) as [->|Hta]; [done|].
        destruct (JsFacts.truthy_inv _ Hta) as (l & -> & Hl). cbn. congruence.
Qed.

(** *** From a file to its public path and back *)

(** X10. For a file that the custom resolvers do not handle, that has no
    entry in the reverse file map, whose root-relative public path is outside
    the module namespace and is not shadowed by a file of the public
    directory, and that exists: the public path computed by [fileToRequest]
    is mapped back to the file by [requestToFile], with the resolver tables
    untouched.  [path.join(root, path.relative(root, file))] is assumed to
    give the file back, as it does for a file under the root. *)
Theorem file_request_round_trip root resolvers w filePath s :
  Js.truthy (Resolver.first_custom UserResolver.fileToRequest resolvers filePath root)
  = false →
  Js.truthy (fileToRequestMap s !! filePath) = false →
  let publicPath := "/" +:+ slash (path_relative root filePath) in
  Js.truthy (Resolver.first_custom UserResolver.requestToFile resolvers publicPath root)
  = false →
  moduleRE_strip publicPath = None →
  existsSync w (path_join [root; "public"; slash (path_relative root filePath)]) = false →
  path_join [root; slash (path_relative root filePath)] = filePath →
  Resolver.isFile w (cleanUrl filePath) = true →
  Resolver.fileToRequest root resolvers filePath s = (Ok publicPath, s, [])
  ∧ Resolver.requestToFile root resolvers w publicPath s = (Ok filePath, s, []).
Proof.
  intros Hcustom Hmap publicPath Hcustom' Hmod Hpublic Hjoin Hfile. split.
  - unfold Resolver.fileToRequest. rewrite Hcustom.
    unfold Resolver.defaultFileToRequest.
    change (runs (let* moduleRequest := gets (fun s0 => fileToRequestMap s0 !! filePath)
                  in if Js.truthy moduleRequest then ret (default "" moduleRequest)
                     else ret ("/" +:+ slash (path_relative root filePath)))
              s publicPath s []).
    eapply runs_bind_nil; [apply runs_gets|]. cbv beta. rewrite Hmap. apply runs_ret.
  - change (runs (Resolver.requestToFile root resolvers w publicPath) s filePath s []).
    assert (Hrr : runs (Resolver.resolveRequest root resolvers w publicPath) s
                    (filePath, None) s []).
    { unfold Resolver.resolveRequest. cbv zeta. rewrite Hcustom'. cbn [negb].
      eapply runs_bind_nil.
      { unfold Resolver.defaultRequestToFile. rewrite Hmod.
        eapply runs_bind_nil; [apply runs_ret|]. cbv beta iota zeta.
        unfold publicPath. rewrite slice_leading_slash, Hpublic, Hjoin. apply runs_ret. }
      eapply runs_bind_nil.
      { unfold Resolver.resolveExt. cbv zeta. rewrite Hfile. cbn [negb]. apply runs_ret. }
      apply runs_ret. }
    unfold Resolver.requestToFile.
    eapply runs_bind_nil; [exact Hrr|]. apply runs_ret.
Qed.

(** *** The package resolver *)

Lemma resolveNodeModule_hit w root id s info :
  nodeModulesInfoMap s !! id = Some info →
  runs (Resolver.resolveNodeModule w root id) s (Some info) s [].
Proof.
  intros Hin. unfold Resolver.resolveNodeModule.
  eapply runs_bind_nil; [apply runs_gets|]. cbv beta. rewrite Hin. apply runs_ret.
Qed.

Lemma resolveNodeModule_no_manifest w root id s :
  nodeModulesInfoMap s !! id = None →
  manifest_at w root id = None →
  runs (Resolver.resolveNodeModule w root id) s None s [].
Proof.
  intros Hin Hman. unfold Resolver.resolveNodeModule.
  eapply runs_bind_nil; [apply runs_gets|]. cbv beta. rewrite Hin. cbv zeta.
  unfold manifest_at in Hman.
  destruct (Js.truthy (resolveFrom w root (id +:+ "/package.json"))); [|apply runs_ret].
  destruct (readManifest w (default "" (resolveFrom w root (id +:+ "/package.json"))));
    [discriminate|apply runs_ret].
Qed.

Lemma raises_bind_r {A B} (m : M A) (k : A → M B) s a s1 o1 e s2 o2 :
  runs m s a s1 o1 → k a s1 = (Throw e, s2, o2) → bind m k s = (Throw e, s2, o1 ++ o2).
Proof. unfold runs, bind. intros -> ->. reflexivity. Qed.

Lemma resolveNodeModule_fresh w root id s pkgPath pkg :
  nodeModulesInfoMap s !! id = None →
  manifest_at w root id = Some (pkgPath, pkg) →
  fresh_outcome id pkg s (Resolver.resolveNodeModule w root id s).
Proof.
  intros Hin Hman. unfold manifest_at in Hman.
  destruct (Js.truthy (resolveFrom w root (id +:+ "/package.json"))) eqn:Hpath;
    [|discriminate].
  destruct (readManifest w (default "" (resolveFrom w root (id +:+ "/package.json"))))
    as [pkg'|] eqn:Hread; [|discriminate].
  injection Hman as <- <-.
  destruct pkg' as [| b | z | t | items | fields].
  { assert (Hthrow : ∃ e, Resolver.resolveNodeModule w root id s = (Throw e, s, [] ++ [])).
    { eexists. unfold Resolver.resolveNodeModule.
      eapply raises_bind_r; [apply runs_gets|]. cbv beta. rewrite Hin. cbv zeta.
      rewrite Hpath, Hread. reflexivity. }
    destruct Hthrow as (e & ->). apply fresh_raises. by left. }
  all: match goal with
       | |- fresh_outcome _ ?p _ _ =>
           destruct (Json.truthy (Resolver.select_entryPoint p)) eqn:Hentry;
           [destruct (Resolver.select_entryPoint p)
              as [[| b' | z' | t' | items' | fields']|] eqn:Hsel;
            try discriminate Hentry|]
       end.
  (* a truthy entry that is not a string *)
  all: try match type of Hsel with
       | _ = Some (Json.JStr _) => fail 1
       | _ =>
           assert (Hthrow : ∃ e out, Resolver.resolveNodeModule w root id s = (Throw e, s, out));
           [eexists _, _; unfold Resolver.resolveNodeModule;
            eapply raises_bind_r; [apply runs_gets|]; cbv beta; rewrite Hin; cbv zeta;
            rewrite Hpath, Hread; cbv iota; rewrite Hsel; unfold Resolver.debug;
            eapply raises_bind_r; [apply runs_emit|]; rewrite Hentry; reflexivity
           |destruct Hthrow as (e & out & ->); apply fresh_raises; right;
            split; [by rewrite Hsel|]; intros t0; rewrite Hsel; discriminate]
       end.
  (* a string entry *)
  all: try match type of Hsel with
       | _ = Some (Json.JStr ?t') =>
           destruct (ResolverFacts.resolveExt_runs w
             (path_join [path_dirname
                           (default "" (resolveFrom w root (id +:+ "/package.json")));
                         t'])) as (ext & oext & Hext);
           eassert (Hrun : runs (Resolver.resolveNodeModule w root id) s _ _ _);
           [unfold Resolver.resolveNodeModule;
            eapply runs_bind; [apply runs_gets|]; cbv beta; rewrite Hin; cbv zeta;
            rewrite Hpath, Hread; cbv iota; rewrite Hsel; unfold Resolver.debug;
            eapply runs_bind; [apply runs_emit|];
            rewrite Hentry;
            eapply runs_bind; [apply Hext|];
            eapply runs_bind; [apply runs_modify|];
            eapply runs_bind; [apply runs_modify|]; apply runs_ret
           |unfold runs in Hrun; rewrite Hrun; apply fresh_entry;
            [rewrite Hsel; by eexists
            |intros Hjoin; destruct (Js.truthy ext); [apply app_nonempty|]; apply Hjoin]]
       end.
  (* no entry *)
  all: eassert (Hrun : runs (Resolver.resolveNodeModule w root id) s _ _ _);
    [unfold Resolver.resolveNodeModule;
     eapply runs_bind; [apply runs_gets|]; cbv beta; rewrite Hin; cbv zeta;
     rewrite Hpath, Hread; cbv iota; unfold Resolver.debug;
     eapply runs_bind; [apply runs_emit|];
     rewrite Hentry;
     eapply runs_bind; [apply runs_modify|]; apply runs_ret
    |unfold runs in Hrun; rewrite Hrun; by apply fresh_no_entry].
Qed.

(** A resolution that returns a package has it in the table afterwards. *)
Lemma resolveNodeModule_recorded w root id s info s1 out :
  Resolver.resolveNodeModule w root id s = (Ok (Some info), s1, out) →
  nodeModulesInfoMap s1 !! id = Some info
  ∧ viteOptimizedMap s1 = viteOptimizedMap s
  ∧ idToFileMap s1 = idToFileMap s.
Proof.
  intros Hcall.
  destruct (nodeModulesInfoMap s !! id) as [info0|] eqn:Hin.
  { pose proof (resolveNodeModule_hit w root id s info0 Hin) as Hhit.
    unfold runs in Hhit. rewrite Hhit in Hcall. injection Hcall as <- <- <-. done. }
  destruct (manifest_at w root id) as [[pkgPath pkg]|] eqn:Hman.
  - pose proof (resolveNodeModule_fresh w root id s pkgPath pkg Hin Hman) as Hf.
    rewrite Hcall in Hf. inversion Hf; subst.
    + split; [apply lookup_insert_eq|done].
    + split; [apply lookup_insert_eq|done].
  - pose proof (resolveNodeModule_no_manifest w root id s Hin Hman) as Hmiss.
    unfold runs in Hmiss. rewrite Hmiss in Hcall. discriminate.
Qed.

(** X11. The package resolver memoizes a resolved package and nothing
    else: once a call has returned the package information for an
    identifier, every later call for it returns that information from the
    table, silently and whatever the file system has become; a call that
    finds no manifest, or one that cannot be read or parsed, returns nothing,
    prints nothing and records nothing. *)
Theorem package_resolution_memoized w root id s r s1 out :
  Resolver.resolveNodeModule w root id s = (Ok r, s1, out) →
  match r with
  | Some info =>
      ∀ w' root', Resolver.resolveNodeModule w' root' id s1 = (Ok (Some info), s1, [])
  | None =>
      s1 = s ∧ out = []
      ∧ nodeModulesInfoMap s !! id = None ∧ manifest_at w root id = None
  end.
Proof.
  intros Hcall. destruct r as [info|].
  - intros w' root'.
    destruct (resolveNodeModule_recorded w root id s info s1 out Hcall) as (Hin & _).
    apply (resolveNodeModule_hit w' root' id s1 info Hin).
  - destruct (nodeModulesInfoMap s !! id) as [info0|] eqn:Hin.
    { pose proof (resolveNodeModule_hit w root id s info0 Hin) as Hhit.
      unfold runs in Hhit. rewrite Hhit in Hcall. discriminate. }
    destruct (manifest_at w root id) as [[pkgPath pkg]|] eqn:Hman.
    + pose proof (resolveNodeModule_fresh w root id s pkgPath pkg Hin Hman) as Hf.
      rewrite Hcall in Hf. inversion Hf.
    + pose proof (resolveNodeModule_no_manifest w root id s Hin Hman) as Hmiss.
      unfold runs in Hmiss. rewrite Hmiss in Hcall. by injection Hcall as <- <-.
Qed.

(** X12. With [path.join] as Node has it: a first resolution of a package
    that has an entry registers the composed entry path with the entry file,
    so that [resolveNodeModuleFile] answers that path from the table,
    whatever the file system has become, without resolving it again. *)
Theorem package_entry_registered w root id s info s1 out e :
  path_join_nonempty →
  nodeModulesInfoMap s !! id = None →
  Resolver.resolveNodeModule w root id s = (Ok (Some info), s1, out) →
  entry info = Some e →
  ∃ f, entryFilePath info = Some f
       ∧ ∀ w' root', Resolver.resolveNodeModuleFile w' root' e s1 = (Ok (Some f), s1, []).
Proof.
  intros Hjoin Hin Hcall He.
  destruct (manifest_at w root id) as [[pkgPath pkg]|] eqn:Hman.
  2:{ pose proof (resolveNodeModule_no_manifest w root id s Hin Hman) as Hmiss.
      unfold runs in Hmiss. rewrite Hmiss in Hcall. discriminate. }
  pose proof (resolveNodeModule_fresh w root id s pkgPath pkg Hin Hman) as Hf.
  rewrite Hcall in Hf. inversion Hf as [| |e' f o Hstr Hne]; subst; [discriminate He|].
  cbn [entry] in He. injection He as ->. exists f. split; [reflexivity|].
  intros w' root'.
  set (s1 := with_nodeModulesInfoMap _ _).
  assert (Hlook : nodeModulesFileMap s1 !! e = Some f) by apply lookup_insert_eq.
  destruct (ResolverFacts.resolveNodeModuleFile_cases w' root' e s1)
    as [(_ & Hr)|[(Ht & _)|(Ht & _)]].
  - unfold runs in Hr. by rewrite Hr, Hlook.
  - rewrite Hlook, (JsFacts.truthy_Some f (Hne Hjoin)) in Ht. discriminate.
  - rewrite Hlook, (JsFacts.truthy_Some f (Hne Hjoin)) in Ht. discriminate.
Qed.

(** X15. A manifest whose chosen entry is defined but is not a string (an
    object of nested conditions under [exports["."].import], say) makes
    [resolveNodeModule] raise on the first resolution, when it joins the
    entry to the package directory; nothing is recorded, and without an
    optimized artifact [resolveBareModuleRequest] raises with it. *)
Theorem non_string_entry_raises w root id importer s pkgPath pkg :
  nodeModulesInfoMap s !! id = None →
  manifest_at w root id = Some (pkgPath, pkg) →
  Json.truthy (Resolver.select_entryPoint pkg) = true →
  (∀ t, Resolver.select_entryPoint pkg ≠ Some (Json.JStr t)) →
  (∃ e out, Resolver.resolveNodeModule w root id s = (Throw e, s, out))
  ∧ (¬ Policy.artifact_exists w root id s →
     ∃ e out, Resolver.resolveBareModuleRequest w root id importer s = (Throw e, s, out)).
Proof.
  intros Hin Hman Htruthy Hnostr.
  pose proof (resolveNodeModule_fresh w root id s pkgPath pkg Hin Hman) as Hf.
  assert (Hraise : ∃ e out, Resolver.resolveNodeModule w root id s = (Throw e, s, out)).
  { inversion Hf as [e out Hwhy Heq| out Hfalsy info Heq
                     | e f out (t & Ht) Hne info Heq].
    - eauto.
    - congruence.
    - by destruct (Hnostr t). }
  split; [exact Hraise|]. intros Hnone.
  destruct Hraise as (e & out & Hraise).
  destruct (ResolverFacts.resolveOptimizedModule_cases w root id s)
    as [(Hc & _)|[(_ & d & Hd & Hne & Hex & _)|(_ & _ & Hr)]].
  - destruct Hnone. by left.
  - destruct Hnone. right. eauto.
  - exists e, ([] ++ out). unfold Resolver.resolveBareModuleRequest.
    eapply raises_bind_r; [exact Hr|]. cbn [Js.truthy].
    unfold bind. by rewrite Hraise.
Qed.

(** *** Rewriting a bare import *)

Lemma length_app (a b : string) :
  String.length (a +:+ b) = (String.length a + String.length b)%nat.
Proof. induction a as [|c a IH]; [reflexivity|]. rewrite app_cons. simpl. by rewrite IH. Qed.

Lemma deep_import_differs (id depId : string) :
  Resolver.deepImportRE_match id = Some depId → depId ≠ id.
Proof.
  intros Hm Heq.
  assert (Hlen : ∃ rest, id = depId +:+ "/" +:+ rest).
  { destruct id as [|c s]; simpl in Hm; [discriminate|].
    destruct (Ascii.eqb_spec c "@"%char) as [->|Hc]; cbn [negb] in Hm.
    - destruct (Resolver.split_slash s) as [[scope rest]|] eqn:Hs; [|discriminate].
      destruct (Resolver.split_slash rest) as [[name rest']|] eqn:Hr; [|discriminate].
      destruct (negb (String.eqb scope "") && negb (String.eqb name "")); [|discriminate].
      injection Hm as <-. exists rest'. apply split_slash_app in Hs, Hr. subst s rest.
      change (String "@" ?x) with ("@" +:+ x). by rewrite !append_assoc.
    - destruct (Resolver.split_slash s) as [[run rest]|] eqn:Hs; [|discriminate].
      injection Hm as <-. exists rest. apply split_slash_app in Hs. by subst s. }
  destruct Hlen as (rest & Hid). apply (f_equal String.length) in Hid.
  rewrite !length_app in Hid. subst depId. simpl in Hid. lia.
Qed.

Lemma rewrite_artifact w root id importer s f s1 :
  runs (Resolver.resolveOptimizedModule w root id) s (Some f) s1 [] → f ≠ "" →
  runs (Resolver.resolveBareModuleRequest w root id importer) s id s1 [].
Proof.
  intros Hr Hne. unfold Resolver.resolveBareModuleRequest.
  eapply runs_bind_nil; [exact Hr|]. cbv beta.
  rewrite (JsFacts.truthy_Some f Hne). apply runs_ret.
Qed.

Lemma rewrite_package w root id importer s info s1 out :
  runs (Resolver.resolveOptimizedModule w root id) s None s [] →
  runs (Resolver.resolveNodeModule w root id) s (Some info) s1 out →
  ∃ out', runs (Resolver.resolveBareModuleRequest w root id importer) s
               (if Js.truthy (entry info) then default "" (entry info) else id) s1 out'.
Proof.
  intros Hr Hn. unfold Resolver.resolveBareModuleRequest.
  destruct (Js.truthy (entry info)) eqn:He; eexists.
  - eapply runs_bind; [exact Hr|]. cbn [Js.truthy].
    eapply runs_bind; [exact Hn|]. cbv beta iota. rewrite He. cbn [negb].
    eapply runs_bind; [apply runs_ret|apply runs_ret].
  - eapply runs_bind; [exact Hr|]. cbn [Js.truthy].
    eapply runs_bind; [exact Hn|]. cbv beta iota. rewrite He. cbn [negb].
    eapply runs_bind; [apply runs_emit|apply runs_ret].
Qed.

Lemma rewrite_no_package w root id importer s :
  runs (Resolver.resolveOptimizedModule w root id) s None s [] →
  runs (Resolver.resolveNodeModule w root id) s None s [] →
  ∃ s1 out', runs (Resolver.resolveBareModuleRequest w root id importer) s
                  (by_extension id) s1 out'
             ∧ nodeModulesInfoMap s1 = nodeModulesInfoMap s
             ∧ viteOptimizedMap s1 !! id = viteOptimizedMap s !! id.
Proof.
  intros Hr Hn. unfold Resolver.resolveBareModuleRequest, by_extension. cbv zeta.
  destruct (String.eqb (path_extname id) "" || Resolver.jsSrcRE_test (path_extname id))
    eqn:Hext.
  2:{ eexists s, _. split; [|done].
      eapply runs_bind; [exact Hr|]. cbn [Js.truthy].
      eapply runs_bind; [exact Hn|]. cbv beta iota zeta. rewrite ?Hext. apply runs_ret. }
  destruct (Resolver.deepImportRE_match id) as [depId|] eqn:Hdeep.
  2:{ eexists s, _. split; [|done].
      eapply runs_bind; [exact Hr|]. cbn [Js.truthy].
      eapply runs_bind; [exact Hn|]. cbv beta iota zeta. rewrite ?Hext, ?Hdeep.
      eapply runs_bind; [apply runs_ret|apply runs_ret]. }
  pose proof (deep_import_differs id depId Hdeep) as Hne.
  destruct (ResolverFacts.resolveOptimizedModule_cases w root depId s)
    as [(Hc & Hd)|[(Hc & d & _ & _ & _ & Hd)|(Hc & _ & Hd)]].
  - destruct (Js.truthy (viteOptimizedMap s !! depId)) eqn:Ht; [|discriminate].
    eexists s, _. split; [|done].
    eapply runs_bind; [exact Hr|]. cbn [Js.truthy].
    eapply runs_bind; [exact Hn|]. cbv beta iota zeta. rewrite ?Hext, ?Hdeep.
    eapply runs_bind; [|apply runs_ret].
    eapply runs_bind; [exact Hd|]. cbv beta. rewrite Ht. apply runs_emit.
  - destruct (Js.truthy (Some (path_join [d; depId]))) eqn:Ht;
      eexists (with_viteOptimizedMap (insert depId (path_join [d; depId])) s), _;
      (split; [|split; [done|by apply lookup_insert_ne]]);
      (eapply runs_bind; [exact Hr|]); cbn [Js.truthy];
      (eapply runs_bind; [exact Hn|]); cbv beta iota zeta; rewrite ?Hext, ?Hdeep;
      (eapply runs_bind; [|apply runs_ret]);
      (eapply runs_bind; [exact Hd|]); cbv beta; rewrite Ht;
      [apply runs_emit|apply runs_ret].
  - eexists s, _. split; [|done].
    eapply runs_bind; [exact Hr|]. cbn [Js.truthy].
    eapply runs_bind; [exact Hn|]. cbv beta iota zeta. rewrite ?Hext, ?Hdeep.
    eapply runs_bind; [|apply runs_ret].
    eapply runs_bind; [exact Hd|]. cbv beta. cbn [Js.truthy]. apply runs_ret.
Qed.

Lemma rewrite_raises w root id importer s e out :
  runs (Resolver.resolveOptimizedModule w root id) s None s [] →
  Resolver.resolveNodeModule w root id s = (Throw e, s, out) →
  Resolver.resolveBareModuleRequest w root id importer s = (Throw e, s, [] ++ out).
Proof.
  intros Hr Hn. unfold Resolver.resolveBareModuleRequest.
  eapply raises_bind_r; [exact Hr|]. cbn [Js.truthy]. unfold bind. by rewrite Hn.
Qed.

(** How a package resolution can end, with the store it leaves. *)
Lemma resolveNodeModule_ends w root id s :
  (∃ info s1 out, runs (Resolver.resolveNodeModule w root id) s (Some info) s1 out
                  ∧ nodeModulesInfoMap s1 !! id = Some info
                  ∧ viteOptimizedMap s1 = viteOptimizedMap s)
  ∨ (runs (Resolver.resolveNodeModule w root id) s None s []
     ∧ nodeModulesInfoMap s !! id = None ∧ manifest_at w root id = None)
  ∨ (∃ e out, Resolver.resolveNodeModule w root id s = (Throw e, s, out)).
Proof.
  destruct (nodeModulesInfoMap s !! id) as [info0|] eqn:Hin.
  { left. exists info0, s, []. split; [by apply resolveNodeModule_hit|done]. }
  destruct (manifest_at w root id) as [[pkgPath pkg]|] eqn:Hman.
  - pose proof (resolveNodeModule_fresh w root id s pkgPath pkg Hin Hman) as Hf.
    inversion Hf as [e out Hwhy Heq| out Hfalsy info Heq | e f out Hstr Hne info Heq].
    + right. right. eauto.
    + left. eexists _, _, _. split; [symmetry; exact Heq|].
      split; [apply lookup_insert_eq|done].
    + left. eexists _, _, _. split; [symmetry; exact Heq|].
      split; [apply lookup_insert_eq|done].
  - right. left. split; [by apply resolveNodeModule_no_manifest|done].
Qed.

(** X13. With [path.join] as Node has it, and as long as the file system
    does not change: a bare import is rewritten to the same identifier (or
    raises the same error) when it is met a second time, in whatever
    importing file, although the first rewrite has filled the resolver
    tables. *)
Theorem bare_import_rewrite_is_stable w root id importer importer' s :
  path_join_nonempty →
  result_of (Resolver.resolveBareModuleRequest w root id importer'
               (store_of (Resolver.resolveBareModuleRequest w root id importer s)))
  = result_of (Resolver.resolveBareModuleRequest w root id importer s).
Proof.
  intros Hjoin.
  destruct (ResolverFacts.resolveOptimizedModule_cases w root id s)
    as [(Hc & Hr)|[(Hc & d & Hd & Hne & Hex & Hr)|(Hc & Hmiss & Hr)]].
  - destruct (JsFacts.truthy_inv _ Hc) as (f & Hf & Hfne). rewrite Hf in Hr.
    pose proof (rewrite_artifact w root id importer s f s Hr Hfne) as H1.
    pose proof (rewrite_artifact w root id importer' s f s Hr Hfne) as H2.
    unfold runs in H1, H2. rewrite H1. cbn [store_of fst snd]. by rewrite H2.
  - set (file := path_join [d; id]) in *.
    set (s1 := with_viteOptimizedMap (insert id file) s) in *.
    pose proof (rewrite_artifact w root id importer s file s1 Hr (Hjoin _)) as H1.
    assert (Hin : viteOptimizedMap s1 !! id = Some file) by apply lookup_insert_eq.
    assert (Hhit : runs (Resolver.resolveOptimizedModule w root id) s1 (Some file) s1 []).
    { rewrite <- Hin. apply ResolverFacts.resolveOptimizedModule_hit.
      rewrite Hin. apply JsFacts.truthy_Some, Hjoin. }
    pose proof (rewrite_artifact w root id importer' s1 file s1 Hhit (Hjoin _)) as H2.
    unfold runs in H1, H2. rewrite H1. cbn [store_of fst snd]. by rewrite H2.
  - destruct (resolveNodeModule_ends w root id s)
      as [(info & s1 & out & Hn & Hrec & Hsame)|[(Hn & Hin & Hman)|(e & out & Hn)]].
    + destruct (rewrite_package w root id importer s info s1 out Hr Hn) as (o1 & H1).
      assert (Hr1 : runs (Resolver.resolveOptimizedModule w root id) s1 None s1 []).
      { apply ResolverFacts.resolveOptimizedModule_miss; [by rewrite Hsame|done]. }
      pose proof (resolveNodeModule_hit w root id s1 info Hrec) as Hn1.
      destruct (rewrite_package w root id importer' s1 info s1 [] Hr1 Hn1) as (o2 & H2).
      unfold runs in H1, H2. rewrite H1. cbn [store_of fst snd]. by rewrite H2.
    + destruct (rewrite_no_package w root id importer s Hr Hn)
        as (s1 & o1 & H1 & Hinfo & Hopt).
      assert (Hr1 : runs (Resolver.resolveOptimizedModule w root id) s1 None s1 []).
      { apply ResolverFacts.resolveOptimizedModule_miss; [by rewrite Hopt|done]. }
      assert (Hn1 : runs (Resolver.resolveNodeModule w root id) s1 None s1 []).
      { apply resolveNodeModule_no_manifest; [by rewrite Hinfo|done]. }
      destruct (rewrite_no_package w root id importer' s1 Hr1 Hn1)
        as (s2 & o2 & H2 & _).
      unfold runs in H1, H2. rewrite H1. cbn [store_of fst snd]. by rewrite H2.
    + pose proof (rewrite_raises w root id importer s e out Hr Hn) as H1.
      pose proof (rewrite_raises w root id importer' s e out Hr Hn) as H2.
      rewrite H1. cbn [store_of fst snd]. by rewrite H2.
Qed.

End WithNode.

End ResolutionFacts.

(** ** More on the stylesheet change handler *)

Module StylesheetFacts.
Import MonadFacts.

Section WithNode.
Context `{NodeApi}.

(** The handler as a table of its four outcomes. *)
Lemma onChange_table root resolvers alias now filePath publicPath s :
  Js.endsWith filePath ".css" || cssPreprocessLangRE_test filePath = true →
  result_of (Resolver.fileToRequest root resolvers filePath s) = Ok publicPath →
  Css.onChange (Resolver.createResolver root resolvers alias) now filePath s
  = match srcImportMap s !! filePath with
    | Some styleImport =>
        (Ok tt, with_vueCache (Lru.del filePath) s,
         [ConsoleLog ("[vite:hmr] " +:+ cleanUrl styleImport +:+ " updated. (style)");
          Send (StyleUpdate (cleanUrl styleImport +:+ "?type=style&index="
                             +:+ qs_index styleImport) now)])
    | None =>
        match processedCSS s !! publicPath with
        | None =>
            (Ok tt, s,
             [Debug "vite:css"
                (path_basename publicPath
                 +:+ " has changed, but it is not currently in use")])
        | Some _ =>
            if Js.endsWith filePath ".module.css"
            then (Ok tt, s, [HandleJSReload filePath now])
            else (Ok tt, with_processedCSS (delete publicPath) s,
                  [Send (StyleUpdate publicPath now)])
        end
    end.
Proof.
  intros Hcss Hpub. apply VueFacts.fileToRequest_result in Hpub.
  destruct (srcImportMap s !! filePath) as [styleImport|] eqn:Hsrc;
    [|destruct (processedCSS s !! publicPath) as [entry|] eqn:Hproc;
      [destruct (Js.endsWith filePath ".module.css") eqn:Hmod|]].
  all: lazymatch goal with
       | |- ?f ?s0 = (Ok ?r, ?s', ?o) => change (runs f s0 r s' o)
       end.
  all: unfold Css.onChange; rewrite Hcss;
    (eapply runs_bind_nil; [exact Hpub|]);
    (eapply runs_bind_nil; [apply runs_gets|]);
    (eapply runs_bind_nil; [apply runs_gets|]);
    cbv beta; rewrite Hsrc, ?Hproc.
  - rewrite (bool_decide_eq_true_2 (is_Some (Some styleImport))) by eauto.
    rewrite andb_false_r.
    eapply runs_bind_nil; [apply runs_modify|].
    eapply (runs_bind _ _ _ _ _ [_]); [apply runs_emit|apply runs_emit].
  - rewrite (bool_decide_eq_true_2 (is_Some (Some entry))) by eauto.
    cbn [negb andb]. rewrite Hmod. apply runs_emit.
  - rewrite (bool_decide_eq_true_2 (is_Some (Some entry))) by eauto.
    cbn [negb andb]. rewrite Hmod.
    eapply runs_bind_nil; [apply runs_modify|]. apply runs_emit.
  - rewrite !bool_decide_eq_false_2 by (intros [? ?]; discriminate).
    cbn [negb andb]. apply runs_emit.
Qed.

(** X16. What the stylesheet handler does with a change event, whatever the
    file and the tables.  In one case it hands the file over to
    [watcher.handleJSReload], which is outside these files and whose effects
    are not described here: a [.module.css] file that no style block names
    as its [src]; the call is the handler's only action, so up to it nothing
    is printed or sent and no table is written.  In every other case the
    handler returns normally and sends at most one notification, which is a
    [style-update]; it writes to no table but the SFC cache and the
    processed-CSS table. *)
Theorem stylesheet_change_one_update_or_hand_over root resolvers alias now filePath s :
  let r := Css.onChange (Resolver.createResolver root resolvers alias) now filePath s in
  (Views.handed_over (outputs_of r) = []
   ∧ result_of r = Ok tt
   ∧ (sent (outputs_of r) = [] ∨ ∃ path, sent (outputs_of r) = [StyleUpdate path now])
   ∧ srcImportMap (store_of r) = srcImportMap s
   ∧ idToFileMap (store_of r) = idToFileMap s
   ∧ fileToRequestMap (store_of r) = fileToRequestMap s
   ∧ viteOptimizedMap (store_of r) = viteOptimizedMap s
   ∧ nodeModulesInfoMap (store_of r) = nodeModulesInfoMap s
   ∧ nodeModulesFileMap (store_of r) = nodeModulesFileMap s)
  ∨ (outputs_of r = [HandleJSReload filePath now]
     ∧ store_of r = s
     ∧ Js.endsWith filePath ".module.css" = true
     ∧ srcImportMap s !! filePath = None).
Proof.
  intros r. subst r.
  destruct (Js.endsWith filePath ".css" || cssPreprocessLangRE_test filePath) eqn:Hcss.
  2:{ left. unfold Css.onChange. rewrite Hcss. cbn. repeat split; by left. }
  destruct (VueFacts.fileToRequest_runs root resolvers filePath s) as (publicPath & Hpub).
  assert (Hres : result_of (Resolver.fileToRequest root resolvers filePath s)
                 = Ok publicPath) by (unfold runs in Hpub; by rewrite Hpub).
  rewrite (onChange_table root resolvers alias now filePath publicPath s Hcss Hres).
  destruct (srcImportMap s !! filePath) as [styleImport|].
  - left. cbn. repeat split; eauto.
  - destruct (processedCSS s !! publicPath) as [entry|].
    + destruct (Js.endsWith filePath ".module.css") eqn:Hmod.
      * right. done.
      * left. cbn. repeat split; eauto.
    + left. cbn. repeat split; eauto.
Qed.

(** X17. The decision order for a stylesheet that is in use.  A file
    recorded as the [src] of a style block comes first: its compiled entry
    in the SFC cache is dropped and the importing component's style block is
    updated, while the processed-CSS table is left alone even if it has the
    file.  Otherwise a [.module.css] file is handed to the JS reload handler:
    nothing is sent and its processed entry stays.  Otherwise the processed
    entry is deleted and one [style-update] for the public path is sent. *)
Theorem stylesheet_change_decision_order root resolvers alias now filePath publicPath s :
  Js.endsWith filePath ".css" || cssPreprocessLangRE_test filePath = true →
  result_of (Resolver.fileToRequest root resolvers filePath s) = Ok publicPath →
  let r := Css.onChange (Resolver.createResolver root resolvers alias) now filePath s in
  (∀ styleImport, srcImportMap s !! filePath = Some styleImport →
     sent (outputs_of r)
     = [StyleUpdate (cleanUrl styleImport +:+ "?type=style&index="
                     +:+ qs_index styleImport) now]
     ∧ processedCSS (store_of r) = processedCSS s
     ∧ Lru.peek (vueCache (store_of r)) filePath = None)
  ∧ (srcImportMap s !! filePath = None → is_Some (processedCSS s !! publicPath) →
     Js.endsWith filePath ".module.css" = true →
     outputs_of r = [HandleJSReload filePath now] ∧ store_of r = s)
  ∧ (srcImportMap s !! filePath = None → is_Some (processedCSS s !! publicPath) →
     Js.endsWith filePath ".module.css" = false →
     outputs_of r = [Send (StyleUpdate publicPath now)]
     ∧ processedCSS (store_of r) !! publicPath = None
     ∧ vueCache (store_of r) = vueCache s).
Proof.
  intros Hcss Hres r. subst r.
  rewrite (onChange_table root resolvers alias now filePath publicPath s Hcss Hres).
  split; [|split].
  - intros styleImport ->. cbn. split; [done|]. split; [done|].
    apply LruFacts.peek_del_eq.
  - intros -> [entry ->] ->. done.
  - intros -> [entry ->] ->. cbn. split; [done|]. split; [|done].
    apply lookup_delete_eq.
Qed.

End WithNode.
End StylesheetFacts.

(** ** The template slot of the SFC cache *)

Module TemplateFacts.
Import MonadFacts.

Section WithNode.
Context `{NodeApi} `{ServeApi}.

Lemma report_template_errors_run filePath block errors start :
  Forall (VueServe.printable block) errors →
  ∃ out, (∀ s, runs (forEach_from start errors
                       (fun _ e _ => VueServe.report_template_error filePath block e) tt)
                    s tt s out)
         ∧ sent out = [].
Proof.
  intros Hall. revert start. induction Hall as [|e errors He Hall IH]; intros start.
  - exists []. split; [|reflexivity]. intros s. apply runs_ret.
  - destruct (IH (S start)) as (out & Hrun & Hsent).
    destruct e as [text|e]; simpl in He.
    + eexists. split.
      * intros s. cbn [forEach_from]. eapply runs_bind; [apply runs_emit|apply Hrun].
      * rewrite sent_app, Hsent. reflexivity.
    + destruct He as (original & rest & Hmap). eexists. split.
      * intros s. cbn [forEach_from]. eapply runs_bind; [|apply Hrun].
        unfold VueServe.report_template_error. rewrite Hmap.
        eapply runs_bind; [apply runs_emit|].
        eapply runs_bind; [apply runs_emit|]. apply runs_emit.
      * rewrite !sent_app, Hsent. reflexivity.
Qed.

Lemma compileSFCTemplate_hit root block filePath publicPath scoped userOptions s entry code :
  Lru.peek (vueCache s) filePath = Some entry →
  template entry = Some code → code ≠ "" →
  runs (VueServe.compileSFCTemplate root block filePath publicPath scoped userOptions) s
       code (with_vueCache (fun _ => (Lru.get (vueCache s) filePath).2) s)
       [Debug "vite:sfc" (publicPath +:+ " template cache hit")].
Proof.
  intros Hin Ht Hne. unfold VueServe.compileSFCTemplate.
  eapply runs_bind_nil; [apply VueFacts.vueCache_get_runs|].
  cbv beta. rewrite Hin. cbn [mbind option_bind]. rewrite Ht.
  rewrite (JsFacts.truthy_Some code Hne). unfold Vue.debug.
  change [Debug "vite:sfc" (publicPath +:+ " template cache hit")]
    with ([Debug "vite:sfc" (publicPath +:+ " template cache hit")] ++ []).
  eapply runs_bind; [apply runs_emit|apply runs_ret].
Qed.

Lemma compileSFCTemplate_miss root block filePath publicPath scoped userOptions s :
  Js.truthy (Lru.peek (vueCache s) filePath ≫= template) = false →
  Forall (VueServe.printable block)
    (result_errors (VueServe.compilation root block filePath publicPath scoped userOptions)) →
  ∃ out,
    runs (VueServe.compileSFCTemplate root block filePath publicPath scoped userOptions) s
         (VueServe.finalCode (VueServe.compilation root block filePath publicPath scoped userOptions))
         (with_vueCache
            (fun _ =>
               Lru.set Vue.vueCache_max filePath
                 (VueServe.with_template
                    (VueServe.finalCode (VueServe.compilation root block filePath publicPath scoped
                                  userOptions))
                    (default Vue.empty_entry (Lru.peek (vueCache s) filePath)))
                 (Lru.get (vueCache s) filePath).2) s) out
    ∧ sent out = [].
Proof.
  intros Hmiss Hprint.
  destruct (report_template_errors_run filePath block
              (result_errors (VueServe.compilation root block filePath publicPath scoped
                                userOptions)) 0 Hprint) as (oerr & Herr & Hsent).
  set (s1 := with_vueCache (fun _ => (Lru.get (vueCache s) filePath).2) s).
  unfold VueServe.compilation in *.
  destruct (result_errors _) as [|e errors] eqn:Herrors.
  - eexists. split.
    + unfold VueServe.compileSFCTemplate.
      eapply runs_bind; [apply VueFacts.vueCache_get_runs|].
      cbv beta. rewrite Hmiss. cbv zeta. rewrite Herrors.
      eapply runs_bind; [apply runs_ret|].
      eapply runs_bind; [apply runs_modify|].
      unfold Vue.debug. eapply runs_bind; [apply runs_emit|]. apply runs_ret.
    + reflexivity.
  - eexists. split.
    + unfold VueServe.compileSFCTemplate.
      eapply runs_bind; [apply VueFacts.vueCache_get_runs|].
      cbv beta. rewrite Hmiss. cbv zeta. rewrite Herrors.
      eapply runs_bind.
      { eapply runs_bind; [apply runs_emit|]. unfold forEach. apply (Herr s1). }
      eapply runs_bind; [apply runs_modify|].
      unfold Vue.debug. eapply runs_bind; [apply runs_emit|]. apply runs_ret.
    + rewrite !sent_app, Hsent. reflexivity.
Qed.

(** X18. The template slot is filled on first access and read afterwards:
    a call of [compileSFCTemplate] for a file whose entry has no template
    code compiles the block and returns the code with its source map string,
    also when the compiler reported diagnostics (as long as they can be
    printed); it keeps the other slots of the entry; and if that code is not
    empty, every later call for the file returns it from the cache with one
    debug line, whatever block, public path and options it is given. *)
Theorem template_slot_memoized root block filePath publicPath scoped userOptions s
    root' block' publicPath' scoped' userOptions' :
  Js.truthy (Lru.peek (vueCache s) filePath ≫= template) = false →
  Forall (VueServe.printable block)
    (result_errors (VueServe.compilation root block filePath publicPath scoped
                      userOptions)) →
  VueServe.finalCode (VueServe.compilation root block filePath publicPath scoped
                        userOptions) ≠ "" →
  let code := VueServe.finalCode (VueServe.compilation root block filePath publicPath
                                    scoped userOptions) in
  let first := VueServe.compileSFCTemplate root block filePath publicPath scoped
                 userOptions s in
  let second := VueServe.compileSFCTemplate root' block' filePath publicPath' scoped'
                  userOptions' (store_of first) in
  result_of first = Ok code
  ∧ sent (outputs_of first) = []
  ∧ Lru.peek (vueCache (store_of first)) filePath
    = Some (VueServe.with_template code
              (default Vue.empty_entry (Lru.peek (vueCache s) filePath)))
  ∧ result_of second = Ok code
  ∧ outputs_of second = [Debug "vite:sfc" (publicPath' +:+ " template cache hit")].
Proof.
  intros Hmiss Hprint Hne code first second.
  destruct (compileSFCTemplate_miss root block filePath publicPath scoped userOptions s
              Hmiss Hprint) as (out & Hrun & Hsent).
  fold code in Hrun. unfold runs in Hrun. subst second first. rewrite Hrun.
  cbn [result_of outputs_of store_of fst snd].
  set (s1 := with_vueCache _ s).
  assert (Hin : Lru.peek (vueCache s1) filePath
                = Some (VueServe.with_template code
                          (default Vue.empty_entry (Lru.peek (vueCache s) filePath)))).
  { apply LruFacts.peek_set_eq. reflexivity. }
  pose proof (compileSFCTemplate_hit root' block' filePath publicPath' scoped' userOptions'
                s1 _ code Hin eq_refl Hne) as Hhit.
  unfold runs in Hhit. rewrite Hhit. done.
Qed.

(** X19. A change event forces the template to be compiled again: after
    [handleVueReload] has run for a file whose text parses, the next
    [compileSFCTemplate] for it does not return the code that was cached
    before the event but the result of a fresh compilation, and stores it
    beside the freshly parsed descriptor. *)
Theorem change_event_forces_template_recompile root resolvers alias w filePath ts content s
    text next errors block publicPath scoped userOptions :
  Policy.source_text w filePath content = Some text →
  sfc_parse root text filePath = (next, errors) →
  Forall (VueServe.printable block)
    (result_errors (VueServe.compilation root block filePath publicPath scoped
                      userOptions)) →
  let code := VueServe.finalCode (VueServe.compilation root block filePath publicPath
                                    scoped userOptions) in
  let changed := store_of (Vue.handleVueReload root
                             (Resolver.createResolver root resolvers alias)
                             w filePath ts content s) in
  let r := VueServe.compileSFCTemplate root block filePath publicPath scoped userOptions
             changed in
  result_of r = Ok code
  ∧ Lru.peek (vueCache (store_of r)) filePath
    = Some {| descriptor := Some next; template := Some code; script := None;
              styles := [] |}.
Proof.
  intros Htext Hparse Hprint code changed r.
  assert (Hfresh : Lru.peek (vueCache changed) filePath = Some (Vue.fresh_entry next)).
  { unfold changed.
    rewrite (HmrFacts.handleVueReload_final_store root resolvers alias w filePath ts
               content s text next errors Htext Hparse).
    apply LruFacts.peek_set_eq. reflexivity. }
  assert (Hmiss : Js.truthy (Lru.peek (vueCache changed) filePath ≫= template) = false)
    by (by rewrite Hfresh).
  destruct (compileSFCTemplate_miss root block filePath publicPath scoped userOptions
              changed Hmiss Hprint) as (out & Hrun & _).
  fold code in Hrun. unfold runs in Hrun. subst r. rewrite Hrun.
  cbn [result_of store_of fst snd]. split; [done|].
  cbn [with_vueCache vueCache]. rewrite Hfresh.
  rewrite LruFacts.peek_set_eq by reflexivity. reflexivity.
Qed.

Lemma raises_bind_l {A B} (m : M A) (k : A → M B) s e s1 o1 :
  m s = (Throw e, s1, o1) → bind m k s = (Throw e, s1, o1).
Proof. unfold bind. intros ->. reflexivity. Qed.

(** Without a source map the first located diagnostic ends the loop. *)
Lemma report_template_errors_raise filePath block pre e post start :
  Forall (VueServe.printable block) pre →
  template_map block = None →
  ∃ out, (∀ s, forEach_from start (pre ++ ErrorAt e :: post)
                 (fun _ e _ => VueServe.report_template_error filePath block e) tt s
               = (Throw "TypeError: Cannot read property of undefined", s, out))
         ∧ sent out = [].
Proof.
  intros Hall Hmap. revert start. induction Hall as [|x pre Hx Hall IH]; intros start.
  - eexists. split.
    + intros s. cbn [app forEach_from]. apply raises_bind_l.
      unfold VueServe.report_template_error. rewrite Hmap. cbn [mbind option_bind].
      eapply ResolutionFacts.raises_bind_r; [apply runs_emit|].
      eapply ResolutionFacts.raises_bind_r; [apply runs_emit|]. reflexivity.
    + reflexivity.
  - destruct (IH (S start)) as (out & Hrun & Hsent).
    destruct x as [text|x]; simpl in Hx.
    + eexists. split.
      * intros s. cbn [app forEach_from].
        eapply ResolutionFacts.raises_bind_r; [apply runs_emit|apply Hrun].
      * rewrite sent_app, Hsent. reflexivity.
    + destruct Hx as (original & rest & Hsome). rewrite Hmap in Hsome. discriminate.
Qed.

(** X24. A located diagnostic needs the source map of the block: when the
    template compiler reports an error with a location for a block that
    carries no source map, [compileSFCTemplate] raises a [TypeError] while
    printing it, after the texts before it; nothing is sent, and the
    template slot of the file is not filled, so the next request compiles
    again. *)
Theorem located_diagnostic_without_map_raises root block filePath publicPath scoped
    userOptions s pre e post :
  Js.truthy (Lru.peek (vueCache s) filePath ≫= template) = false →
  result_errors (VueServe.compilation root block filePath publicPath scoped userOptions)
  = pre ++ ErrorAt e :: post →
  Forall (VueServe.printable block) pre →
  template_map block = None →
  let r := VueServe.compileSFCTemplate root block filePath publicPath scoped userOptions
             s in
  result_of r = Throw "TypeError: Cannot read property of undefined"
  ∧ sent (outputs_of r) = []
  ∧ Lru.peek (vueCache (store_of r)) filePath = Lru.peek (vueCache s) filePath.
Proof.
  intros Hmiss Herrors Hpre Hmap r.
  destruct (report_template_errors_raise filePath block pre e post 0 Hpre Hmap)
    as (out & Hraise & Hsent).
  set (s1 := with_vueCache (fun _ => (Lru.get (vueCache s) filePath).2) s).
  assert (Hr : r = (Throw "TypeError: Cannot read property of undefined", s1,
                    [] ++ ([ConsoleError (Js.nl +:+ "[vite] SFC template compilation error: ")]
                           ++ out))).
  { subst r. unfold VueServe.compileSFCTemplate.
    eapply ResolutionFacts.raises_bind_r; [apply VueFacts.vueCache_get_runs|].
    cbv beta. rewrite Hmiss. cbv zeta.
    unfold VueServe.compilation in Herrors. rewrite Herrors.
    apply raises_bind_l.
    destruct (pre ++ ErrorAt e :: post) as [|x xs] eqn:Hl; [by destruct pre|].
    eapply ResolutionFacts.raises_bind_r; [apply runs_emit|].
    unfold forEach. apply (Hraise s1). }
  rewrite Hr. cbn [result_of store_of outputs_of fst snd]. split; [done|].
  split.
  - cbn [app]. change (sent (?x :: out)) with (sent out). exact Hsent.
  - unfold s1. cbn [with_vueCache vueCache]. apply LruFacts.peek_get_snd.
Qed.

End WithNode.
End TemplateFacts.

(** ** Serving stylesheets *)

Module ServingFacts.
Import MonadFacts.

Lemma resolution_only_refl s : Serving.resolution_only s s.
Proof. by repeat split. Qed.

Lemma resolution_only_trans s s1 s2 :
  Serving.resolution_only s s1 → Serving.resolution_only s1 s2 →
  Serving.resolution_only s s2.
Proof.
  intros (A1 & A2 & A3 & A4 & A5) (B1 & B2 & B3 & B4 & B5).
  repeat split; congruence.
Qed.

Section WithNode.
Context `{NodeApi} `{ServeApi}.

Lemma resolveOptimizedModule_frame w root id s :
  ∃ r s1, runs (Resolver.resolveOptimizedModule w root id) s r s1 []
          ∧ Serving.resolution_only s s1.
Proof.
  destruct (ResolverFacts.resolveOptimizedModule_cases w root id s)
    as [(Hc & Hr)|[(Hc & d & Hd & Hne & Hex & Hr)|(Hc & Hmiss & Hr)]].
  - eexists _, _. split; [exact Hr|apply resolution_only_refl].
  - eexists _, _. split; [exact Hr|by repeat split].
  - eexists _, _. split; [exact Hr|apply resolution_only_refl].
Qed.

Lemma resolveNodeModuleFile_frame w root id s :
  ∃ r s1, runs (Resolver.resolveNodeModuleFile w root id) s r s1 []
          ∧ Serving.resolution_only s s1.
Proof.
  destruct (ResolverFacts.resolveNodeModuleFile_cases w root id s)
    as [(Hn & Hnr)|[(Hn & resolved & Hres & Hnr)|(Hn & Hres & Hnr)]].
  - eexists _, _. split; [exact Hnr|apply resolution_only_refl].
  - eexists _, _. split; [exact Hnr|by repeat split].
  - eexists _, _. split; [exact Hnr|apply resolution_only_refl].
Qed.

Lemma module_block_frame w id root s :
  ∃ r s1, runs (Resolver.defaultRequestToFile_module w id root) s r s1 []
          ∧ Serving.resolution_only s s1.
Proof.
  unfold Resolver.defaultRequestToFile_module.
  destruct (Js.truthy (idToFileMap s !! id)) eqn:Hi.
  { eexists _, _. split; [|apply resolution_only_refl].
    eapply runs_bind_nil; [apply runs_gets|]. cbv beta. rewrite Hi. apply runs_ret. }
  destruct (resolveOptimizedModule_frame w root id s) as (om & s1 & Hom & F1).
  destruct (Js.truthy om) eqn:Ht.
  { eexists _, _. split; [|exact F1].
    eapply runs_bind_nil; [apply runs_gets|]. cbv beta. rewrite Hi.
    eapply runs_bind_nil; [exact Hom|]. cbv beta. rewrite Ht. apply runs_ret. }
  destruct (resolveNodeModuleFile_frame w root id s1) as (nm & s2 & Hnm & F2).
  destruct (Js.truthy nm) eqn:Hn.
  - eexists _, _. split.
    + eapply runs_bind_nil; [apply runs_gets|]. cbv beta. rewrite Hi.
      eapply runs_bind_nil; [exact Hom|]. cbv beta. rewrite Ht.
      eapply runs_bind_nil; [exact Hnm|]. cbv beta. rewrite Hn.
      eapply runs_bind_nil; [apply runs_modify|]. apply runs_ret.
    + eapply resolution_only_trans; [exact F1|].
      eapply resolution_only_trans; [exact F2|]. by repeat split.
  - eexists _, _. split.
    + eapply runs_bind_nil; [apply runs_gets|]. cbv beta. rewrite Hi.
      eapply runs_bind_nil; [exact Hom|]. cbv beta. rewrite Ht.
      eapply runs_bind_nil; [exact Hnm|]. cbv beta. rewrite Hn. apply runs_ret.
    + eapply resolution_only_trans; [exact F1|exact F2].
Qed.

Lemma defaultRequestToFile_frame w publicPath root s :
  ∃ file s1, runs (Resolver.defaultRequestToFile w publicPath root) s file s1 []
             ∧ Serving.resolution_only s s1.
Proof.
  unfold Resolver.defaultRequestToFile.
  destruct (moduleRE_strip publicPath) as [id|].
  - destruct (module_block_frame w id root s) as (r & s1 & Hr & F).
    destruct r as [file|].
    + exists file, s1. split; [|exact F].
      eapply runs_bind_nil; [exact Hr|]. apply runs_ret.
    + destruct (existsSync w (path_join [root; "public"; Js.slice_from 1 publicPath]))
        eqn:Hex; eexists _, s1; (split; [|exact F]);
        (eapply runs_bind_nil; [exact Hr|]); cbv beta iota zeta; apply runs_ret.
  - destruct (existsSync w (path_join [root; "public"; Js.slice_from 1 publicPath]))
      eqn:Hex; eexists _, s; (split; [|apply resolution_only_refl]);
      (eapply runs_bind_nil; [apply runs_ret|]); cbv beta iota zeta; apply runs_ret.
Qed.

(** Extension probing sends nothing. *)
Lemma resolveExt_quiet w id :
  ∃ ext out, sent out = [] ∧ ∀ s, runs (Resolver.resolveExt w id) s ext s out.
Proof.
  unfold Resolver.resolveExt. cbv zeta.
  destruct (negb (Resolver.isFile w (cleanUrl id))).
  - destruct (negb (String.eqb _ id)).
    + eexists _, _. split; [|intros s; unfold Resolver.debug; run_step; run_done].
      reflexivity.
    + eexists _, _. split; [|intros s; apply runs_ret]. reflexivity.
  - eexists _, _. split; [|intros s; apply runs_ret]. reflexivity.
Qed.

(** [requestToFile] always answers, sends nothing, and writes to the memo
    tables of the module resolution only. *)
Lemma requestToFile_frame root resolvers w publicPath s :
  ∃ file s1 out,
    runs (Resolver.requestToFile root resolvers w publicPath) s file s1 out
    ∧ sent out = [] ∧ Serving.resolution_only s s1.
Proof.
  unfold Resolver.requestToFile, Resolver.resolveRequest. cbv zeta.
  destruct (Js.truthy (Resolver.first_custom UserResolver.requestToFile resolvers
                         publicPath root)) eqn:Hcustom; cbn [negb].
  - destruct (resolveExt_quiet w
                (default "" (Resolver.first_custom UserResolver.requestToFile resolvers
                               publicPath root))) as (ext & out & Hq & Hext).
    eexists _, s, _. split; [|split; [|apply resolution_only_refl]].
    + eapply runs_bind;
        [eapply runs_bind; [apply runs_ret|];
         eapply runs_bind; [apply Hext|apply runs_ret]|].
      apply runs_ret.
    + cbn [app]. rewrite !app_nil_r. exact Hq.
  - destruct (defaultRequestToFile_frame w publicPath root s) as (resolved & s1 & H1 & F).
    destruct (resolveExt_quiet w resolved) as (ext & out & Hq & Hext).
    eexists _, s1, _. split; [|split; [|exact F]].
    + eapply runs_bind;
        [eapply runs_bind; [exact H1|];
         eapply runs_bind; [apply Hext|apply runs_ret]|].
      apply runs_ret.
    + cbn [app]. rewrite !app_nil_r. exact Hq.
Qed.

Lemma console_errors_run (all errors : list StyleError) start :
  ∃ out, (∀ s, runs (forEach_from start errors
                       (fun i e _ => emit (ConsoleError (console_error_each e i all))) tt)
                    s tt s out)
         ∧ sent out = [].
Proof.
  revert start. induction errors as [|e errors IH]; intros start.
  - exists []. split; [|reflexivity]. intros s. apply runs_ret.
  - destruct (IH (S start)) as (out & Hrun & Hsent). eexists. split.
    + intros s. cbn [forEach_from]. eapply runs_bind; [apply runs_emit|apply Hrun].
    + rewrite sent_app, Hsent. reflexivity.
Qed.

(** [processCss] with the resolver of [createResolver]: the file name comes
    from [requestToFile], and the entry for the path is replaced. *)
Lemma processCss_runs root resolvers alias w ctx s file s1 out1 :
  runs (Resolver.requestToFile root resolvers w (CssServe.ctx_path ctx)) s file s1 out1 →
  ∃ out,
    runs (CssServe.processCss root (Resolver.createResolver root resolvers alias) w ctx) s tt
         (with_processedCSS
            (insert (CssServe.ctx_path ctx)
               (Serving.processed_entry root (CssServe.ctx_path ctx)
                  (Serving.body_text ctx) file)) s1)
         (out1 ++ out)
    ∧ sent out = [].
Proof.
  intros Hfile. unfold CssServe.processCss, Serving.processed_entry, Serving.body_text.
  cbv zeta.
  destruct (compileCss _ _ _) as [text|code modules errors] eqn:Hc.
  - exists []. split; [|reflexivity].
    eapply runs_bind; [exact Hfile|]. cbv beta. rewrite Hc. apply runs_modify.
  - destruct errors as [|e errors].
    + exists []. split; [|reflexivity].
      eapply runs_bind; [exact Hfile|]. cbv beta. rewrite Hc.
      eapply runs_bind_nil; [apply runs_ret|]. apply runs_modify.
    + destruct (console_errors_run (e :: errors) (e :: errors) 0) as (out & Hrun & Hsent).
      eexists. split.
      * eapply runs_bind; [exact Hfile|]. cbv beta. rewrite Hc.
        eapply runs_bind; [|apply runs_modify].
        eapply runs_bind; [apply runs_emit|]. unfold forEach. apply Hrun.
      * rewrite !sent_app, Hsent. reflexivity.
Qed.

Lemma serve_unhandled root resolver w ctx s :
  Serving.handled ctx = false → runs (CssServe.serve root resolver w ctx) s ctx s [].
Proof.
  intros Hh. unfold CssServe.serve. unfold Serving.handled in Hh. rewrite Hh.
  apply runs_ret.
Qed.

Lemma serve_import root resolvers alias w ctx s file s1 out1 :
  Serving.handled ctx = true → CssServe.import_request ctx = true →
  runs (Resolver.requestToFile root resolvers w (CssServe.ctx_path ctx)) s file s1 out1 →
  let e := Serving.processed_entry root (CssServe.ctx_path ctx) (Serving.body_text ctx)
             file in
  ∃ out,
    runs (CssServe.serve root (Resolver.createResolver root resolvers alias) w ctx) s
         (CssServe.respond ctx "js"
            (codegenCss (json_stringify (hash_sum (CssServe.ctx_path ctx)))
               (css e) (css_modules e)))
         (with_processedCSS (insert (CssServe.ctx_path ctx) e) s1) out
    ∧ sent out = sent out1.
Proof.
  intros Hh Himp Hfile e.
  destruct (processCss_runs root resolvers alias w ctx s file s1 out1 Hfile)
    as (out & Hrun & Hsent).
  fold e in Hrun. eexists. split.
  - unfold CssServe.serve. unfold Serving.handled in Hh. rewrite Hh, Himp. cbv zeta.
    eapply runs_bind; [exact Hrun|].
    eapply runs_bind; [apply runs_gets|]. cbv beta.
    cbn [with_processedCSS processedCSS]. rewrite lookup_insert_eq. apply runs_ret.
  - rewrite !sent_app, Hsent. cbn. by rewrite !app_nil_r.
Qed.

Lemma serve_raw_hit root resolver w ctx s entry :
  Serving.handled ctx = true → CssServe.import_request ctx = false →
  processedCSS s !! CssServe.ctx_path ctx = Some entry →
  runs (CssServe.serve root resolver w ctx) s (CssServe.respond ctx "css" (css entry)) s [].
Proof.
  intros Hh Himp Hin. unfold CssServe.serve. unfold Serving.handled in Hh.
  rewrite Hh, Himp. cbv zeta.
  eapply runs_bind_nil; [apply runs_gets|]. cbv beta. rewrite Hin.
  rewrite (bool_decide_eq_true_2 (is_Some (Some entry))) by eauto. cbn [negb].
  eapply runs_bind_nil; [apply runs_ret|].
  eapply runs_bind_nil; [apply runs_gets|]. cbv beta. rewrite Hin. apply runs_ret.
Qed.

Lemma serve_raw_miss root resolvers alias w ctx s file s1 out1 :
  Serving.handled ctx = true → CssServe.import_request ctx = false →
  processedCSS s !! CssServe.ctx_path ctx = None →
  runs (Resolver.requestToFile root resolvers w (CssServe.ctx_path ctx)) s file s1 out1 →
  let e := Serving.processed_entry root (CssServe.ctx_path ctx) (Serving.body_text ctx)
             file in
  ∃ out,
    runs (CssServe.serve root (Resolver.createResolver root resolvers alias) w ctx) s
         (CssServe.respond ctx "css" (css e))
         (with_processedCSS (insert (CssServe.ctx_path ctx) e) s1) out
    ∧ sent out = sent out1.
Proof.
  intros Hh Himp Hnone Hfile e.
  destruct (processCss_runs root resolvers alias w ctx s file s1 out1 Hfile)
    as (out & Hrun & Hsent).
  fold e in Hrun. eexists. split.
  - unfold CssServe.serve. unfold Serving.handled in Hh. rewrite Hh, Himp. cbv zeta.
    eapply runs_bind; [apply runs_gets|]. cbv beta. rewrite Hnone.
    rewrite bool_decide_eq_false_2 by (intros [? ?]; discriminate). cbn [negb].
    eapply runs_bind; [exact Hrun|].
    eapply runs_bind; [apply runs_gets|]. cbv beta.
    cbn [with_processedCSS processedCSS]. rewrite lookup_insert_eq. apply runs_ret.
  - rewrite !sent_app, Hsent. cbn. by rewrite !app_nil_r.
Qed.

(** X20. With custom resolvers and a CSS compiler that return normally (as
    the functions they are here), the middleware never fails and never
    notifies the browser.  Its
    two reads of the processed-CSS table are safe: whenever it handles a
    response (a stylesheet with a body), the table holds the path when it
    reads it, so no [TypeError] is raised; the response becomes a JS module
    for an import request and CSS otherwise.  It writes the table at the
    requested path only, and leaves the SFC cache, the [src] import table
    and the reverse request map alone.  A response that is not a stylesheet,
    or has no body, passes through with the store untouched. *)
Theorem stylesheet_middleware_always_answers root resolvers alias w ctx s :
  let r := CssServe.serve root (Resolver.createResolver root resolvers alias) w ctx s in
  ∃ ctx', result_of r = Ok ctx'
    ∧ sent (outputs_of r) = []
    ∧ (∀ p, p ≠ CssServe.ctx_path ctx →
         processedCSS (store_of r) !! p = processedCSS s !! p)
    ∧ srcImportMap (store_of r) = srcImportMap s
    ∧ vueCache (store_of r) = vueCache s
    ∧ fileToRequestMap (store_of r) = fileToRequestMap s
    ∧ (if Serving.handled ctx
       then is_Some (processedCSS (store_of r) !! CssServe.ctx_path ctx)
            ∧ CssServe.ctx_type ctx'
              = (if CssServe.import_request ctx then "js" else "css")
       else ctx' = ctx ∧ store_of r = s).
Proof.
  intros r. subst r.
  destruct (Serving.handled ctx) eqn:Hh.
  2:{ pose proof (serve_unhandled root (Resolver.createResolver root resolvers alias)
                    w ctx s Hh) as Hrun.
      unfold runs in Hrun. rewrite Hrun. exists ctx. done. }
  destruct (requestToFile_frame root resolvers w (CssServe.ctx_path ctx) s)
    as (file & s1 & out1 & Hfile & Hquiet & (F1 & F2 & F3 & F4 & F5)).
  destruct (CssServe.import_request ctx) eqn:Himp.
  - destruct (serve_import root resolvers alias w ctx s file s1 out1 Hh Himp Hfile)
      as (out & Hrun & Hsent).
    unfold runs in Hrun. rewrite Hrun. eexists. split; [reflexivity|].
    cbn [result_of store_of outputs_of fst snd with_processedCSS processedCSS
         srcImportMap vueCache fileToRequestMap].
    rewrite Hsent, Hquiet, lookup_insert_eq.
    repeat split; eauto.
    intros p Hp. rewrite lookup_insert_ne by done. by rewrite F1.
  - destruct (processedCSS s !! CssServe.ctx_path ctx) as [entry|] eqn:Hin.
    + pose proof (serve_raw_hit root (Resolver.createResolver root resolvers alias)
                    w ctx s entry Hh Himp Hin) as Hrun.
      unfold runs in Hrun. rewrite Hrun. eexists. split; [reflexivity|].
      cbn [result_of store_of outputs_of fst snd]. rewrite Hin.
      repeat split; eauto.
    + destruct (serve_raw_miss root resolvers alias w ctx s file s1 out1 Hh Himp Hin
                  Hfile) as (out & Hrun & Hsent).
      unfold runs in Hrun. rewrite Hrun. eexists. split; [reflexivity|].
      cbn [result_of store_of outputs_of fst snd with_processedCSS processedCSS
           srcImportMap vueCache fileToRequestMap].
      rewrite Hsent, Hquiet, lookup_insert_eq.
      repeat split; eauto.
      intros p Hp. rewrite lookup_insert_ne by done. by rewrite F1.
Qed.

(** X21. Raw requests compile a stylesheet once.  The first raw request for
    a path that the table does not hold compiles the body it is given and
    answers with the compiled CSS; a later raw request for the same path is
    answered with that same CSS, whatever body and file system it comes
    with, and neither compiles nor writes anything. *)
Theorem raw_requests_compile_once root resolvers alias w w' ctx ctx' s :
  Serving.handled ctx = true → CssServe.import_request ctx = false →
  Serving.handled ctx' = true → CssServe.import_request ctx' = false →
  CssServe.ctx_path ctx' = CssServe.ctx_path ctx →
  processedCSS s !! CssServe.ctx_path ctx = None →
  let first := CssServe.serve root (Resolver.createResolver root resolvers alias) w ctx
                 s in
  let second := CssServe.serve root (Resolver.createResolver root resolvers alias) w' ctx'
                  (store_of first) in
  ∃ filename,
    result_of (Resolver.requestToFile root resolvers w (CssServe.ctx_path ctx) s)
    = Ok filename
    ∧ result_of first
      = Ok (CssServe.respond ctx "css"
              (css (Serving.processed_entry root (CssServe.ctx_path ctx)
                      (Serving.body_text ctx) filename)))
    ∧ result_of second
      = Ok (CssServe.respond ctx' "css"
              (css (Serving.processed_entry root (CssServe.ctx_path ctx)
                      (Serving.body_text ctx) filename)))
    ∧ store_of second = store_of first
    ∧ outputs_of second = [].
Proof.
  intros Hh Himp Hh' Himp' Hpath Hnone first second.
  destruct (requestToFile_frame root resolvers w (CssServe.ctx_path ctx) s)
    as (file & s1 & out1 & Hfile & Hquiet & F).
  destruct (serve_raw_miss root resolvers alias w ctx s file s1 out1 Hh Himp Hnone Hfile)
    as (out & Hrun & Hsent).
  exists file. split; [unfold runs in Hfile; by rewrite Hfile|].
  unfold runs in Hrun. subst second first. rewrite Hrun.
  cbn [result_of store_of fst snd]. split; [reflexivity|].
  set (e := Serving.processed_entry _ _ _ _).
  set (s2 := with_processedCSS _ s1).
  assert (Hin : processedCSS s2 !! CssServe.ctx_path ctx' = Some e).
  { rewrite Hpath. apply lookup_insert_eq. }
  pose proof (serve_raw_hit root (Resolver.createResolver root resolvers alias)
                w' ctx' s2 e Hh' Himp' Hin) as Hrun'.
  unfold runs in Hrun'. rewrite Hrun'. done.
Qed.

(** X22. An import request always compiles.  Whatever the table held for
    the path, an import request compiles the body it is given, answers with
    the JS module generated from that result, and replaces the entry; so a
    later raw request for the path gets the CSS of this compilation. *)
Theorem import_request_refreshes_entry root resolvers alias w w' ctx ctx' s :
  Serving.handled ctx = true → CssServe.import_request ctx = true →
  Serving.handled ctx' = true → CssServe.import_request ctx' = false →
  CssServe.ctx_path ctx' = CssServe.ctx_path ctx →
  let r := CssServe.serve root (Resolver.createResolver root resolvers alias) w ctx s in
  let later := CssServe.serve root (Resolver.createResolver root resolvers alias) w' ctx'
                 (store_of r) in
  ∃ filename,
    result_of (Resolver.requestToFile root resolvers w (CssServe.ctx_path ctx) s)
    = Ok filename
    ∧ let e := Serving.processed_entry root (CssServe.ctx_path ctx)
                 (Serving.body_text ctx) filename in
      result_of r
      = Ok (CssServe.respond ctx "js"
              (codegenCss (json_stringify (hash_sum (CssServe.ctx_path ctx)))
                 (css e) (css_modules e)))
      ∧ processedCSS (store_of r) !! CssServe.ctx_path ctx = Some e
      ∧ result_of later = Ok (CssServe.respond ctx' "css" (css e)).
Proof.
  intros Hh Himp Hh' Himp' Hpath r later.
  destruct (requestToFile_frame root resolvers w (CssServe.ctx_path ctx) s)
    as (file & s1 & out1 & Hfile & Hquiet & F).
  destruct (serve_import root resolvers alias w ctx s file s1 out1 Hh Himp Hfile)
    as (out & Hrun & Hsent).
  exists file. split; [unfold runs in Hfile; by rewrite Hfile|].
  intros e. unfold runs in Hrun. subst later r. rewrite Hrun.
  cbn [result_of store_of fst snd]. split; [reflexivity|].
  fold e. set (s2 := with_processedCSS _ s1).
  assert (Hin : processedCSS s2 !! CssServe.ctx_path ctx = Some e)
    by apply lookup_insert_eq.
  split; [exact Hin|].
  rewrite <- Hpath in Hin.
  pose proof (serve_raw_hit root (Resolver.createResolver root resolvers alias)
                w' ctx' s2 e Hh' Himp' Hin) as Hrun'.
  unfold runs in Hrun'. by rewrite Hrun'.
Qed.

(** X23. What a change event means for the next raw request.  For a
    stylesheet in use that no style block names as its [src]: if it is not
    a [.module.css] file, the event deletes the processed entry, so the next
    raw request for its public path compiles the body it is given; if it is
    a [.module.css] file, the entry stays, and the next raw request is still
    answered with the CSS processed before the change. *)
Theorem change_event_and_next_raw_request root resolvers alias now filePath publicPath
    w ctx s entry :
  Js.endsWith filePath ".css" || cssPreprocessLangRE_test filePath = true →
  result_of (Resolver.fileToRequest root resolvers filePath s) = Ok publicPath →
  srcImportMap s !! filePath = None →
  processedCSS s !! publicPath = Some entry →
  Serving.handled ctx = true → CssServe.import_request ctx = false →
  CssServe.ctx_path ctx = publicPath →
  let changed := store_of (Css.onChange (Resolver.createResolver root resolvers alias)
                             now filePath s) in
  let r := CssServe.serve root (Resolver.createResolver root resolvers alias) w ctx
             changed in
  (Js.endsWith filePath ".module.css" = false →
   ∃ filename,
     result_of (Resolver.requestToFile root resolvers w publicPath changed) = Ok filename
     ∧ result_of r
       = Ok (CssServe.respond ctx "css"
               (css (Serving.processed_entry root publicPath (Serving.body_text ctx)
                       filename))))
  ∧ (Js.endsWith filePath ".module.css" = true →
     result_of r = Ok (CssServe.respond ctx "css" (css entry))).
Proof.
  intros Hcss Hpub Hsrc Hin Hh Himp Hpath changed r. subst r changed.
  rewrite (StylesheetFacts.onChange_table root resolvers alias now filePath publicPath s
             Hcss Hpub), Hsrc, Hin.
  split; intros Hmod; rewrite Hmod; cbn [store_of fst snd].
  - set (s0 := with_processedCSS (delete publicPath) s).
    assert (Hnone : processedCSS s0 !! CssServe.ctx_path ctx = None).
    { rewrite Hpath. apply lookup_delete_eq. }
    destruct (requestToFile_frame root resolvers w (CssServe.ctx_path ctx) s0)
      as (file & s1 & out1 & Hfile & Hquiet & F).
    destruct (serve_raw_miss root resolvers alias w ctx s0 file s1 out1 Hh Himp Hnone
                Hfile) as (out & Hrun & Hsent).
    rewrite Hpath in Hfile, Hrun.
    exists file. split; [unfold runs in Hfile; by rewrite Hfile|].
    unfold runs in Hrun. by rewrite Hrun.
  - rewrite <- Hpath in Hin.
    pose proof (serve_raw_hit root (Resolver.createResolver root resolvers alias)
                  w ctx s entry Hh Himp Hin) as Hrun.
    unfold runs in Hrun. by rewrite Hrun.
Qed.

End WithNode.
End ServingFacts.

(** ** The style slots of the SFC cache *)

Module StyleSlotFacts.
Import MonadFacts.

Lemma slot_set_index_eq {A} (xs : list (option A)) (i : nat) (v : A) :
  VueServe.slot (VueServe.set_index xs i v) i = Some v.
Proof.
  unfold VueServe.slot, VueServe.set_index.
  destruct (Nat.ltb_spec i (length xs)) as [Hlt|Hge].
  - by rewrite list_lookup_insert_eq.
  - rewrite lookup_app_r by done.
    rewrite lookup_app_r by (rewrite length_replicate; lia).
    rewrite length_replicate. by replace (i - length xs - (i - length xs)) with 0 by lia.
Qed.

Lemma slot_set_index_ne {A} (xs : list (option A)) (i j : nat) (v : A) :
  i ≠ j → VueServe.slot (VueServe.set_index xs i v) j = VueServe.slot xs j.
Proof.
  intros Hne. unfold VueServe.slot, VueServe.set_index.
  destruct (Nat.ltb_spec i (length xs)) as [Hlt|Hge].
  - by rewrite list_lookup_insert_ne.
  - destruct (decide (j < length xs)) as [Hj|Hj].
    + by rewrite lookup_app_l.
    + rewrite (lookup_ge_None_2 xs j) by lia.
      rewrite lookup_app_r by lia.
      destruct (decide (j - length xs < i - length xs)) as [Hin|Hout].
      * rewrite lookup_app_l by (rewrite length_replicate; lia).
        rewrite lookup_replicate_2 by done. reflexivity.
      * rewrite lookup_app_r by (rewrite length_replicate; lia).
        rewrite length_replicate.
        destruct (j - length xs - (i - length xs)) as [|n] eqn:Hn; [lia|reflexivity].
Qed.

Section WithNode.
Context `{NodeApi} `{ServeApi}.

Lemma report_style_errors_run filePath style errors start :
  Forall (VueServe.style_printable filePath style) errors →
  ∃ out, (∀ s, runs (forEach_from start errors
                       (fun _ e _ => VueServe.report_style_error filePath style e) tt)
                    s tt s out)
         ∧ sent out = [].
Proof.
  intros Hall. revert start. induction Hall as [|e errors He Hall IH]; intros start.
  - exists []. split; [|reflexivity]. intros s. apply runs_ret.
  - destruct (IH (S start)) as (out & Hrun & Hsent).
    destruct e as [text|message line column]; simpl in He.
    + eexists. split.
      * intros s. cbn [forEach_from]. eapply runs_bind; [apply runs_emit|apply Hrun].
      * rewrite sent_app, Hsent. reflexivity.
    + unfold VueServe.report_style_error. cbv zeta.
      destruct (VueServe.number_truthy line && VueServe.number_truthy column) eqn:Hloc;
        cbn [andb].
      * destruct (negb (VueServe.has_newline
                          (clean_message (path_basename filePath) message))) eqn:Hone.
        -- destruct (He eq_refl) as (original & rest & Hmap). eexists. split.
           ++ intros s. cbn [forEach_from]. eapply runs_bind; [|apply Hrun].
              unfold VueServe.report_style_error. cbv zeta. rewrite Hloc, Hone, Hmap.
              cbn [andb].
              eapply runs_bind; [apply runs_emit|].
              eapply runs_bind; [apply runs_emit|]. apply runs_emit.
           ++ rewrite !sent_app, Hsent. reflexivity.
        -- eexists. split.
           ++ intros s. cbn [forEach_from]. eapply runs_bind; [|apply Hrun].
              unfold VueServe.report_style_error. cbv zeta. rewrite Hloc, Hone.
              cbn [andb].
              eapply runs_bind; [apply runs_emit|].
              eapply runs_bind; [apply runs_emit|]. apply runs_ret.
           ++ rewrite !sent_app, Hsent. reflexivity.
      * eexists. split.
        -- intros s. cbn [forEach_from]. eapply runs_bind; [|apply Hrun].
           unfold VueServe.report_style_error. cbv zeta. rewrite Hloc. cbn [andb].
           eapply runs_bind; [apply runs_emit|].
           eapply runs_bind; [apply runs_emit|]. apply runs_ret.
        -- rewrite !sent_app, Hsent. reflexivity.
Qed.

Lemma compileSFCStyle_hit root style index filePath publicPath s result :
  VueServe.style_slot (vueCache s) filePath index = Some result →
  runs (VueServe.compileSFCStyle root style index filePath publicPath) s result
       (with_vueCache (fun _ => (Lru.get (vueCache s) filePath).2) s)
       [Debug "vite:sfc" (publicPath +:+ " style cache hit")].
Proof.
  intros Hin. unfold VueServe.compileSFCStyle.
  eapply runs_bind_nil; [apply VueFacts.vueCache_get_runs|].
  cbv beta. unfold VueServe.style_slot in Hin. rewrite Hin. unfold Vue.debug.
  change [Debug "vite:sfc" (publicPath +:+ " style cache hit")]
    with ([Debug "vite:sfc" (publicPath +:+ " style cache hit")] ++ []).
  eapply runs_bind; [apply runs_emit|apply runs_ret].
Qed.

Lemma compileSFCStyle_miss root style index filePath publicPath s code modules errors :
  VueServe.style_slot (vueCache s) filePath index = None →
  VueServe.style_compilation root style filePath publicPath
  = CssResult code modules errors →
  Forall (VueServe.style_printable filePath style) errors →
  let result := {| code := rewriteCssUrls code publicPath; modules := modules |} in
  ∃ out,
    runs (VueServe.compileSFCStyle root style index filePath publicPath) s result
         (with_vueCache
            (fun _ =>
               Lru.set Vue.vueCache_max filePath
                 (VueServe.with_style index result
                    (default Vue.empty_entry (Lru.peek (vueCache s) filePath)))
                 (Lru.get (vueCache s) filePath).2) s) out
    ∧ sent out = [].
Proof.
  intros Hmiss Hcompiled Hprint result.
  destruct (report_style_errors_run filePath style errors 0 Hprint)
    as (oerr & Herr & Hsent).
  set (s1 := with_vueCache (fun _ => (Lru.get (vueCache s) filePath).2) s).
  unfold VueServe.style_slot in Hmiss. unfold VueServe.style_compilation in Hcompiled.
  destruct errors as [|e errors].
  - eexists. split.
    + unfold VueServe.compileSFCStyle.
      eapply runs_bind; [apply VueFacts.vueCache_get_runs|].
      cbv beta. rewrite Hmiss. cbv zeta. rewrite Hcompiled.
      eapply runs_bind; [apply runs_ret|].
      eapply runs_bind; [apply runs_modify|].
      unfold Vue.debug. eapply runs_bind; [apply runs_emit|]. apply runs_ret.
    + reflexivity.
  - eexists. split.
    + unfold VueServe.compileSFCStyle.
      eapply runs_bind; [apply VueFacts.vueCache_get_runs|].
      cbv beta. rewrite Hmiss. cbv zeta. rewrite Hcompiled.
      eapply runs_bind.
      { eapply runs_bind; [apply runs_emit|]. unfold forEach. apply (Herr s1). }
      eapply runs_bind; [apply runs_modify|].
      unfold Vue.debug. eapply runs_bind; [apply runs_emit|]. apply runs_ret.
    + rewrite !sent_app, Hsent. reflexivity.
Qed.

(** X25. The style slots of a cache entry are filled one index at a time
    and do not disturb each other.  A call of [compileSFCStyle] for an index
    whose slot is empty (never written, a hole, or beyond the end of the
    array) compiles the block, stores the result at that index and leaves
    every other style slot, the script and the template of the entry as
    they read before; a later call for the same file and index returns that
    result from the cache with one debug line, whatever block, root and
    public path it is given. *)
Theorem style_slots_fill_independently root style index filePath publicPath s
    code modules errors root' style' publicPath' :
  VueServe.style_slot (vueCache s) filePath index = None →
  VueServe.style_compilation root style filePath publicPath
  = CssResult code modules errors →
  Forall (VueServe.style_printable filePath style) errors →
  let result := {| code := rewriteCssUrls code publicPath; modules := modules |} in
  let first := VueServe.compileSFCStyle root style index filePath publicPath s in
  let second := VueServe.compileSFCStyle root' style' index filePath publicPath'
                  (store_of first) in
  result_of first = Ok result
  ∧ sent (outputs_of first) = []
  ∧ VueServe.style_slot (vueCache (store_of first)) filePath index = Some result
  ∧ (∀ j, j ≠ index →
       VueServe.style_slot (vueCache (store_of first)) filePath j
       = VueServe.style_slot (vueCache s) filePath j)
  ∧ Lru.peek (vueCache (store_of first)) filePath ≫= script
    = Lru.peek (vueCache s) filePath ≫= script
  ∧ Lru.peek (vueCache (store_of first)) filePath ≫= template
    = Lru.peek (vueCache s) filePath ≫= template
  ∧ result_of second = Ok result
  ∧ outputs_of second = [Debug "vite:sfc" (publicPath' +:+ " style cache hit")].
Proof.
  intros Hmiss Hcompiled Hprint result first second.
  destruct (compileSFCStyle_miss root style index filePath publicPath s code modules errors
              Hmiss Hcompiled Hprint) as (out & Hrun & Hsent).
  fold result in Hrun. unfold runs in Hrun. subst second first. rewrite Hrun.
  cbn [result_of outputs_of store_of fst snd].
  set (s1 := with_vueCache _ s).
  assert (Hin : Lru.peek (vueCache s1) filePath
                = Some (VueServe.with_style index result
                          (default Vue.empty_entry (Lru.peek (vueCache s) filePath)))).
  { apply LruFacts.peek_set_eq. reflexivity. }
  assert (Hslot : VueServe.style_slot (vueCache s1) filePath index = Some result).
  { unfold VueServe.style_slot. rewrite Hin. cbn [mbind option_bind VueServe.with_style styles].
    apply slot_set_index_eq. }
  split; [reflexivity|]. split; [exact Hsent|]. split; [exact Hslot|].
  split; [|split; [|split]].
  - intros j Hj. unfold VueServe.style_slot. rewrite Hin.
    cbn [mbind option_bind VueServe.with_style styles].
    rewrite slot_set_index_ne by done.
    destruct (Lru.peek (vueCache s) filePath) as [entry|]; [reflexivity|].
    cbn [default Vue.empty_entry styles mbind option_bind]. unfold VueServe.slot.
    by rewrite lookup_nil.
  - rewrite Hin. by destruct (Lru.peek (vueCache s) filePath).
  - rewrite Hin. by destruct (Lru.peek (vueCache s) filePath).
  - pose proof (compileSFCStyle_hit root' style' index filePath publicPath' s1 result Hslot)
      as Hhit.
    unfold runs in Hhit. rewrite Hhit. done.
Qed.

End WithNode.
End StyleSlotFacts.

(** ** The main module of a component *)

Module MainModuleFacts.
Import MonadFacts.

Lemma append_nonempty_r (a b : string) : b ≠ "" → a +:+ b ≠ "".
Proof.
  intros Hb Heq. apply (f_equal String.length) in Heq.
  rewrite ResolutionFacts.length_app in Heq. destruct b; [done|]. simpl in Heq. lia.
Qed.

Section WithNode.
Context `{NodeApi} `{ServeApi}.

Lemma imports_app_l (prefix code request : string) :
  VueServe.imports code request → VueServe.imports (prefix +:+ code) request.
Proof.
  intros (before & after & ->). exists (prefix +:+ before), after.
  by rewrite ResolutionFacts.append_assoc.
Qed.

Lemma imports_app_r (code suffix request : string) :
  VueServe.imports code request → VueServe.imports (code +:+ suffix) request.
Proof.
  intros (before & after & ->). exists before, (after +:+ suffix).
  by rewrite !ResolutionFacts.append_assoc.
Qed.

(** One round of the loop appends to the code; for a block that is not a
    CSS module, what it appends is the import of the style request. *)
Lemma import_style_appends publicPath i st code hasScoped hasCSSModules :
  ∃ piece hasCSSModules',
    VueServe.import_style publicPath i st (code, hasScoped, hasCSSModules)
    = (code +:+ piece, hasScoped || Vue.is_scoped st, hasCSSModules')
    ∧ (VueServe.attr_truthy (Sfc.module st) = false →
       piece = Js.nl +:+ "import "
               +:+ json_stringify (publicPath +:+ "?type=style&index=" +:+ pretty i)).
Proof.
  unfold VueServe.import_style.
  assert (Hs : (if Vue.is_scoped st then true else hasScoped)
               = hasScoped || Vue.is_scoped st)
    by (destruct (Vue.is_scoped st), hasScoped; reflexivity).
  rewrite Hs.
  destruct (VueServe.attr_truthy (Sfc.module st)) eqn:Hm.
  - destruct hasCSSModules; cbn [negb]; cbv iota; eexists _, true;
      (split; [|discriminate]); f_equal; f_equal.
    + apply ResolutionFacts.append_assoc.
    + rewrite (ResolutionFacts.append_assoc (code +:+ _)).
      apply ResolutionFacts.append_assoc.
  - eexists _, hasCSSModules. split; [reflexivity|]. reflexivity.
Qed.

Lemma import_loop publicPath styles start code hasScoped hasCSSModules :
  ∃ added hasCSSModules',
    (∀ s, runs (forEach_from start styles
                  (fun i st locals => ret (VueServe.import_style publicPath i st locals))
                  (code, hasScoped, hasCSSModules))
               s (code +:+ added, hasScoped || existsb Vue.is_scoped styles,
                  hasCSSModules') s [])
    ∧ ∀ i st, styles !! i = Some st → VueServe.attr_truthy (Sfc.module st) = false →
        VueServe.imports added
          (publicPath +:+ "?type=style&index=" +:+ pretty (start + i)).
Proof.
  revert start code hasScoped hasCSSModules.
  induction styles as [|st styles IH]; intros start code hasScoped hasCSSModules.
  - exists "", hasCSSModules. split.
    + intros s. rewrite ResolutionFacts.app_empty_r, orb_false_r. apply runs_ret.
    + intros i st Hi. by rewrite lookup_nil in Hi.
  - destruct (import_style_appends publicPath start st code hasScoped hasCSSModules)
      as (piece & hm1 & Hstep & Hpiece).
    destruct (IH (S start) (code +:+ piece) (hasScoped || Vue.is_scoped st) hm1)
      as (added & hm2 & Hrun & Himp).
    exists (piece +:+ added), hm2. split.
    + intros s. cbn [forEach_from existsb].
      eapply runs_bind_nil; [apply runs_ret|]. rewrite Hstep.
      rewrite <- ResolutionFacts.append_assoc, orb_assoc. apply Hrun.
    + intros [|i] st' Hi Hm.
      * injection Hi as <-. rewrite Nat.add_0_r, (Hpiece Hm).
        exists "", added. by rewrite !ResolutionFacts.append_assoc.
      * replace (start + S i) with (S start + i) by lia.
        apply imports_app_l. by apply (Himp i st').
Qed.

Lemma script_code_runs sfc publicPath :
  VueServe.rewritable sfc publicPath →
  ∃ part, ∀ s, runs (VueServe.script_code sfc publicPath) s part s [].
Proof.
  unfold VueServe.rewritable, VueServe.script_code. cbv zeta.
  destruct (Sfc.script sfc) as [block|]; [|intros _; eexists; intros s; apply runs_ret].
  destruct (defaultExportRE_test _) eqn:Htest.
  - intros Hok. destruct (Hok eq_refl) as [rewritten Hre]. rewrite Hre.
    eexists. intros s. eapply runs_bind_nil; [apply runs_ret|]. apply runs_ret.
  - intros _. eexists. intros s. eapply runs_bind_nil; [apply runs_ret|]. apply runs_ret.
Qed.

Lemma compileSFCMain_hit sfc scriptMap filePath publicPath s entry code :
  Lru.peek (vueCache s) filePath = Some entry →
  script entry = Some code → code ≠ "" →
  runs (VueServe.compileSFCMain sfc scriptMap filePath publicPath) s code
       (with_vueCache (fun _ => (Lru.get (vueCache s) filePath).2) s) [].
Proof.
  intros Hin Hs Hne. unfold VueServe.compileSFCMain.
  eapply runs_bind_nil; [apply VueFacts.vueCache_get_runs|].
  cbv beta. rewrite Hin. cbn [mbind option_bind]. rewrite Hs.
  rewrite (JsFacts.truthy_Some code Hne). apply runs_ret.
Qed.

(** X26. The main module that [compileSFCMain] generates for a component
    imports, for every style block that is not a CSS module, the very
    request that the HMR handler names in its [style-update] for that index.
    The module is never empty; it is stored in the script slot beside the
    other slots of the entry, nothing is printed or sent, and every later
    call for the file returns it from the cache, whatever descriptor and
    public path it is given.  The script is assumed to be rewritable: the
    replacement leaves no default export behind, or Babel accepts the code. *)
Theorem main_module_imports_style_requests sfc scriptMap filePath publicPath s :
  Js.truthy (Lru.peek (vueCache s) filePath ≫= script) = false →
  VueServe.rewritable sfc publicPath →
  let r := VueServe.compileSFCMain sfc scriptMap filePath publicPath s in
  ∃ code,
    result_of r = Ok code
    ∧ outputs_of r = []
    ∧ code ≠ ""
    ∧ (∀ i st ts, Sfc.styles sfc !! i = Some st →
         VueServe.attr_truthy (Sfc.module st) = false →
         ∃ path, Policy.style_update publicPath ts i = StyleUpdate path ts
                 ∧ VueServe.imports code path)
    ∧ Lru.peek (vueCache (store_of r)) filePath
      = Some (VueServe.with_script code
                (default Vue.empty_entry (Lru.peek (vueCache s) filePath)))
    ∧ ∀ sfc' scriptMap' publicPath',
        result_of (VueServe.compileSFCMain sfc' scriptMap' filePath publicPath'
                     (store_of r))
        = Ok code.
Proof.
  intros Hmiss Hscript r.
  destruct (script_code_runs sfc publicPath Hscript) as (part & Hpart).
  set (c0 := part +:+ Js.nl +:+ "import { updateStyle } from " +:+ Js.dquote
             +:+ hmrClientPublicPath +:+ Js.dquote +:+ Js.nl).
  destruct (import_loop publicPath (Sfc.styles sfc) 0 c0 false false)
    as (added & hm & Hloop & Himp).
  eassert (Hrun : runs (VueServe.compileSFCMain sfc scriptMap filePath publicPath) s _ _ []).
  { unfold VueServe.compileSFCMain.
    eapply runs_bind_nil; [apply VueFacts.vueCache_get_runs|].
    cbv beta. rewrite Hmiss. cbv zeta.
    eapply runs_bind_nil; [apply Hpart|]. cbv beta. fold c0.
    eapply runs_bind_nil; [unfold forEach; apply Hloop|]. cbv beta iota zeta.
    eapply runs_bind_nil; [apply runs_modify|]. apply runs_ret. }
  unfold runs in Hrun.
  lazymatch type of Hrun with
  | _ = (Ok ?c, ?st, _) => set (code := c) in *; set (s1 := st) in *
  end.
  subst r. rewrite Hrun. cbn [result_of outputs_of store_of fst snd].
  assert (Hne : code ≠ "").
  { unfold code. destruct (Sfc.script sfc).
    - apply ResolutionFacts.app_nonempty. by apply append_nonempty_r.
    - by apply append_nonempty_r. }
  exists code. split; [reflexivity|]. split; [reflexivity|]. split; [exact Hne|].
  assert (Hin : Lru.peek (vueCache s1) filePath
                = Some (VueServe.with_script code
                          (default Vue.empty_entry (Lru.peek (vueCache s) filePath)))).
  { unfold s1. cbn [with_vueCache vueCache]. apply LruFacts.peek_set_eq. reflexivity. }
  split; [|split; [exact Hin|]].
  - intros i st ts Hi Hm. eexists. split; [reflexivity|].
    specialize (Himp i st Hi Hm). cbn [Nat.add] in Himp.
    unfold code.
    destruct (Sfc.script sfc); [apply imports_app_r|];
      apply imports_app_r, imports_app_r, imports_app_r;
      (destruct (Sfc.template sfc); [apply imports_app_r|]);
      (destruct (false || existsb Vue.is_scoped (Sfc.styles sfc)); [apply imports_app_r|]);
      apply imports_app_l, Himp.
  - intros sfc' scriptMap' publicPath'.
    pose proof (compileSFCMain_hit sfc' scriptMap' filePath publicPath' s1 _ code Hin
                  eq_refl Hne) as Hhit.
    unfold runs in Hhit.
    change (result_of (VueServe.compileSFCMain sfc' scriptMap' filePath publicPath' s1)
            = Ok code).
    by rewrite Hhit.
Qed.

End WithNode.
End MainModuleFacts.

(** ** The properties above on concrete runs *)

Module Runs.
Import Demo DemoServe.

Lemma unchanged_file_sends_nothing_witness :
  let prev := descriptor_of "export default {}" [Demo.plain_style "p { }"] in
  let r := @Vue.handleVueReload (Demo.api prev) "/r"
             (@Resolver.createResolver (Demo.api prev) "/r" [] ∅)
             (disk "next") app_vue 7 None (Demo.store_with app_vue prev) in
  result_of r = Ok tt ∧ sent (outputs_of r) = [].
Proof.
  intros prev.
  eapply (@HmrFacts.unchanged_file_sends_nothing (Demo.api prev) "/r" [] ∅ (disk "next")
            app_vue 7 None (Demo.store_with app_vue prev) _ prev "next" []).
  - reflexivity.
  - reflexivity.
  - vm_compute. reflexivity.
  - reflexivity.
  - intros b Hb. simpl in Hb.
    repeat (apply elem_of_cons in Hb as [->|Hb]; [reflexivity|]).
    by apply elem_of_nil in Hb.
Defined.

Lemma unreadable_file_drops_entry_witness :
  let prev := descriptor_of "export default {}" [] in
  let s := Demo.store_with app_vue prev in
  let r := @Vue.handleVueReload (Demo.api prev) "/r"
             (@Resolver.createResolver (Demo.api prev) "/r" [] ∅)
             bare app_vue 7 None s in
  result_of r = Ok tt
  ∧ sent (outputs_of r) = []
  ∧ Lru.peek (vueCache (store_of r)) app_vue = None
  ∧ ∀ other, other ≠ app_vue →
      Lru.peek (vueCache (store_of r)) other = Lru.peek (vueCache s) other.
Proof.
  intros prev s.
  apply (@HmrFacts.unreadable_file_drops_entry (Demo.api prev) "/r" [] ∅ bare app_vue 7
           None s).
  vm_compute. reflexivity.
Defined.

(** Two components in the cache; one of them changes. *)
Lemma other_entries_untouched_witness :
  let prev := descriptor_of "export default {a:1}" [] in
  let next := descriptor_of "export default {a:2}" [] in
  let other := "/r/src/B.vue" in
  let s := mkStore ∅ ∅ ∅ ∅ ∅
             [(app_vue, Vue.fresh_entry prev); (other, Vue.fresh_entry prev)] ∅ ∅ in
  Lru.peek
    (vueCache (store_of (@Vue.handleVueReload (Demo.api next) "/r"
                           (@Resolver.createResolver (Demo.api next) "/r" [] ∅)
                           (disk "next") app_vue 7 None s))) other
  = Lru.peek (vueCache s) other.
Proof.
  intros prev next other s.
  apply (@HmrFacts.other_entries_untouched (Demo.api next) "/r" [] ∅ (disk "next") app_vue 7
           None s other).
  - discriminate.
  - left. vm_compute. reflexivity.
Defined.

(** The second call is handed another text and sees an empty disk. *)
Lemma parseSFC_memoizes_descriptor_witness :
  let parsed := descriptor_of "export default {}" [] in
  let first := @Vue.parseSFC (Demo.api parsed) (disk "next") "/r" app_vue None
                 Demo.empty_store in
  let second := @Vue.parseSFC (Demo.api parsed) bare "/r" app_vue (Some "other")
                  (store_of first) in
  result_of first = Ok (Some parsed)
  ∧ result_of second = Ok (Some parsed)
  ∧ outputs_of second = [Debug "vite:sfc" (app_vue +:+ " parse cache hit")]
  ∧ Lru.peek (vueCache (store_of second)) app_vue = Some (Vue.fresh_entry parsed).
Proof.
  intros parsed.
  apply (@HmrFacts.parseSFC_memoizes_descriptor (Demo.api parsed) (disk "next") "/r" app_vue
           None Demo.empty_store "next" parsed [] bare (Some "other")).
  - reflexivity.
  - vm_compute. reflexivity.
  - reflexivity.
Defined.

Lemma custom_resolver_takes_precedence_witness :
  let run := @Resolver.requestToFile plain_api "/r" [silent; elsewhere] bare "/logo.png"
               Demo.empty_store in
  store_of run = Demo.empty_store
  ∧ ∃ ext, result_of (@Resolver.resolveExt plain_api bare "/elsewhere/logo.png"
                        Demo.empty_store) = Ok ext
           ∧ result_of run = Ok ("/elsewhere/logo.png" +:+ default "" ext).
Proof.
  apply (@ResolutionFacts.custom_resolver_takes_precedence plain_api "/r" [silent] elsewhere
           [] bare "/logo.png" Demo.empty_store "/elsewhere/logo.png").
  - intros r' Hr'. apply elem_of_cons in Hr' as [->|Hr']; [reflexivity|].
    by apply elem_of_nil in Hr'.
  - reflexivity.
  - discriminate.
Defined.

Lemma file_request_round_trip_witness :
  @Resolver.fileToRequest plain_api "/r" [] "/r/logo.png" Demo.empty_store
  = (Ok "/logo.png", Demo.empty_store, [])
  ∧ @Resolver.requestToFile plain_api "/r" [] before "/logo.png" Demo.empty_store
    = (Ok "/r/logo.png", Demo.empty_store, []).
Proof.
  apply (@ResolutionFacts.file_request_round_trip plain_api "/r" [] before "/r/logo.png"
           Demo.empty_store); vm_compute; reflexivity.
Defined.

(** The package [foo] resolved once, then asked for on an empty disk. *)
Lemma package_resolution_memoized_witness :
  let first := @Resolver.resolveNodeModule plain_api installed "/r" "foo" Demo.empty_store in
  let info := {| entry := Some "foo/a.js";
                 entryFilePath := Some "/r/node_modules/foo/a.js";
                 pkg := foo_manifest |} in
  result_of first = Ok (Some info)
  ∧ ∀ w' root',
      @Resolver.resolveNodeModule plain_api w' root' "foo" (store_of first)
      = (Ok (Some info), store_of first, []).
Proof.
  intros first info. split; [vm_compute; reflexivity|].
  apply (@ResolutionFacts.package_resolution_memoized plain_api installed "/r" "foo"
           Demo.empty_store (Some info) (store_of first) (outputs_of first)).
  vm_compute. reflexivity.
Defined.

Lemma package_entry_registered_witness :
  let first := @Resolver.resolveNodeModule plain_api installed "/r" "foo" Demo.empty_store in
  let info := {| entry := Some "foo/a.js";
                 entryFilePath := Some "/r/node_modules/foo/a.js";
                 pkg := foo_manifest |} in
  ∃ f, entryFilePath info = Some f
       ∧ ∀ w' root',
           Resolver.resolveNodeModuleFile w' root' "foo/a.js" (store_of first)
           = (Ok (Some f), store_of first, []).
Proof.
  intros first info.
  apply (@ResolutionFacts.package_entry_registered plain_api installed "/r" "foo"
           Demo.empty_store info (store_of first) (outputs_of first) "foo/a.js").
  - exact ResolverRuns.join_nonempty.
  - reflexivity.
  - vm_compute. reflexivity.
  - reflexivity.
Defined.

Lemma bare_import_rewrite_is_stable_witness :
  let first := @Resolver.resolveBareModuleRequest plain_api installed "/r" "foo"
                 "/src/main.js" Demo.empty_store in
  result_of (@Resolver.resolveBareModuleRequest plain_api installed "/r" "foo"
               "/src/other.js" (store_of first))
  = result_of first.
Proof.
  apply (@ResolutionFacts.bare_import_rewrite_is_stable plain_api installed "/r" "foo"
           "/src/main.js" "/src/other.js" Demo.empty_store).
  exact ResolverRuns.join_nonempty.
Defined.

Lemma non_string_entry_raises_witness :
  (∃ e out, @Resolver.resolveNodeModule plain_api odd_installed "/r" "odd" Demo.empty_store
            = (Throw e, Demo.empty_store, out))
  ∧ (¬ @Policy.artifact_exists plain_api odd_installed "/r" "odd" Demo.empty_store →
     ∃ e out, @Resolver.resolveBareModuleRequest plain_api odd_installed "/r" "odd"
                "/src/main.js" Demo.empty_store
              = (Throw e, Demo.empty_store, out)).
Proof.
  apply (@ResolutionFacts.non_string_entry_raises plain_api odd_installed "/r" "odd"
           "/src/main.js" Demo.empty_store "/r/node_modules/odd/package.json"
           odd_manifest).
  - reflexivity.
  - vm_compute. reflexivity.
  - reflexivity.
  - intros t. vm_compute. discriminate.
Defined.

(** From here on every run uses the plain installation and the compiler
    stand-ins. *)
#[local] Existing Instance plain_api.
#[local] Existing Instance serve_api.

(** With an empty alias object: an ordinary identifier goes to the resolvers,
    an inherited name does not; an own entry comes before both. *)
Example alias_reads_inherited_names :
  let plain := Resolver.createResolver "/r" [aliasing] ∅ in
  let own := Resolver.createResolver "/r" [aliasing] {[ "toString" := "/src/str.js" ]} in
  InternalResolver.alias plain "vue" = Some (JsObject.Str "/@modules/vue")
  ∧ InternalResolver.alias plain "constructor" = Some (JsObject.Inherited "constructor")
  ∧ InternalResolver.alias own "toString" = Some (JsObject.Str "/src/str.js").
Proof. vm_compute. repeat split; reflexivity. Qed.

(** A CSS-module file in use is handed over; an unused one is not. *)
Example module_css_handed_over :
  outputs_of (Css.onChange (Resolver.createResolver "/r" [] ∅) 7 card_css served)
  = [HandleJSReload card_css 7]
  ∧ Views.handed_over
      (outputs_of (Css.onChange (Resolver.createResolver "/r" [] ∅) 7 card_css
                     Demo.empty_store))
    = [].
Proof. vm_compute. split; reflexivity. Qed.

(** A plain stylesheet that has been served. *)
Lemma stylesheet_change_decision_order_witness :
  let publicPath := "/src/main.css" in
  let r := Css.onChange (Resolver.createResolver "/r" [] ∅) 7 main_css served in
  (∀ styleImport, srcImportMap served !! main_css = Some styleImport →
     sent (outputs_of r)
     = [StyleUpdate (cleanUrl styleImport +:+ "?type=style&index="
                     +:+ qs_index styleImport) 7]
     ∧ processedCSS (store_of r) = processedCSS served
     ∧ Lru.peek (vueCache (store_of r)) main_css = None)
  ∧ (srcImportMap served !! main_css = None →
     is_Some (processedCSS served !! publicPath) →
     Js.endsWith main_css ".module.css" = true →
     outputs_of r = [HandleJSReload main_css 7] ∧ store_of r = served)
  ∧ (srcImportMap served !! main_css = None →
     is_Some (processedCSS served !! publicPath) →
     Js.endsWith main_css ".module.css" = false →
     outputs_of r = [Send (StyleUpdate publicPath 7)]
     ∧ processedCSS (store_of r) !! publicPath = None
     ∧ vueCache (store_of r) = vueCache served).
Proof.
  intros publicPath.
  apply (StylesheetFacts.stylesheet_change_decision_order "/r" [] ∅ 7 main_css publicPath
           served).
  - reflexivity.
  - vm_compute. reflexivity.
Defined.

(** The run of that event. *)
Example main_css_changed :
  let r := Css.onChange (Resolver.createResolver "/r" [] ∅) 7 main_css served in
  outputs_of r = [Send (StyleUpdate "/src/main.css" 7)]
  ∧ processedCSS (store_of r) !! "/src/main.css" = None
  ∧ is_Some (processedCSS (store_of r) !! "/src/card.module.css").
Proof. vm_compute. split; [reflexivity|]. split; [reflexivity|]. eauto. Qed.

(** The second call asks for another block under other options. *)
Lemma template_slot_memoized_witness :
  let code := "render(<div/>)" in
  let first := VueServe.compileSFCTemplate "/r" (template_of "<div/>") app_vue
                 "/src/App.vue" false None Demo.empty_store in
  let second := VueServe.compileSFCTemplate "/other" (template_of "<p>") app_vue
                  "/x" true (Some (tt : @UserOptions serve_api)) (store_of first) in
  result_of first = Ok code
  ∧ sent (outputs_of first) = []
  ∧ Lru.peek (vueCache (store_of first)) app_vue
    = Some (VueServe.with_template code
              (default Vue.empty_entry (Lru.peek (vueCache Demo.empty_store) app_vue)))
  ∧ result_of second = Ok code
  ∧ outputs_of second = [Debug "vite:sfc" ("/x" +:+ " template cache hit")].
Proof.
  apply (TemplateFacts.template_slot_memoized "/r" (template_of "<div/>") app_vue
           "/src/App.vue" false None Demo.empty_store "/other" (template_of "<p>") "/x" true
           (Some (tt : @UserOptions serve_api))).
  - reflexivity.
  - constructor.
  - discriminate.
Defined.

(** The entry held the code [render] before the event. *)
Lemma change_event_forces_template_recompile_witness :
  let prev := descriptor_of "export default {a:1}" [] in
  let next := descriptor_of "export default {a:2}" [] in
  let changed := store_of (@Vue.handleVueReload (Demo.api next) "/r"
                             (@Resolver.createResolver (Demo.api next) "/r" [] ∅)
                             (disk "next") app_vue 7 None
                             (Demo.store_with app_vue prev)) in
  let r := @VueServe.compileSFCTemplate (Demo.api next) serve_api "/r"
             (template_of "<div/>") app_vue "/src/App.vue" false None changed in
  result_of r = Ok "render(<div/>)"
  ∧ Lru.peek (vueCache (store_of r)) app_vue
    = Some {| descriptor := Some next; template := Some "render(<div/>)";
              script := None; styles := [] |}.
Proof.
  intros prev next.
  apply (@TemplateFacts.change_event_forces_template_recompile (Demo.api next) serve_api
           "/r" [] ∅ (disk "next") app_vue 7 None (Demo.store_with app_vue prev) "next"
           next [] (template_of "<div/>") "/src/App.vue" false None).
  - vm_compute. reflexivity.
  - reflexivity.
  - constructor.
Defined.

(** The stand-in reports a text and a located error for [<p>]. *)
Lemma located_diagnostic_without_map_raises_witness :
  let r := VueServe.compileSFCTemplate "/r" (template_of "<p>") app_vue "/src/App.vue"
             false None Demo.empty_store in
  result_of r = Throw "TypeError: Cannot read property of undefined"
  ∧ sent (outputs_of r) = []
  ∧ Lru.peek (vueCache (store_of r)) app_vue
    = Lru.peek (vueCache Demo.empty_store) app_vue.
Proof.
  apply (TemplateFacts.located_diagnostic_without_map_raises "/r" (template_of "<p>")
           app_vue "/src/App.vue" false None Demo.empty_store [ErrorText "1 error"]
           unclosed []).
  - reflexivity.
  - reflexivity.
  - repeat constructor.
  - reflexivity.
Defined.

(** The second request carries an edited body and sees an empty disk. *)
Lemma raw_requests_compile_once_witness :
  let ctx := raw_request "/src/main.css" "a { }" in
  let ctx' := raw_request "/src/main.css" "a { color: red }" in
  let w := world [(main_css, "a { }")] [] None in
  let first := CssServe.serve "/r" (Resolver.createResolver "/r" [] ∅) w ctx
                 Demo.empty_store in
  let second := CssServe.serve "/r" (Resolver.createResolver "/r" [] ∅) bare ctx'
                  (store_of first) in
  ∃ filename,
    result_of (Resolver.requestToFile "/r" [] w (CssServe.ctx_path ctx) Demo.empty_store)
    = Ok filename
    ∧ result_of first
      = Ok (CssServe.respond ctx "css"
              (css (Serving.processed_entry "/r" (CssServe.ctx_path ctx)
                      (Serving.body_text ctx) filename)))
    ∧ result_of second
      = Ok (CssServe.respond ctx' "css"
              (css (Serving.processed_entry "/r" (CssServe.ctx_path ctx)
                      (Serving.body_text ctx) filename)))
    ∧ store_of second = store_of first
    ∧ outputs_of second = [].
Proof.
  intros ctx ctx' w.
  apply (ServingFacts.raw_requests_compile_once "/r" [] ∅ w bare ctx ctx' Demo.empty_store);
    reflexivity.
Defined.

(** The run of those two requests. *)
Example edited_body_not_served :
  let w := world [(main_css, "a { }")] [] None in
  let first := CssServe.serve "/r" (Resolver.createResolver "/r" [] ∅) w
                 (raw_request "/src/main.css" "a { }") Demo.empty_store in
  let second := CssServe.serve "/r" (Resolver.createResolver "/r" [] ∅) bare
                  (raw_request "/src/main.css" "a { color: red }") (store_of first) in
  result_of first
  = Ok (CssServe.respond (raw_request "/src/main.css" "a { }") "css" "a { }")
  ∧ result_of second
    = Ok (CssServe.respond (raw_request "/src/main.css" "a { color: red }") "css" "a { }").
Proof. vm_compute. split; reflexivity. Qed.

(** The table holds [a { }]; the import request carries an edited body. *)
Lemma import_request_refreshes_entry_witness :
  let ctx := import_request "/src/main.css" "a { color: red }" in
  let ctx' := raw_request "/src/main.css" "a { }" in
  let r := CssServe.serve "/r" (Resolver.createResolver "/r" [] ∅) bare ctx served in
  let later := CssServe.serve "/r" (Resolver.createResolver "/r" [] ∅) bare ctx'
                 (store_of r) in
  ∃ filename,
    result_of (Resolver.requestToFile "/r" [] bare (CssServe.ctx_path ctx) served)
    = Ok filename
    ∧ let e := Serving.processed_entry "/r" (CssServe.ctx_path ctx)
                 (Serving.body_text ctx) filename in
      result_of r
      = Ok (CssServe.respond ctx "js"
              (codegenCss (json_stringify (hash_sum (CssServe.ctx_path ctx)))
                 (css e) (css_modules e)))
      ∧ processedCSS (store_of r) !! CssServe.ctx_path ctx = Some e
      ∧ result_of later = Ok (CssServe.respond ctx' "css" (css e)).
Proof.
  intros ctx ctx'.
  apply (ServingFacts.import_request_refreshes_entry "/r" [] ∅ bare bare ctx ctx' served);
    reflexivity.
Defined.

(** The plain stylesheet changes, then is requested with its new text. *)
Lemma change_event_and_next_raw_request_witness :
  let ctx := raw_request "/src/main.css" "a { color: red }" in
  let changed := store_of (Css.onChange (Resolver.createResolver "/r" [] ∅) 7 main_css
                             served) in
  let r := CssServe.serve "/r" (Resolver.createResolver "/r" [] ∅) bare ctx changed in
  (Js.endsWith main_css ".module.css" = false →
   ∃ filename,
     result_of (Resolver.requestToFile "/r" [] bare "/src/main.css" changed) = Ok filename
     ∧ result_of r
       = Ok (CssServe.respond ctx "css"
               (css (Serving.processed_entry "/r" "/src/main.css" (Serving.body_text ctx)
                       filename))))
  ∧ (Js.endsWith main_css ".module.css" = true →
     result_of r = Ok (CssServe.respond ctx "css" "a { }")).
Proof.
  intros ctx.
  apply (ServingFacts.change_event_and_next_raw_request "/r" [] ∅ 7 main_css "/src/main.css"
           bare ctx served {| css := "a { }"; css_modules := None |}).
  - reflexivity.
  - vm_compute. reflexivity.
  - reflexivity.
  - vm_compute. reflexivity.
  - reflexivity.
  - reflexivity.
  - reflexivity.
Defined.

(** The CSS-module file changes: the raw request still gets the old text. *)
Example module_css_stays_processed :
  let ctx := raw_request "/src/card.module.css" ".card { color: red }" in
  let changed := Css.onChange (Resolver.createResolver "/r" [] ∅) 7 card_css served in
  let r := CssServe.serve "/r" (Resolver.createResolver "/r" [] ∅) bare ctx
             (store_of changed) in
  outputs_of changed = [HandleJSReload card_css 7]
  ∧ result_of r = Ok (CssServe.respond ctx "css" ".card { }").
Proof. vm_compute. split; reflexivity. Qed.

(** The third style block is compiled first: the slots before it are holes. *)
Lemma style_slots_fill_independently_witness :
  let result := {| code := ".card { }"; modules := Some [] |} in
  let first := VueServe.compileSFCStyle "/r" card_style 2 app_vue "/src/App.vue"
                 Demo.empty_store in
  let second := VueServe.compileSFCStyle "/other" (plain_source "a { }") 2 app_vue "/x"
                  (store_of first) in
  result_of first = Ok result
  ∧ sent (outputs_of first) = []
  ∧ VueServe.style_slot (vueCache (store_of first)) app_vue 2 = Some result
  ∧ (∀ j, j ≠ 2 →
       VueServe.style_slot (vueCache (store_of first)) app_vue j
       = VueServe.style_slot (vueCache Demo.empty_store) app_vue j)
  ∧ Lru.peek (vueCache (store_of first)) app_vue ≫= script
    = Lru.peek (vueCache Demo.empty_store) app_vue ≫= script
  ∧ Lru.peek (vueCache (store_of first)) app_vue ≫= template
    = Lru.peek (vueCache Demo.empty_store) app_vue ≫= template
  ∧ result_of second = Ok result
  ∧ outputs_of second = [Debug "vite:sfc" ("/x" +:+ " style cache hit")].
Proof.
  intros result first second.
  assert (Hprint : Forall (VueServe.style_printable app_vue card_style)
                     [StyleErrorText "scoped CSS module"]) by (repeat constructor).
  exact (StyleSlotFacts.style_slots_fill_independently "/r" card_style 2 app_vue
           "/src/App.vue" Demo.empty_store ".card { }" (Some [])
           [StyleErrorText "scoped CSS module"] "/other" (plain_source "a { }") "/x"
           eq_refl eq_refl Hprint).
Defined.

(** The run of that request: two holes and the compiled block. *)
Example holes_before_the_compiled_block :
  let first := VueServe.compileSFCStyle "/r" card_style 2 app_vue "/src/App.vue"
                 Demo.empty_store in
  styles <$> Lru.peek (vueCache (store_of first)) app_vue
  = Some [None; None; Some {| code := ".card { }"; modules := Some [] |}].
Proof. vm_compute. reflexivity. Qed.

(** A component with a plain style block and a CSS-module block. *)
Lemma main_module_imports_style_requests_witness :
  let sfc := descriptor_of "export default {}"
               [Demo.plain_style "a { }"; Demo.module_style ".b { }"] in
  let r := VueServe.compileSFCMain sfc None app_vue "/src/App.vue" Demo.empty_store in
  ∃ code,
    result_of r = Ok code
    ∧ outputs_of r = []
    ∧ code ≠ ""
    ∧ (∀ i st ts, Sfc.styles sfc !! i = Some st →
         VueServe.attr_truthy (Sfc.module st) = false →
         ∃ path, Policy.style_update "/src/App.vue" ts i = StyleUpdate path ts
                 ∧ VueServe.imports code path)
    ∧ Lru.peek (vueCache (store_of r)) app_vue
      = Some (VueServe.with_script code
                (default Vue.empty_entry (Lru.peek (vueCache Demo.empty_store) app_vue)))
    ∧ ∀ sfc' scriptMap' publicPath',
        result_of (VueServe.compileSFCMain sfc' scriptMap' app_vue publicPath'
                     (store_of r))
        = Ok code.
Proof.
  intros sfc.
  apply (MainModuleFacts.main_module_imports_style_requests sfc None app_vue "/src/App.vue"
           Demo.empty_store).
  - reflexivity.
  - intros Habs. vm_compute in Habs. discriminate Habs.
Defined.

(** The module generated for that component. *)
Example main_module_of_two_styles :
  let sfc := descriptor_of "export default {}"
               [Demo.plain_style "a { }"; Demo.module_style ".b { }"] in
  result_of (VueServe.compileSFCMain sfc None app_vue "/src/App.vue" Demo.empty_store)
  = Ok (String.concat Js.nl
          ["const __script = {}";
           "import { updateStyle } from " +:+ Js.dquote +:+ "/vite/hmr" +:+ Js.dquote;
           "";
           "import " +:+ Js.dquote +:+ "/src/App.vue?type=style&index=0" +:+ Js.dquote;
           "const __cssModules = __script.__cssModules = {}";
           "import __style1 from " +:+ Js.dquote
             +:+ "/src/App.vue?type=style&index=1&module" +:+ Js.dquote;
           "__cssModules[" +:+ Js.dquote +:+ "$style" +:+ Js.dquote +:+ "] = __style1";
           "__script.__hmrId = " +:+ Js.dquote +:+ "/src/App.vue" +:+ Js.dquote;
           "__script.__file = " +:+ Js.dquote +:+ "/r/src/App.vue" +:+ Js.dquote;
           "export default __script"]).
Proof. vm_compute. reflexivity. Qed.

End Runs.
